(** * LVGL map-tile converter: a shallow embedding of
      [script/lvgl_map_tile_converter.py] and the properties of its
      RGB565 codec, tile encoder, name normalizer, tile discovery and
      serial scheduler. *)

From Stdlib Require Import ZArith Lia List Ascii String Bool.
From stdpp Require Import base list gmap strings sorting.
Import ListNotations.

Local Open Scope Z_scope.

(** ** Python values used by the script *)

(** A Python [str] is modelled as the list of its characters; a character
    is a code point below 256 (the Latin-1 block of Unicode). *)
Abbreviation str := (list ascii).

Definition lit (s : string) : str := list_ascii_of_string s.

(** Exceptions raised by the script and the library calls it makes.  All of
    them derive from [Exception]. *)
Inductive errno :=
| ENOENT | ENOTDIR | EISDIR | EEXIST | ENOTEMPTY | EBUSY | EINVAL | ENOSPC | EBADF
| EACCES | EIO | EPIPE.

Inductive exn :=
| StructError                           (* struct.error: value out of range *)
| OSError (code : errno) (p : str)      (* OSError and its subclasses *)
| UnidentifiedImageError (p : str)      (* PIL cannot decode the file *)
| UnicodeEncodeError                    (* a line standard output cannot encode *)
| TypeError.                            (* an operand of the wrong type *)

Inductive result (A : Type) :=
| Ok (a : A)
| Raise (e : exn).
Arguments Ok {A} a.
Arguments Raise {A} e.

(** Sequencing: a raised exception skips the rest of the block. *)
Global Instance result_bind : MBind result := fun A B k r =>
  match r with
  | Ok a => k a
  | Raise e => Raise e
  end.

(** [range(n)] *)
Definition range (n : Z) : list Z := map Z.of_nat (seq 0 (Z.to_nat n)).

(** ** struct.pack *)

(** [struct.pack("<B", v)] *)
Definition pack_B (v : Z) : result (list Z) :=
  if (0 <=? v) && (v <=? 255) then Ok [v] else Raise StructError.

(** [struct.pack("<H", v)] *)
Definition pack_H (v : Z) : result (list Z) :=
  if (0 <=? v) && (v <=? 65535) then Ok [v mod 256; v / 256] else Raise StructError.

(** ** RGB565 *)

(** [to_rgb565(r, g, b)] *)
Definition to_rgb565 (r g b : Z) : Z :=
  Z.lor (Z.lor (Z.shiftl (Z.land r 0xF8) 8) (Z.shiftl (Z.land g 0xFC) 3))
        (Z.shiftr b 3).

(** ** The tile encoder: the part of [make_lvgl_bin] that builds the
       header and the body in memory *)

(** The image returned by [Image.open(path).convert("RGB")]: its [size] and
    the pixel access object returned by [load()], indexed as
    [pixels[x, y]]. *)
Record DecodedImage := {
  im_width : Z;
  im_height : Z;
  im_load : Z -> Z -> Z * Z * Z
}.

(** Lines 35-47 of [make_lvgl_bin]. *)
Definition lvgl_header (w h : Z) : result (list Z) :=
  let stride := (w * 16 + 7) / 8 in
  let flags := 0x00 in
  let color_format := 0x12 in
  let magic := 0x19 in
  let header := [] in
  b ← pack_B magic; let header := header ++ b in
  b ← pack_B color_format; let header := header ++ b in
  b ← pack_H flags; let header := header ++ b in
  b ← pack_H w; let header := header ++ b in
  b ← pack_H h; let header := header ++ b in
  b ← pack_H stride; let header := header ++ b in
  b ← pack_H 0; let header := header ++ b in
  Ok header.

(** The inner loop [for x in range(w)] of lines 51-54, for the row [y]. *)
Fixpoint lvgl_row (pixels : Z -> Z -> Z * Z * Z) (y : Z) (xs : list Z)
    (body : list Z) : result (list Z) :=
  match xs with
  | [] => Ok body
  | x :: xs' =>
      let '(r, g, b) := pixels x y in
      let rgb565 := to_rgb565 r g b in
      p ← pack_H rgb565;
      lvgl_row pixels y xs' (body ++ p)
  end.

(** The outer loop [for y in range(h)] of lines 50-54. *)
Fixpoint lvgl_rows (pixels : Z -> Z -> Z * Z * Z) (w : Z) (ys : list Z)
    (body : list Z) : result (list Z) :=
  match ys with
  | [] => Ok body
  | y :: ys' =>
      body' ← lvgl_row pixels y (range w) body;
      lvgl_rows pixels w ys' body'
  end.

(** Lines 49-54 of [make_lvgl_bin]. *)
Definition lvgl_body (im : DecodedImage) : result (list Z) :=
  lvgl_rows (im_load im) (im_width im) (range (im_height im)) [].

(** Lines 32-54: the header and the body, in the order the script builds
    them. *)
Definition lvgl_encode (im : DecodedImage) : result (list Z * list Z) :=
  header ← lvgl_header (im_width im) (im_height im);
  body ← lvgl_body im;
  Ok (header, body).

(** The bytes of the file the script writes for [im]: the header followed by
    the body. *)
Definition lvgl_bytes (im : DecodedImage) : result (list Z) :=
  hb ← lvgl_encode im;
  Ok (fst hb ++ snd hb).

(** [PIL] pixels of an RGB image hold three channels in 0..255. *)
Definition rgb_pixel (p : Z * Z * Z) : Prop :=
  let '(r, g, b) := p in
  0 <= r <= 255 /\ 0 <= g <= 255 /\ 0 <= b <= 255.

Definition rgb_image (im : DecodedImage) : Prop :=
  forall x y, rgb_pixel (im_load im x y).

(** The little-endian bytes of a 16-bit value. *)
Definition le16 (v : Z) : list Z := [v mod 256; v / 256].

(** The packed value of the pixel in column [x] of row [y]. *)
Definition pixel565 (im : DecodedImage) (x y : Z) : Z :=
  let '(r, g, b) := im_load im x y in to_rgb565 r g b.

(** The header as the format describes it: magic, colour format, flags,
    width, height, stride = width * 2 and the reserved field, the 16-bit
    fields little-endian. *)
Definition format_header (w h : Z) : list Z :=
  [0x19; 0x12] ++ le16 0x0000 ++ le16 w ++ le16 h ++ le16 (w * 2) ++ le16 0x0000.

(** The body as the format describes it: rows top to bottom, columns left to
    right, two little-endian bytes per pixel. *)
Definition format_body (im : DecodedImage) : list Z :=
  flat_map (fun y => flat_map (fun x => le16 (pixel565 im x y)) (range (im_width im)))
           (range (im_height im)).

(** ** str methods and os.path functions *)

Definition code (c : ascii) : nat := nat_of_ascii c.

(** [str.lower()], per character: the letters A-Z and the capital letters
    of the Latin-1 block (U+00C0-U+00DE except the multiplication sign) map
    to the code point 32 above. *)
Definition lower_char (c : ascii) : ascii :=
  let n := code c in
  if ((65 <=? n) && (n <=? 90) || (192 <=? n) && (n <=? 214)
      || (216 <=? n) && (n <=? 222))%nat
  then ascii_of_nat (n + 32) else c.

Definition lower (s : str) : str := map lower_char s.

(** [str.isdigit()], per character: the decimal digits 0-9 and the
    superscript digits U+00B2, U+00B3 and U+00B9, which Unicode classes as
    digits. *)
Definition isdigit_char (c : ascii) : bool :=
  let n := code c in
  ((48 <=? n) && (n <=? 57) || (n =? 178) || (n =? 179) || (n =? 185))%nat.

(** [s.isdigit()]: all characters are digits and there is at least one. *)
Definition isdigit (s : str) : bool :=
  match s with
  | [] => false
  | _ => forallb isdigit_char s
  end.

(** [s.startswith(prefix)] and [s.endswith(suffix)] *)
Definition startswith (s prefix : str) : bool :=
  bool_decide (firstn (length prefix) s = prefix).

Definition endswith (s suffix : str) : bool :=
  (length suffix <=? length s)%nat
  && bool_decide (skipn (length s - length suffix) s = suffix).

(** [s.rfind(c)] for a one-character [c]: the highest index of [c], or -1.
    [rfind_from] scans from index [i] with the last index found so far. *)
Fixpoint rfind_from (s : str) (c : ascii) (i last : Z) : Z :=
  match s with
  | [] => last
  | a :: s' => rfind_from s' c (i + 1) (if decide (a = c) then i else last)
  end.

Definition rfind (s : str) (c : ascii) : Z := rfind_from s c 0 (-1).

(** The slice [s[i:j]] for [0 <= i]. *)
Definition slice (s : str) (i j : Z) : str :=
  firstn (Z.to_nat (j - i)) (skipn (Z.to_nat i) s).

Definition sep : ascii := "/"%char.
Definition extsep : ascii := "."%char.

(** The loop of [genericpath._splitext] that skips leading dots: the
    indices from [filenameIndex] up to [dotIndex]. *)
Fixpoint splitext_scan (p : str) (dotIndex : Z) (idx : list Z) : option (str * str) :=
  match idx with
  | [] => None
  | filenameIndex :: idx' =>
      if decide (slice p filenameIndex (filenameIndex + 1) <> [extsep])
      then Some (firstn (Z.to_nat dotIndex) p, skipn (Z.to_nat dotIndex) p)
      else splitext_scan p dotIndex idx'
  end.

(** [os.path.splitext(p)] of [posixpath]. *)
Definition splitext (p : str) : str * str :=
  let sepIndex := rfind p sep in
  let dotIndex := rfind p extsep in
  if sepIndex <? dotIndex then
    let filenameIndex := sepIndex + 1 in
    match splitext_scan p dotIndex
            (map (fun k => filenameIndex + k) (range (dotIndex - filenameIndex))) with
    | Some r => r
    | None => (p, [])
    end
  else (p, []).

(** ** The name normalizer *)

(** The list [[".png", ".bin", ".jpg", ".jpeg"]] of line 23. *)
Definition stripped_extensions : list str :=
  [lit ".png"; lit ".bin"; lit ".jpg"; lit ".jpeg"].

(** The loop of [clean_tile_name]; [fuel] bounds the number of
    iterations. *)
Fixpoint clean_loop (fuel : nat) (name filename : str) : option str :=
  match fuel with
  | O => None
  | S fuel' =>
      let '(name, ext) := splitext name in
      if bool_decide (lower ext ∉ stripped_extensions)
      then Some filename
      else let filename := name in clean_loop fuel' name filename
  end.

(** The run of [clean_tile_name(filename)] with one iteration more than the
    name has characters. *)
Definition clean_tile_name_run (filename : str) : option str :=
  clean_loop (S (length filename)) filename filename.

(** [clean_tile_name(filename)]; [clean_tile_name_terminates] shows that
    the run above always returns. *)
Definition clean_tile_name (filename : str) : str :=
  default filename (clean_tile_name_run filename).

(** The normalizer as described: the last extension of a name, without its
    dot, and the stem before it. *)
Definition last_extension (s : str) : option (str * str) :=
  match splitext s with
  | (stem, dot :: e) => Some (stem, e)
  | (_, []) => None
  end.

Definition known_extensions : list str :=
  [lit "png"; lit "bin"; lit "jpg"; lit "jpeg"].

(** [normalizes_to s r]: stripping the last extension of [s] while it is a
    known one, compared case-insensitively, stops at [r]. *)
Inductive normalizes_to : str -> str -> Prop :=
| norm_no_extension s :
    last_extension s = None -> normalizes_to s s
| norm_other_extension s stem e :
    last_extension s = Some (stem, e) -> lower e ∉ known_extensions ->
    normalizes_to s s
| norm_strip s stem e r :
    last_extension s = Some (stem, e) -> lower e ∈ known_extensions ->
    normalizes_to stem r -> normalizes_to s r.

(** [os.path.join(a, *p)] of [posixpath]. *)
Definition join (a : str) (p : list str) : str :=
  fold_left (fun path b =>
    if startswith b [sep] then b
    else if bool_decide (path = []) || endswith path [sep] then path ++ b
    else path ++ [sep] ++ b) p a.

(** [s.lstrip(c)] and [s.rstrip(c)] for a one-character [c]. *)
Fixpoint lstrip (s : str) (c : ascii) : str :=
  match s with
  | [] => []
  | a :: s' => if decide (a = c) then lstrip s' c else s
  end.

Definition rstrip (s : str) (c : ascii) : str := rev (lstrip (rev s) c).

(** [os.path.dirname(p)] of [posixpath]. *)
Definition dirname (p : str) : str :=
  let i := rfind p sep + 1 in
  let head := slice p 0 i in
  if bool_decide (head <> []) && bool_decide (head <> repeat sep (length head))
  then rstrip head sep else head.

(** The order of [sorted] on strings: code point by code point. *)
Fixpoint str_leb (a b : str) : bool :=
  match a, b with
  | [], _ => true
  | _ :: _, [] => false
  | x :: a', y :: b' =>
      if (code x <? code y)%nat then true
      else if (code y <? code x)%nat then false
      else str_leb a' b'
  end.

Definition str_le (a b : str) : Prop := str_leb a b = true.

Global Instance str_le_dec a b : Decision (str_le a b).
Proof. unfold str_le. apply _. Defined.

(** [sorted(names)] *)
Definition sorted (names : list str) : list str := merge_sort str_le names.

(** ** The file system and the console *)

(** A file holds bytes; a directory is an entry whose children are the
    entries one name below it.  An entry is addressed by its location, the
    list of names from the root directory, which is also the working
    directory of the process; the root itself always exists. *)
Inductive node :=
| File (data : list Z)
| Dir.

Abbreviation location := (list (list ascii)).
Abbreviation filesystem := (gmap (list (list ascii)) node).

(** The lines the script prints. *)
Inductive message :=
| MsgFix (bin_path : str)                  (* [Fix] Removing incorrect folder *)
| MsgOK (png_path bin_path : str)          (* [OK] png -> bin *)
| MsgNotFound (input_root : str)           (* [ERROR] ... not found. *)
| MsgSkip (output_path : str)              (* [Skip] ... *)
| MsgNothing                               (* [INFO] Nothing to do. *)
| MsgConverting (n : nat) (jobs : Z)       (* [INFO] Converting n tiles ... *)
| MsgFailed (inp : str) (e : exn).         (* [Error] Failed to convert ... *)

(** The state the script acts on: the file system, the number of bytes the
    disk can still take, and the console output so far. *)
Record world := {
  fs : gmap (list (list ascii)) node;
  free : nat;
  stdout : list message
}.

Definition node_at (m : filesystem) (l : location) : option node :=
  match l with
  | [] => Some Dir
  | _ => m !! l
  end.

(** [p.split(c)] for a one-character [c]. *)
Fixpoint split_on (c : ascii) (s : str) : list str :=
  match s with
  | [] => [[]]
  | a :: s' =>
      if decide (a = c) then [] :: split_on c s'
      else match split_on c s' with
           | w :: ws => (a :: w) :: ws
           | [] => [[a]]
           end
  end.

(** Path resolution: each name is looked up in a directory; the empty name
    and [.] stay, [..] goes to the parent.  The last name need not exist. *)
Fixpoint walk (m : filesystem) (cur : location) (names : list str) : option location :=
  match names with
  | [] => Some cur
  | n :: names' =>
      match node_at m cur with
      | Some Dir =>
          if bool_decide (n = [] \/ n = lit ".") then walk m cur names'
          else if bool_decide (n = lit "..") then walk m (removelast cur) names'
          else walk m (cur ++ [n]) names'
      | _ => None
      end
  end.

Definition locate (m : filesystem) (p : str) : option location :=
  match p with
  | [] => None
  | _ => walk m [] (split_on sep p)
  end.

(** The error of a path that leads nowhere: a name is looked up in a
    regular file, or in something that does not exist. *)
Fixpoint walk_errno (m : filesystem) (cur : location) (names : list str) : errno :=
  match names with
  | [] => ENOENT
  | n :: names' =>
      match node_at m cur with
      | Some Dir =>
          if bool_decide (n = [] \/ n = lit ".") then walk_errno m cur names'
          else if bool_decide (n = lit "..") then walk_errno m (removelast cur) names'
          else walk_errno m (cur ++ [n]) names'
      | Some (File _) => ENOTDIR
      | None => ENOENT
      end
  end.

Definition lookup_errno (m : filesystem) (p : str) : errno :=
  match p with
  | [] => ENOENT
  | _ => walk_errno m [] (split_on sep p)
  end.

(** The name of the entry at [k] when it is a child of the directory
    at [l]. *)
Definition child_of (l k : location) : option str :=
  match k with
  | [] => None
  | _ => if bool_decide (removelast k = l) then last k else None
  end.

Definition children (m : filesystem) (l : location) : list str :=
  omap (child_of l) (map fst (map_to_list m)).

(** [os.path.isdir(p)] and [os.path.isfile(p)] *)
Definition isdir (m : filesystem) (p : str) : bool :=
  match locate m p with
  | Some l => match node_at m l with Some Dir => true | _ => false end
  | None => false
  end.

Definition isfile (m : filesystem) (p : str) : bool :=
  match locate m p with
  | Some l => match node_at m l with Some (File _) => true | _ => false end
  | None => false
  end.

(** [os.listdir(p)] *)
Definition listdir (m : filesystem) (p : str) : result (list str) :=
  match locate m p with
  | Some l =>
      match node_at m l with
      | Some Dir => Ok (children m l)
      | Some (File _) => Raise (OSError ENOTDIR p)
      | None => Raise (OSError ENOENT p)
      end
  | None => Raise (OSError (lookup_errno m p) p)
  end.

(** ** The environment *)

(** The requests the script makes to the operating system and to the
    console.  Each of them can fail for a reason the tree does not show: a
    missing permission, an I/O error, a line that standard output cannot
    encode, a closed pipe. *)
Inductive call :=
| CallListdir (p : str)             (* os.listdir(p) *)
| CallMkdir (l : location)          (* a mkdir of os.makedirs, for the directory at l *)
| CallRmdir (p : str)               (* os.rmdir(p) *)
| CallRead (p : str)                (* Image.open(p) *)
| CallOpen (p : str)                (* open(p, "wb") *)
| CallWrite (p : str)               (* f.write on the file opened at p *)
| CallPrint (msg : message).        (* print of the line msg *)

Section Converter.

(** What the environment refuses: [refused c = Some e] when the request [c]
    fails with the exception [e] whatever the tree holds, and [None] when
    the request is carried out on the tree. *)
Variable refused : call -> option exn.

(** The path [os.makedirs(p)] reports when a regular file is in its way and
    [rest] are the names of [p] after that file: [p] up to the component
    that follows the file, all of [p] when none follows. *)
Fixpoint after_next (names : list str) : list str :=
  match names with
  | [] => []
  | n :: rest => if bool_decide (n = []) then after_next rest else rest
  end.

Definition failing_path (p : str) (rest : list str) : str :=
  take (length p - list_sum (map (fun n => S (length n)) (after_next rest))) p.

(** [os.makedirs(p, exist_ok=True)]: the missing directories along [p] are
    created; those created before a failure stay.  A regular file in the
    way is an error: it exists, when it is the last component; otherwise it
    is not a directory. *)
Fixpoint makedirs_walk (m : filesystem) (cur : location) (names : list str)
    (p : str) : result unit * filesystem :=
  match names with
  | [] => (Ok (), m)
  | n :: names' =>
      if bool_decide (n = [] \/ n = lit ".") then makedirs_walk m cur names' p
      else if bool_decide (n = lit "..") then makedirs_walk m (removelast cur) names' p
      else match node_at m (cur ++ [n]) with
           | Some Dir => makedirs_walk m (cur ++ [n]) names' p
           | Some (File _) =>
               (Raise (OSError (if forallb (fun n => bool_decide (n = [])) names'
                                then EEXIST else ENOTDIR)
                         (failing_path p names')), m)
           | None =>
               match refused (CallMkdir (cur ++ [n])) with
               | Some e => (Raise e, m)
               | None => makedirs_walk (<[cur ++ [n] := Dir]> m) (cur ++ [n]) names' p
               end
           end
  end.

Definition makedirs (m : filesystem) (p : str) : result unit * filesystem :=
  match p with
  | [] => (Raise (OSError ENOENT p), m)
  | _ => makedirs_walk m [] (split_on sep p) p
  end.

(** A name that denotes an entry: not empty, not [.] or [..], no
    separator. *)
Definition proper_name (n : str) : bool :=
  bool_decide (n <> [] /\ n <> lit "." /\ n <> lit ".." /\ sep ∉ n).

(** [os.rmdir(p)]: removes the empty directory at [p].  The path is
    resolved first; then a last component [.] or [..] and the root are
    refused. *)
Definition rmdir (m : filesystem) (p : str) : result filesystem :=
  match locate m p with
  | Some l =>
      match last (filter (fun n => n <> []) (split_on sep p)) with
      | Some n =>
          if bool_decide (n = lit ".") then Raise (OSError EINVAL p)
          else if bool_decide (n = lit "..") then Raise (OSError ENOTEMPTY p)
          else match m !! l with
               | Some Dir =>
                   match children m l with
                   | [] => Ok (delete l m)
                   | _ => Raise (OSError ENOTEMPTY p)
                   end
               | Some (File _) => Raise (OSError ENOTDIR p)
               | None => Raise (OSError ENOENT p)
               end
      | None => Raise (OSError EBUSY p)
      end
  | None => Raise (OSError (lookup_errno m p) p)
  end.

(** ** Statements with effects *)

(** A statement runs in a world and either returns a value or raises; the
    world it leaves is kept in both cases. *)
Definition io (A : Type) : Type := world -> result A * world.

Global Instance io_ret : MRet io := fun A a w => (Ok a, w).

Global Instance io_bind : MBind io := fun A B k c w =>
  match c w with
  | (Ok a, w') => k a w'
  | (Raise e, w') => (Raise e, w')
  end.

(** A pure computation that may raise. *)
Definition lift {A} (r : result A) : io A := fun w => (r, w).

(** [try: c except Exception as e: handler(e)] *)
Definition try_except (c : io unit) (handler : exn -> io unit) : io unit := fun w =>
  match c w with
  | (Ok a, w') => (Ok a, w')
  | (Raise e, w') => handler e w'
  end.

Definition set_fs (m : filesystem) (w : world) : world :=
  {| fs := m; free := free w; stdout := stdout w |}.

(** [print(msg)]: the line is written to the console, unless the console
    refuses it; then [print] raises and nothing is written. *)
Definition print (msg : message) : io unit := fun w =>
  match refused (CallPrint msg) with
  | Some e => (Raise e, w)
  | None => (Ok (), {| fs := fs w; free := free w; stdout := stdout w ++ [msg] |})
  end.

Definition os_path_isdir (p : str) : io bool := fun w => (Ok (isdir (fs w) p), w).

Definition os_path_isfile (p : str) : io bool := fun w => (Ok (isfile (fs w) p), w).

(** [os.listdir(p)] as the script calls it. *)
Definition os_listdir (m : filesystem) (p : str) : result (list str) :=
  match refused (CallListdir p) with
  | Some e => Raise e
  | None => listdir m p
  end.

Definition os_makedirs (p : str) : io unit := fun w =>
  let '(r, m) := makedirs (fs w) p in (r, set_fs m w).

Definition os_rmdir (p : str) : io unit := fun w =>
  match refused (CallRmdir p) with
  | Some e => (Raise e, w)
  | None =>
      match rmdir (fs w) p with
      | Ok m => (Ok (), set_fs m w)
      | Raise e => (Raise e, w)
      end
  end.

(** The error of [open(p, "wb")] for a path that leads nowhere: a path
    with a trailing separator is taken for a directory when the path
    before the separator can be resolved. *)
Definition create_errno (m : filesystem) (p : str) : errno :=
  if endswith p [sep] && bool_decide (is_Some (locate m (rstrip p sep)))
  then EISDIR
  else lookup_errno m p.

(** [open(p, "wb")]: the file is created, or truncated when it exists; the
    open file is known by its location. *)
Definition open_wb (p : str) : io location := fun w =>
  match refused (CallOpen p) with
  | Some e => (Raise e, w)
  | None =>
      match locate (fs w) p with
      | Some l =>
          match node_at (fs w) l with
          | Some Dir => (Raise (OSError EISDIR p), w)
          | Some (File old) =>
              (Ok l, {| fs := <[l := File []]> (fs w);
                        free := (free w + length old)%nat; stdout := stdout w |})
          | None => (Ok l, set_fs (<[l := File []]> (fs w)) w)
          end
      | None => (Raise (OSError (create_errno (fs w) p) p), w)
      end
  end.

(** [f.write(data)]: the bytes are appended; when the disk cannot take them
    all, those that fit are written and the call raises. *)
Definition f_write (p : str) (f : location) (data : list Z) : io unit := fun w =>
  match refused (CallWrite p) with
  | Some e => (Raise e, w)
  | None =>
      match fs w !! f with
      | Some (File old) =>
          if (length data <=? free w)%nat
          then (Ok (), {| fs := <[f := File (old ++ data)]> (fs w);
                          free := (free w - length data)%nat; stdout := stdout w |})
          else (Raise (OSError ENOSPC p),
                {| fs := <[f := File (old ++ firstn (free w) data)]> (fs w);
                   free := 0; stdout := stdout w |})
      | _ => (Raise (OSError EBADF p), w)
      end
  end.

(** The content of the regular file at [p], if there is one. *)
Definition read_file (m : filesystem) (p : str) : option (list Z) :=
  match locate m p with
  | Some l => match node_at m l with Some (File data) => Some data | _ => None end
  | None => None
  end.

(** Lines 63-65: [with open(bin_path, "wb") as f], the two writes; leaving
    the block closes the file, also when a write raises. *)
Definition write_bin (bin_path : str) (header body : list Z) : io unit :=
  f ← open_wb bin_path;
  _ ← f_write bin_path f header;
  f_write bin_path f body.

(** The image decoder of the imaging library: the pixels of a file's
    bytes, or nothing when they are not an image. *)
Variable decode : list Z -> option DecodedImage.

(** [Image.open(png_path).convert("RGB")] *)
Definition Image_open (png_path : str) : io DecodedImage := fun w =>
  match refused (CallRead png_path) with
  | Some e => (Raise e, w)
  | None =>
      match locate (fs w) png_path with
      | Some l =>
          match node_at (fs w) l with
          | Some (File data) =>
              match decode data with
              | Some im => (Ok im, w)
              | None => (Raise (UnidentifiedImageError png_path), w)
              end
          | Some Dir => (Raise (OSError EISDIR png_path), w)
          | None => (Raise (OSError ENOENT png_path), w)
          end
      | None => (Raise (OSError (lookup_errno (fs w) png_path) png_path), w)
      end
  end.

(** [make_lvgl_bin(png_path, bin_path)] *)
Definition make_lvgl_bin (png_path bin_path : str) : io unit :=
  im ← Image_open png_path;
  hb ← lift (lvgl_encode im);
  let '(header, body) := hb in
  _ ← os_makedirs (dirname bin_path);
  folder ← os_path_isdir bin_path;
  _ ← (if folder : bool
       then _ ← print (MsgFix bin_path); os_rmdir bin_path
       else mret ());
  _ ← write_bin bin_path header body;
  print (MsgOK png_path bin_path).

(** ** Tile discovery *)

(** What a generator has done when it stops: the pairs it has yielded, in
    order, and the exception that ended it, if one did. *)
Abbreviation yields := (list (str * str) * option exn)%type.

(** The loop over [y_file] of [_iter_tile_paths], lines 82-89. *)
Fixpoint iter_y_files (INPUT_ROOT OUTPUT_ROOT zoom x_tile : str)
    (y_files : list str) : list (str * str) :=
  match y_files with
  | [] => []
  | y_file :: rest =>
      if negb (endswith (lower y_file) (lit ".png"))
      then iter_y_files INPUT_ROOT OUTPUT_ROOT zoom x_tile rest
      else
        let tile_base := clean_tile_name y_file in
        let input_path := join INPUT_ROOT [zoom; x_tile; y_file] in
        let output_path := join OUTPUT_ROOT [zoom; x_tile; tile_base ++ lit ".bin"] in
        (input_path, output_path)
          :: iter_y_files INPUT_ROOT OUTPUT_ROOT zoom x_tile rest
  end.

(** The loop over [x_tile], lines 77-89.  A listing that raises ends the
    generator; what was yielded before stays yielded. *)
Fixpoint iter_x_tiles (m : filesystem) (INPUT_ROOT OUTPUT_ROOT zoom zoom_path : str)
    (x_tiles : list str) : yields :=
  match x_tiles with
  | [] => ([], None)
  | x_tile :: rest =>
      let x_path := join zoom_path [x_tile] in
      if negb (isdir m x_path) || negb (isdigit x_tile)
      then iter_x_tiles m INPUT_ROOT OUTPUT_ROOT zoom zoom_path rest
      else
        match os_listdir m x_path with
        | Raise e => ([], Some e)
        | Ok y_files =>
            let here := iter_y_files INPUT_ROOT OUTPUT_ROOT zoom x_tile (sorted y_files) in
            let later := iter_x_tiles m INPUT_ROOT OUTPUT_ROOT zoom zoom_path rest in
            (here ++ later.1, later.2)
        end
  end.

(** The loop over [zoom], lines 72-89. *)
Fixpoint iter_zooms (m : filesystem) (INPUT_ROOT OUTPUT_ROOT : str)
    (zooms : list str) : yields :=
  match zooms with
  | [] => ([], None)
  | zoom :: rest =>
      let zoom_path := join INPUT_ROOT [zoom] in
      if negb (isdir m zoom_path) || negb (isdigit zoom)
      then iter_zooms m INPUT_ROOT OUTPUT_ROOT rest
      else
        match os_listdir m zoom_path with
        | Raise e => ([], Some e)
        | Ok x_tiles =>
            let here :=
              iter_x_tiles m INPUT_ROOT OUTPUT_ROOT zoom zoom_path (sorted x_tiles) in
            match here.2 with
            | Some e => here
            | None =>
                let later := iter_zooms m INPUT_ROOT OUTPUT_ROOT rest in
                (here.1 ++ later.1, later.2)
            end
        end
  end.

(** [_iter_tile_paths()]: the pairs the generator yields, in order, for the
    file system [m], and how it ends; the two module variables are
    arguments. *)
Definition _iter_tile_paths (INPUT_ROOT OUTPUT_ROOT : str) (m : filesystem) : yields :=
  match os_listdir m INPUT_ROOT with
  | Raise e => ([], Some e)
  | Ok zooms => iter_zooms m INPUT_ROOT OUTPUT_ROOT (sorted zooms)
  end.

(** ** The batch *)

(** Lines 103-108 of [convert_all_tiles]: the task list. *)
Fixpoint plan_tasks (force : bool) (pairs : list (str * str))
    (tasks : list (str * str)) : io (list (str * str)) :=
  match pairs with
  | [] => mret tasks
  | (input_path, output_path) :: rest =>
      existing ← os_path_isfile output_path;
      if negb force && existing
      then _ ← print (MsgSkip output_path); plan_tasks force rest tasks
      else plan_tasks force rest (tasks ++ [(input_path, output_path)])
  end.

(** Lines 118-122: the serial path. *)
Fixpoint serial_path (tasks : list (str * str)) : io unit :=
  match tasks with
  | [] => mret ()
  | (inp, outp) :: rest =>
      _ ← try_except (make_lvgl_bin inp outp) (fun e => print (MsgFailed inp e));
      serial_path rest
  end.

(** How a batch ends: it has finished, or its tasks went to the thread
    pool, whose interleavings are outside this model. *)
Inductive batch :=
| Finished
| Pooled (jobs : Z) (tasks : list (str * str)).

(** Lines 110-135 of [convert_all_tiles]: the scheduler. *)
Definition run_tasks (jobs : Z) (tasks : list (str * str)) : io batch :=
  match tasks with
  | [] => _ ← print MsgNothing; mret Finished
  | _ =>
      _ ← print (MsgConverting (length tasks) jobs);
      if jobs <=? 1
      then _ ← serial_path tasks; mret Finished
      else mret (Pooled jobs tasks)
  end.

(** [convert_all_tiles(jobs, force)].  The loop of lines 104-108 takes the
    pairs from the generator one by one: the pairs yielded before the
    generator raises are planned, and then its exception ends the call. *)
Definition convert_all_tiles (INPUT_ROOT OUTPUT_ROOT : str) (jobs : Z) (force : bool)
    : io batch :=
  found ← os_path_isdir INPUT_ROOT;
  if negb found
  then _ ← print (MsgNotFound INPUT_ROOT); mret Finished
  else
    discovered ← (fun w => (Ok (_iter_tile_paths INPUT_ROOT OUTPUT_ROOT (fs w)), w));
    tasks ← plan_tasks force discovered.1 [];
    _ ← lift (match discovered.2 with Some e => Raise e | None => Ok () end);
    run_tasks jobs tasks.

End Converter.

(** ** Notions used to state the properties *)

(** [name] is one of the entries [os.listdir(dir)] returns. *)
Definition listed (m : filesystem) (dir name : str) : Prop :=
  exists names, listdir m dir = Ok names /\ name ∈ names.

(** The file [y_file] is a tile of the tree under [INPUT_ROOT]: [zoom] is an
    entry of the root, a directory, with a name [isdigit] accepts; [x_tile]
    is such an entry of [zoom]; [y_file] is an entry of [x_tile] whose name
    ends in [.png] whatever the case. *)
Record tile_at (m : filesystem) (INPUT_ROOT zoom x_tile y_file : str) : Prop := {
  zoom_listed : listed m INPUT_ROOT zoom;
  zoom_isdir : isdir m (join INPUT_ROOT [zoom]) = true;
  zoom_isdigit : isdigit zoom = true;
  x_listed : listed m (join INPUT_ROOT [zoom]) x_tile;
  x_isdir : isdir m (join (join INPUT_ROOT [zoom]) [x_tile]) = true;
  x_isdigit : isdigit x_tile = true;
  y_listed : listed m (join (join INPUT_ROOT [zoom]) [x_tile]) y_file;
  y_is_png : endswith (lower y_file) (lit ".png") = true
}.

(** The line that closes a task on the console: the source path, and the
    reason when the task failed. *)
Definition verdict (msg : message) : option (str * option exn) :=
  match msg with
  | MsgOK png_path _ => Some (png_path, None)
  | MsgFailed inp e => Some (inp, Some e)
  | _ => None
  end.

(** The world after a line is printed. *)
Definition printed (msg : message) (w : world) : world :=
  {| fs := fs w; free := free w; stdout := stdout w ++ [msg] |}.

(** [serial_run decode tasks w w']: running the tasks one after the other
    in list order from [w] ends in [w']; a task that raises is reported with
    its source path and the exception, and the next task runs in the world
    the failed one left. *)
Inductive serial_run (refused : call -> option exn)
    (decode : list Z -> option DecodedImage) :
    list (str * str) -> world -> world -> Prop :=
| serial_done w : serial_run refused decode [] w w
| serial_converted inp outp rest w w1 w2 :
    make_lvgl_bin refused decode inp outp w = (Ok (), w1) ->
    serial_run refused decode rest w1 w2 ->
    serial_run refused decode ((inp, outp) :: rest) w w2
| serial_failed inp outp rest w w1 w2 e :
    make_lvgl_bin refused decode inp outp w = (Raise e, w1) ->
    refused (CallPrint (MsgFailed inp e)) = None ->
    serial_run refused decode rest (printed (MsgFailed inp e) w1) w2 ->
    serial_run refused decode ((inp, outp) :: rest) w w2.

(** A path without [..] whose last name is a proper name. *)
Definition plain_path (p : str) : bool :=
  forallb (fun n => negb (bool_decide (n = lit ".."))) (split_on sep p)
  && match last (split_on sep p) with
     | Some n => proper_name n
     | None => false
     end.

(** Every name of every entry is a proper name. *)
Definition proper_names (m : filesystem) : bool :=
  forallb (forallb proper_name) (map fst (map_to_list m)).

(** A name made of the decimal digits 0-9 only. *)
Definition decimal_char (c : ascii) : bool := ((48 <=? code c) && (code c <=? 57))%nat.
Definition all_decimal (s : str) : bool := forallb decimal_char s.

(** The start of a joined path: [a], followed by a separator unless [a] is
    empty or ends with one. *)
Definition with_sep (a : str) : str :=
  if bool_decide (a = []) || endswith a [sep] then a else a ++ [sep].

(** ** Example inputs *)

(** The environment that refuses nothing. *)
Definition willing : call -> option exn := fun _ => None.

(** A console whose encoding has no arrow: the lines [[OK] ... → ...] and
    [[Error] Failed to convert ... → ...] cannot be encoded. *)
Definition no_arrow : call -> option exn := fun c =>
  match c with
  | CallPrint (MsgOK _ _) | CallPrint (MsgFailed _ _) => Some UnicodeEncodeError
  | _ => None
  end.

(** The file system with the given entries, each under its path. *)
Definition tree_of (entries : list (string * node)) : filesystem :=
  list_to_map (map (fun e => (split_on sep (lit (fst e)), snd e)) entries).

(** A one-row black image 32768 pixels wide. *)
Definition wide_image : DecodedImage :=
  {| im_width := 32768; im_height := 1; im_load := fun _ _ => (0, 0, 0) |}.

(** The 2x1 image with a red and a blue pixel. *)
Definition red_blue : DecodedImage :=
  {| im_width := 2; im_height := 1;
     im_load := fun x _ => if x =? 0 then (255, 0, 0) else (0, 0, 255) |}.

(** A decoder that knows one image, stored as the byte 1. *)
Definition toy_decode (data : list Z) : option DecodedImage :=
  match data with
  | [1] => Some red_blue
  | _ => None
  end.

(** The directory name made of the character U+00B2, superscript two. *)
Definition superscript_two : str := [ascii_of_nat 178].

(** A tree whose only zoom directory is named superscript two. *)
Definition superscript_tree : filesystem :=
  <[ [lit "in"; superscript_two; lit "1"; lit "2.png"] := File [1] ]>
  (<[ [lit "in"; superscript_two; lit "1"] := Dir ]>
  (<[ [lit "in"; superscript_two] := Dir ]>
  (<[ [lit "in"] := Dir ]> ∅))).

(** A tree with the tiles 2.png and 2.bin.png in one directory. *)
Definition twin_tree : filesystem :=
  tree_of [("in", Dir); ("in/0", Dir); ("in/0/1", Dir);
           ("in/0/1/2.png", File [1]); ("in/0/1/2.bin.png", File [1])].

Definition twin_world : world :=
  {| fs := twin_tree; free := 100; stdout := [] |}.

(** A tree with tiles under the zoom levels 0 and 10, a directory [zz] that
    is not a zoom level, a file that is not a tile, and an output tree with
    a stray directory where the tile 10/5/9 goes. *)
Definition sample_tree : filesystem :=
  tree_of [("in", Dir); ("in/0", Dir); ("in/0/1", Dir);
           ("in/0/1/2.png", File [1]); ("in/0/1/3.PNG", File [7]);
           ("in/0/1/4.jpg", File [1]);
           ("in/zz", Dir); ("in/zz/1", Dir); ("in/zz/1/2.png", File [1]);
           ("in/10", Dir); ("in/10/5", Dir); ("in/10/5/9.png", File [1]);
           ("out", Dir); ("out/10", Dir); ("out/10/5", Dir);
           ("out/10/5/9.bin", Dir)].

(** One tile to convert, on a disk with room for 12 bytes. *)
Definition full_disk_world : world :=
  {| fs := tree_of [("in", Dir); ("in/0", Dir); ("in/0/1", Dir);
                    ("in/0/1/2.png", File [1]); ("out", Dir)];
     free := 12; stdout := [] |}.

(** One tile to convert, and a directory that is not empty where its output
    goes. *)
Definition stray_folder_world : world :=
  {| fs := tree_of [("in", Dir); ("in/0", Dir); ("in/0/1", Dir);
                    ("in/0/1/2.png", File [1]);
                    ("out", Dir); ("out/0", Dir); ("out/0/1", Dir);
                    ("out/0/1/2.bin", Dir); ("out/0/1/2.bin/notes.txt", File [104; 105])];
     free := 100; stdout := [] |}.

Definition sample_world : world :=
  {| fs := sample_tree; free := 100; stdout := [] |}.

(** The tasks of the sample tree; the second source is not an image. *)
Definition sample_tasks : list (str * str) :=
  [(lit "in/0/1/2.png", lit "out/0/1/2.bin");
   (lit "in/0/1/3.PNG", lit "out/0/1/3.bin");
   (lit "in/10/5/9.png", lit "out/10/5/9.bin")].

(** Two tasks of the sample tree, the one whose source is not an image
    first. *)
Definition failing_first : list (str * str) :=
  [(lit "in/0/1/3.PNG", lit "out/0/1/3.bin");
   (lit "in/0/1/2.png", lit "out/0/1/2.bin")].

(** ** The entry point *)




(** ** Notions used to state further properties *)

Definition is_byte (b : Z) : Prop := 0 <= b <= 255.

(** The value of two little-endian bytes. *)
Definition u16 (lo hi : Z) : Z := lo + 256 * hi.

(** Every regular file of [m] is a regular file of [m']. *)
Definition regular_files_kept (m m' : filesystem) : Prop :=
  forall l data, m !! l = Some (File data) -> exists data', m' !! l = Some (File data').

(** The regular files of [m] are in [m'] with the same content, except
    perhaps the one at [f]. *)
Definition files_same_but (f : option location) (m m' : filesystem) : Prop :=
  forall l data, m !! l = Some (File data) -> Some l <> f ->
                 m' !! l = Some (File data).

(** The sample tree after its tiles 0/1/2 and 10/5/9 have been
    converted. *)
Definition converted_world : world :=
  {| fs := tree_of [("in", Dir); ("in/0", Dir); ("in/0/1", Dir);
                    ("in/0/1/2.png", File [1]);
                    ("in/10", Dir); ("in/10/5", Dir); ("in/10/5/9.png", File [1]);
                    ("out", Dir); ("out/0", Dir); ("out/0/1", Dir);
                    ("out/0/1/2.bin", File [25; 18; 0; 0; 2; 0; 1; 0; 4; 0; 0; 0; 0; 248; 31; 0]);
                    ("out/10", Dir); ("out/10/5", Dir);
                    ("out/10/5/9.bin", File [25; 18; 0; 0; 2; 0; 1; 0; 4; 0; 0; 0; 0; 248; 31; 0])];
     free := 68; stdout := [] |}.

(** Every entry is below the root, in a directory. *)
Definition well_formed (m : filesystem) : bool :=
  forallb (fun l => match l with
                    | [] => false
                    | _ => match node_at m (removelast l) with
                           | Some Dir => true
                           | _ => false
                           end
                    end) (map fst (map_to_list m)).

(** A path none of whose names is [..]. *)
Definition no_dotdot (p : str) : bool :=
  forallb (fun n => negb (bool_decide (n = lit ".."))) (split_on sep p).

(** Strictly before, in the order of [sorted]. *)
Definition str_lt (a b : str) : Prop := str_le a b /\ a <> b.

(** A tile is known by the names of its zoom directory, of its x directory
    and of its file; tiles are ordered by the first of the three names in
    which they differ. *)
Definition tile_lt (t1 t2 : str * str * str) : Prop :=
  match t1, t2 with
  | (z1, x1, y1), (z2, x2, y2) =>
      str_lt z1 z2 \/ (z1 = z2 /\ (str_lt x1 x2 \/ (x1 = x2 /\ str_lt y1 y2)))
  end.

(** The source and the destination of a tile, lines 86-88. *)
Definition tile_pair (INPUT_ROOT OUTPUT_ROOT : str) (t : str * str * str) : str * str :=
  match t with
  | (zoom, x_tile, y_file) =>
      (join INPUT_ROOT [zoom; x_tile; y_file],
       join OUTPUT_ROOT [zoom; x_tile; clean_tile_name y_file ++ lit ".bin"])
  end.

(* ================================================================== *)
(** * Properties *)

Lemma pack_H_ok v : 0 <= v <= 65535 -> pack_H v = Ok (le16 v).
Proof.
  intros [H0 H1]. unfold pack_H.
  apply Z.leb_le in H0, H1. by rewrite H0, H1.
Qed.

Lemma pack_H_raise v : 65535 < v -> pack_H v = Raise StructError.
Proof.
  intros H. unfold pack_H.
  apply Z.leb_gt in H. rewrite H. by rewrite andb_false_r.
Qed.

(** ** RGB565 codec *)

(** A property of bytes can be checked on the 256 values. *)
Lemma forall_byte (P : Z -> bool) :
  forallb P (range 256) = true -> forall v, 0 <= v <= 255 -> P v = true.
Proof.
  intros HP v Hv. rewrite forallb_forall in HP. apply HP.
  unfold range. apply in_map_iff. exists (Z.to_nat v). split; [lia|].
  apply in_seq. lia.
Qed.

Lemma red_field r : 0 <= r <= 255 -> Z.shiftl (Z.land r 0xF8) 8 = r / 8 * 2048.
Proof.
  intros H. apply Z.eqb_eq.
  by apply (forall_byte (fun r => Z.shiftl (Z.land r 0xF8) 8 =? r / 8 * 2048)).
Qed.

Lemma green_field g : 0 <= g <= 255 -> Z.shiftl (Z.land g 0xFC) 3 = g / 4 * 32.
Proof.
  intros H. apply Z.eqb_eq.
  by apply (forall_byte (fun g => Z.shiftl (Z.land g 0xFC) 3 =? g / 4 * 32)).
Qed.

(** Or-ing a value below [2^k] into a multiple of [2^k] adds it. *)
Lemma lor_high_low a b k :
  0 <= k -> 0 <= b < 2 ^ k -> Z.lor (a * 2 ^ k) b = a * 2 ^ k + b.
Proof.
  intros Hk Hb.
  assert (Hdisj : Z.land (a * 2 ^ k) b = 0).
  { destruct (Z.eq_dec b 0) as [->|Hnz]; [apply Z.land_0_r|].
    apply Z.bits_inj'. intros n Hn.
    rewrite Z.land_spec, Z.bits_0.
    destruct (Z.lt_ge_cases n k) as [Hlt|Hge].
    - by rewrite Z.mul_pow2_bits_low.
    - rewrite (Z.bits_above_log2 b n), andb_false_r; [done|lia|].
      apply Z.log2_lt_pow2; [lia|].
      eapply Z.lt_le_trans; [apply Hb|]. apply Z.pow_le_mono_r; lia. }
  rewrite <- Z.lxor_lor by done. symmetry. by apply Z.add_nocarry_lxor.
Qed.

(** The packed value as a sum of its three fields. *)
Lemma to_rgb565_fields r g b :
  0 <= r <= 255 -> 0 <= g <= 255 -> 0 <= b <= 255 ->
  to_rgb565 r g b = r / 8 * 2048 + g / 4 * 32 + b / 8.
Proof.
  intros Hr Hg Hb. unfold to_rgb565.
  rewrite red_field, green_field by done.
  rewrite (Z.shiftr_div_pow2 b 3) by lia. change (2 ^ 3) with 8.
  assert (0 <= g / 4 < 64) by (split; [apply Z.div_pos|apply Z.div_lt_upper_bound]; lia).
  assert (0 <= b / 8 < 32) by (split; [apply Z.div_pos|apply Z.div_lt_upper_bound]; lia).
  change 2048 with (2 ^ 11).
  rewrite (lor_high_low (r / 8) (g / 4 * 32) 11) by (change (2 ^ 11) with 2048; lia).
  replace (r / 8 * 2 ^ 11 + g / 4 * 32) with ((r / 8 * 64 + g / 4) * 2 ^ 5)
    by (change (2 ^ 11) with 2048; change (2 ^ 5) with 32; lia).
  rewrite lor_high_low by (change (2 ^ 5) with 32; lia). lia.
Qed.

Lemma to_rgb565_range r g b :
  0 <= r <= 255 -> 0 <= g <= 255 -> 0 <= b <= 255 ->
  0 <= to_rgb565 r g b <= 65535.
Proof.
  intros Hr Hg Hb. rewrite to_rgb565_fields by done.
  assert (0 <= r / 8 < 32) by (split; [apply Z.div_pos|apply Z.div_lt_upper_bound]; lia).
  assert (0 <= g / 4 < 64) by (split; [apply Z.div_pos|apply Z.div_lt_upper_bound]; lia).
  assert (0 <= b / 8 < 32) by (split; [apply Z.div_pos|apply Z.div_lt_upper_bound]; lia).
  lia.
Qed.

(** C2: for channels in 0..255 the codec returns a 16-bit value whose bits
    15-11 are the top five bits of red, bits 10-5 the top six bits of green
    and bits 4-0 the top five bits of blue, the low bits of each channel
    being dropped; black encodes to 0x0000 and white to 0xFFFF. *)
Theorem to_rgb565_layout r g b :
  0 <= r <= 255 -> 0 <= g <= 255 -> 0 <= b <= 255 ->
  let v := to_rgb565 r g b in
  0 <= v < 2 ^ 16 /\
  Z.shiftr v 11 = Z.shiftr r 3 /\
  Z.land (Z.shiftr v 5) 0x3F = Z.shiftr g 2 /\
  Z.land v 0x1F = Z.shiftr b 3 /\
  to_rgb565 0 0 0 = 0x0000 /\
  to_rgb565 255 255 255 = 0xFFFF.
Proof.
  intros Hr Hg Hb v.
  pose proof (to_rgb565_range r g b Hr Hg Hb) as Hrange.
  pose proof (to_rgb565_fields r g b Hr Hg Hb) as Hv. fold v in Hrange, Hv.
  assert (0 <= r / 8 < 32) by (split; [apply Z.div_pos|apply Z.div_lt_upper_bound]; lia).
  assert (0 <= g / 4 < 64) by (split; [apply Z.div_pos|apply Z.div_lt_upper_bound]; lia).
  assert (0 <= b / 8 < 32) by (split; [apply Z.div_pos|apply Z.div_lt_upper_bound]; lia).
  change (Z.land (Z.shiftr v 5) 0x3F) with (Z.land (Z.shiftr v 5) (Z.ones 6)).
  change (Z.land v 0x1F) with (Z.land v (Z.ones 5)).
  rewrite !Z.land_ones, !Z.shiftr_div_pow2 by lia.
  change (2 ^ 16) with 65536. change (2 ^ 11) with 2048. change (2 ^ 6) with 64.
  change (2 ^ 5) with 32. change (2 ^ 3) with 8. change (2 ^ 2) with 4.
  repeat split; try lia.
  - symmetry. apply (Z.div_unique v 2048 (r / 8) (g / 4 * 32 + b / 8)); lia.
  - assert (Hq : v / 32 = r / 8 * 64 + g / 4)
      by (symmetry; apply (Z.div_unique v 32 _ (b / 8)); lia).
    rewrite Hq. symmetry. apply (Z.mod_unique _ 64 (r / 8) (g / 4)); lia.
  - symmetry. apply (Z.mod_unique v 32 (r / 8 * 64 + g / 4) (b / 8)); lia.
Qed.

Lemma to_rgb565_layout_witness :
  let v := to_rgb565 200 100 50 in
  0 <= v < 2 ^ 16 /\
  Z.shiftr v 11 = Z.shiftr 200 3 /\
  Z.land (Z.shiftr v 5) 0x3F = Z.shiftr 100 2 /\
  Z.land v 0x1F = Z.shiftr 50 3 /\
  to_rgb565 0 0 0 = 0x0000 /\
  to_rgb565 255 255 255 = 0xFFFF.
Proof. apply (to_rgb565_layout 200 100 50); lia. Defined.

(** ** The tile encoder *)

Lemma range_length n : 0 <= n -> Z.of_nat (length (range n)) = n.
Proof. intros H. unfold range. rewrite length_map, length_seq. lia. Qed.

Lemma range_lookup n i :
  (i < Z.to_nat n)%nat -> range n !! i = Some (Z.of_nat i).
Proof.
  intros H. unfold range. rewrite list_lookup_fmap.
  rewrite lookup_seq_lt by done. done.
Qed.

Lemma stride_eq w : (w * 16 + 7) / 8 = w * 2.
Proof. symmetry. apply (Z.div_unique _ 8 _ 7); lia. Qed.

Lemma lvgl_header_ok w h :
  0 <= w <= 32767 -> 0 <= h <= 65535 ->
  lvgl_header w h = Ok (format_header w h).
Proof.
  intros Hw Hh. unfold lvgl_header. rewrite stride_eq.
  cbn -[pack_H Z.mul]. rewrite !pack_H_ok by lia. done.
Qed.

Lemma lvgl_header_raise w h :
  32767 < w -> lvgl_header w h = Raise StructError.
Proof.
  intros Hw. unfold lvgl_header. rewrite stride_eq.
  cbn -[pack_H Z.mul].
  destruct (pack_H w) as [bw|e] eqn:Ew; cbn -[pack_H Z.mul].
  - destruct (pack_H h) as [bh|e] eqn:Eh; cbn -[pack_H Z.mul].
    + rewrite (pack_H_ok 0), (pack_H_raise (w * 2)) by lia. done.
    + rewrite (pack_H_ok 0) by lia. simpl.
      unfold pack_H in Eh. by destruct (_ && _).
  - rewrite (pack_H_ok 0) by lia. simpl.
    unfold pack_H in Ew. by destruct (_ && _).
Qed.

Lemma lvgl_row_ok im y xs body :
  rgb_image im ->
  lvgl_row (im_load im) y xs body =
    Ok (body ++ flat_map (fun x => le16 (pixel565 im x y)) xs).
Proof.
  intros Him. revert body. induction xs as [|x xs IH]; intros body; simpl.
  - by rewrite app_nil_r.
  - unfold pixel565. specialize (Him x y).
    destruct (im_load im x y) as [[r g] b]. simpl in Him.
    rewrite pack_H_ok by (apply to_rgb565_range; tauto).
    simpl. rewrite IH. by rewrite <- app_assoc.
Qed.

Lemma lvgl_rows_ok im ys body :
  rgb_image im ->
  lvgl_rows (im_load im) (im_width im) ys body =
    Ok (body ++ flat_map (fun y => flat_map (fun x => le16 (pixel565 im x y))
                                            (range (im_width im))) ys).
Proof.
  intros Him. revert body. induction ys as [|y ys IH]; intros body; simpl.
  - by rewrite app_nil_r.
  - rewrite lvgl_row_ok by done. simpl. rewrite IH. by rewrite <- app_assoc.
Qed.

Lemma lvgl_body_ok im : rgb_image im -> lvgl_body im = Ok (format_body im).
Proof. intros Him. unfold lvgl_body. by rewrite lvgl_rows_ok. Qed.

(** Lookup in a concatenation of blocks of one length. *)
Lemma flat_map_lookup_block {A B} (f : A -> list B) (k : nat) (l : list A) i j a :
  (forall a, length (f a) = k) ->
  l !! i = Some a -> (j < k)%nat ->
  flat_map f l !! (i * k + j)%nat = f a !! j.
Proof.
  intros Hlen. revert i. induction l as [|a0 l IH]; intros i Hi Hj; [done|].
  simpl. destruct i as [|i]; simpl in *.
  - injection Hi as ->. rewrite lookup_app_l by (rewrite Hlen; lia). done.
  - rewrite lookup_app_r by (rewrite Hlen; lia).
    rewrite Hlen. replace (k + i * k + j - k)%nat with (i * k + j)%nat by lia.
    by apply IH.
Qed.

Lemma flat_map_length_block {A B} (f : A -> list B) (k : nat) (l : list A) :
  (forall a, length (f a) = k) ->
  length (flat_map f l) = (length l * k)%nat.
Proof.
  intros Hlen. induction l as [|a l IH]; simpl; [done|].
  rewrite length_app, Hlen, IH. lia.
Qed.

Lemma format_body_length im :
  0 <= im_width im -> 0 <= im_height im ->
  Z.of_nat (length (format_body im)) = im_width im * im_height im * 2.
Proof.
  intros Hw Hh. unfold format_body.
  rewrite (flat_map_length_block _ (length (range (im_width im)) * 2)).
  - rewrite Nat2Z.inj_mul, Nat2Z.inj_mul, !range_length by done.
    change (Z.of_nat 2) with 2. lia.
  - intros y. by rewrite (flat_map_length_block _ 2).
Qed.

Lemma format_body_lookup im x y j :
  0 <= x < im_width im -> 0 <= y < im_height im -> (j < 2)%nat ->
  format_body im !! (Z.to_nat (2 * (y * im_width im + x)) + j)%nat =
    le16 (pixel565 im x y) !! j.
Proof.
  intros Hx Hy Hj. unfold format_body.
  set (row := fun y => flat_map _ _).
  replace (Z.to_nat (2 * (y * im_width im + x)) + j)%nat
    with (Z.to_nat y * (Z.to_nat (im_width im) * 2) + (Z.to_nat x * 2 + j))%nat by nia.
  rewrite (flat_map_lookup_block row (Z.to_nat (im_width im) * 2) _ _ _ (Z.of_nat (Z.to_nat y))).
  - unfold row.
    rewrite (flat_map_lookup_block _ 2 _ _ _ (Z.of_nat (Z.to_nat x))); [|done| |done].
    + by rewrite !Z2Nat.id by lia.
    + apply range_lookup. lia.
  - intros y'. unfold row. rewrite (flat_map_length_block _ 2) by done.
    unfold range. by rewrite length_map, length_seq.
  - apply range_lookup. lia.
  - nia.
Qed.

(** C1 fails on the code for widths of 32768 and more: the stride [w * 2]
    no longer fits the 16-bit header field and [struct.pack] raises, for a
    one-row black image 32768 pixels wide. *)
Lemma lvgl_bytes_wide_image_raises :
  (0 <= im_width wide_image < 2 ^ 16 /\ 0 <= im_height wide_image < 2 ^ 16 /\
   rgb_image wide_image) /\
  lvgl_bytes wide_image = Raise StructError /\
  lvgl_bytes wide_image <>
    Ok (format_header (im_width wide_image) (im_height wide_image)
        ++ format_body wide_image).
Proof.
  assert (E : lvgl_bytes wide_image = Raise StructError).
  { unfold lvgl_bytes, lvgl_encode. rewrite lvgl_header_raise; [done|]. simpl. lia. }
  split; [|split; [done|by rewrite E]].
  repeat split; try (simpl; lia).
Qed.

(** C1, amended: for a width of at most 32767, a height of at most 65535 and
    channels in 0..255 the encoder produces the 12-byte header (magic 0x19,
    colour format 0x12, flags 0, width, height, stride = w * 2, reserved 0,
    little-endian) followed by the row-major little-endian RGB565 pixels, the
    pixel [(x, y)] at offsets [12 + 2 * (y * w + x)] and the next; the length
    is [12 + w * h * 2]. *)
Theorem lvgl_bytes_format im :
  0 <= im_width im <= 32767 -> 0 <= im_height im <= 65535 -> rgb_image im ->
  let w := im_width im in
  let h := im_height im in
  exists bytes,
    lvgl_bytes im = Ok bytes /\
    bytes = format_header w h ++ format_body im /\
    firstn 12 bytes =
      [0x19; 0x12; 0; 0; w mod 256; w / 256; h mod 256; h / 256;
       (w * 2) mod 256; (w * 2) / 256; 0; 0] /\
    Z.of_nat (length bytes) = 12 + w * h * 2 /\
    forall x y, 0 <= x < w -> 0 <= y < h ->
      bytes !! Z.to_nat (12 + 2 * (y * w + x)) = Some (pixel565 im x y mod 256) /\
      bytes !! Z.to_nat (12 + 2 * (y * w + x) + 1) = Some (pixel565 im x y / 256).
Proof.
  intros Hw Hh Him w h. subst w h.
  exists (format_header (im_width im) (im_height im) ++ format_body im).
  split; [|split; [done|split; [done|split]]].
  - unfold lvgl_bytes, lvgl_encode.
    rewrite lvgl_header_ok, lvgl_body_ok by done. done.
  - rewrite length_app, Nat2Z.inj_add, format_body_length by lia. simpl. lia.
  - intros x y Hx Hy. split.
    + rewrite lookup_app_r by (simpl; lia).
      replace (Z.to_nat (12 + 2 * (y * im_width im + x)) - length (format_header (im_width im) (im_height im)))%nat
        with (Z.to_nat (2 * (y * im_width im + x)) + 0)%nat by (simpl; nia).
      rewrite format_body_lookup by lia. done.
    + rewrite lookup_app_r by (simpl; lia).
      replace (Z.to_nat (12 + 2 * (y * im_width im + x) + 1) - length (format_header (im_width im) (im_height im)))%nat
        with (Z.to_nat (2 * (y * im_width im + x)) + 1)%nat by (simpl; nia).
      rewrite format_body_lookup by lia. done.
Qed.

(** The red and blue 2x1 image of the scenario: 16 bytes, header
    [19 12 00 00 02 00 01 00 04 00 00 00], then 0xF800 and 0x001F. *)
Lemma lvgl_bytes_format_witness :
  exists bytes,
    lvgl_bytes red_blue = Ok bytes /\
    bytes = format_header 2 1 ++ format_body red_blue /\
    firstn 12 bytes = [0x19; 0x12; 0; 0; 2; 0; 1; 0; 4; 0; 0; 0] /\
    Z.of_nat (length bytes) = 16 /\
    forall x y, 0 <= x < 2 -> 0 <= y < 1 ->
      bytes !! Z.to_nat (12 + 2 * (y * 2 + x)) = Some (pixel565 red_blue x y mod 256) /\
      bytes !! Z.to_nat (12 + 2 * (y * 2 + x) + 1) = Some (pixel565 red_blue x y / 256).
Proof.
  apply (lvgl_bytes_format red_blue); simpl; try lia.
  intros x y. simpl. destruct (x =? 0); simpl; lia.
Defined.

(** C10 fails on the code for the stride of a width of 32768 to 65535: the
    value [w * 2] is out of range for the 16-bit pack. *)
Lemma pack_stride_out_of_range :
  0 <= 40000 < 2 ^ 16 /\ pack_H ((40000 * 16 + 7) / 8) = Raise StructError.
Proof. split; [lia|reflexivity]. Qed.

(** C10, amended: for channels in 0..255 the packed pixel lies in 0..65535
    and its 16-bit pack succeeds; the packs of the width and the height
    succeed below 2^16; the pack of the stride succeeds for a width below
    2^15, and for a wider image it raises. *)
Theorem packs_in_range r g b w h :
  0 <= r <= 255 -> 0 <= g <= 255 -> 0 <= b <= 255 ->
  0 <= w < 2 ^ 16 -> 0 <= h < 2 ^ 16 ->
  0 <= to_rgb565 r g b <= 65535 /\
  pack_H (to_rgb565 r g b) = Ok (le16 (to_rgb565 r g b)) /\
  pack_H w = Ok (le16 w) /\
  pack_H h = Ok (le16 h) /\
  (w < 2 ^ 15 -> pack_H ((w * 16 + 7) / 8) = Ok (le16 (w * 2))) /\
  (2 ^ 15 <= w -> pack_H ((w * 16 + 7) / 8) = Raise StructError).
Proof.
  intros Hr Hg Hb Hw Hh.
  pose proof (to_rgb565_range r g b Hr Hg Hb) as Hv.
  change (2 ^ 15) with 32768. change (2 ^ 16) with 65536 in Hw, Hh.
  rewrite stride_eq, !pack_H_ok by lia. repeat split; try lia.
  - intros Hw'. by rewrite pack_H_ok by lia.
  - intros Hw'. by rewrite pack_H_raise by lia.
Qed.

Lemma packs_in_range_witness :
  0 <= to_rgb565 255 0 0 <= 65535 /\
  pack_H (to_rgb565 255 0 0) = Ok (le16 (to_rgb565 255 0 0)) /\
  pack_H 40000 = Ok (le16 40000) /\
  pack_H 256 = Ok (le16 256) /\
  (40000 < 2 ^ 15 -> pack_H ((40000 * 16 + 7) / 8) = Ok (le16 (40000 * 2))) /\
  (2 ^ 15 <= 40000 -> pack_H ((40000 * 16 + 7) / 8) = Raise StructError).
Proof. apply (packs_in_range 255 0 0 40000 256); lia. Defined.

(** ** The name normalizer *)

Lemma rfind_from_spec s c i last :
  let r := rfind_from s c i last in
  r = last \/ (i <= r < i + Z.of_nat (length s) /\ s !! Z.to_nat (r - i) = Some c).
Proof.
  revert i last. induction s as [|a s IH]; intros i last; simpl; [by left|].
  destruct (IH (i + 1) (if decide (a = c) then i else last)) as [E|[Hr Hl]].
  - rewrite E. destruct (decide (a = c)) as [->|]; [right|by left].
    split; [lia|]. by rewrite Z.sub_diag.
  - right. split; [lia|].
    replace (Z.to_nat (rfind_from s c (i + 1) (if decide (a = c) then i else last) - i))
      with (S (Z.to_nat (rfind_from s c (i + 1) (if decide (a = c) then i else last) - (i + 1))))
      by lia.
    done.
Qed.

Lemma rfind_lookup s c :
  0 <= rfind s c -> s !! Z.to_nat (rfind s c) = Some c.
Proof.
  intros H. destruct (rfind_from_spec s c 0 (-1)) as [E|[_ Hl]].
  - unfold rfind in H. lia.
  - by rewrite Z.sub_0_r in Hl.
Qed.

Lemma splitext_scan_some p d idx r :
  splitext_scan p d idx = Some r ->
  idx <> [] /\ r = (firstn (Z.to_nat d) p, skipn (Z.to_nat d) p).
Proof.
  induction idx as [|i idx IH]; simpl; [done|].
  destruct (decide _); [|intros H; split; [done|by apply IH]].
  intros [= <-]. done.
Qed.

(** What [splitext] returns: either no extension, or the name cut at a dot
    that is not its first character. *)
Lemma splitext_cases p :
  splitext p = (p, []) \/
  exists stem e, splitext p = (stem, extsep :: e) /\ p = stem ++ extsep :: e /\ stem <> [].
Proof.
  unfold splitext.
  destruct (rfind p sep <? rfind p extsep) eqn:Hlt; [|by left].
  apply Z.ltb_lt in Hlt.
  destruct (splitext_scan _ _ _) as [r|] eqn:Hscan; [|by left].
  apply splitext_scan_some in Hscan as [Hidx ->]. right.
  assert (Hsep : -1 <= rfind p sep).
  { destruct (rfind_from_spec p sep 0 (-1)) as [E|[? _]]; unfold rfind; lia. }
  assert (Hd : 0 < rfind p extsep).
  { destruct (Z.lt_ge_cases 0 (rfind p extsep)) as [|Hle]; [done|].
    destruct Hidx. unfold range.
    replace (Z.to_nat (rfind p extsep - (rfind p sep + 1))) with 0%nat by lia. done. }
  pose proof (rfind_lookup p extsep ltac:(lia)) as Hl.
  exists (firstn (Z.to_nat (rfind p extsep)) p), (skipn (S (Z.to_nat (rfind p extsep))) p).
  rewrite <- (drop_S _ _ _ Hl). split; [done|]. split.
  - by rewrite firstn_skipn.
  - intros E. apply (f_equal length) in E. rewrite length_firstn in E.
    apply lookup_lt_Some in Hl. simpl in E. lia.
Qed.

Lemma lower_dotted e :
  lower (extsep :: e) ∈ stripped_extensions <-> lower e ∈ known_extensions.
Proof.
  unfold known_extensions, stripped_extensions. change (lower (extsep :: e)) with (extsep :: lower e).
  change (lit ".png") with (extsep :: lit "png").
  change (lit ".bin") with (extsep :: lit "bin").
  change (lit ".jpg") with (extsep :: lit "jpg").
  change (lit ".jpeg") with (extsep :: lit "jpeg").
  rewrite !elem_of_cons, !elem_of_nil. 
  split; intros [H|[H|[H|[H|[]]]]]; (try injection H as H); subst; rewrite ?H; tauto.
Qed.

Lemma no_extension_kept : bool_decide (lower [] ∉ stripped_extensions) = true.
Proof. reflexivity. Qed.

Lemma clean_loop_terminates fuel name :
  (length name < fuel)%nat -> is_Some (clean_loop fuel name name).
Proof.
  revert name. induction fuel as [|fuel IH]; intros name Hlen; [lia|].
  cbn [clean_loop].
  destruct (splitext_cases name) as [E|(stem & e & E & Hp & Hne)]; rewrite E.
  - by rewrite no_extension_kept.
  - case_bool_decide; [done|]. apply IH.
    apply (f_equal length) in Hp. rewrite length_app in Hp. simpl in Hp. lia.
Qed.

Lemma clean_tile_name_terminates s :
  clean_tile_name_run s = Some (clean_tile_name s).
Proof.
  unfold clean_tile_name.
  destruct (clean_loop_terminates (S (length s)) s ltac:(lia)) as [r Hr].
  unfold clean_tile_name_run in *. by rewrite Hr.
Qed.

Lemma clean_loop_normalizes fuel name r :
  clean_loop fuel name name = Some r -> normalizes_to name r.
Proof.
  revert name. induction fuel as [|fuel IH]; intros name; [done|].
  cbn [clean_loop].
  destruct (splitext_cases name) as [E|(stem & e & E & Hp & Hne)]; rewrite E.
  - rewrite no_extension_kept. intros [= <-].
    apply norm_no_extension. unfold last_extension. by rewrite E.
  - assert (Hlast : last_extension name = Some (stem, e))
      by (unfold last_extension; by rewrite E).
    case_bool_decide as Hk.
    + intros [= <-]. eapply norm_other_extension; [done|].
      by rewrite <- lower_dotted.
    + intros Hr. eapply norm_strip; [done| |by apply IH].
      by apply lower_dotted.
Qed.

Lemma normalizes_to_fun s r1 r2 :
  normalizes_to s r1 -> normalizes_to s r2 -> r1 = r2.
Proof.
  intros H1. revert r2.
  induction H1 as [s H|s stem e H Hk|s stem e r H Hk H1 IH]; intros r2 H2;
    inversion H2; subst; try done; try congruence.
  all: rewrite H in *; simplify_eq.
  by apply IH.
Qed.

(** The result of the normalizer has no known extension left. *)
Lemma clean_loop_fixed fuel name r :
  clean_loop fuel name name = Some r -> clean_tile_name_run r = Some r.
Proof.
  revert name. induction fuel as [|fuel IH]; intros name; [done|].
  cbn [clean_loop]. destruct (splitext name) as [stem e] eqn:E.
  case_bool_decide as Hk; [|by apply IH].
  intros [= <-]. unfold clean_tile_name_run. cbn [clean_loop]. rewrite E.
  by rewrite bool_decide_eq_true_2.
Qed.

(** C8: the normalizer returns, and what it returns is the name reached by
    stripping the last extension while it is one of png, bin, jpg and jpeg
    compared case-insensitively; it maps tile.png and tile.PNG.bin to tile
    and leaves tile.data as it is. *)
Theorem clean_tile_name_strips s :
  clean_tile_name_run s = Some (clean_tile_name s) /\
  (forall r, normalizes_to s r <-> r = clean_tile_name s) /\
  clean_tile_name (lit "tile.png") = lit "tile" /\
  clean_tile_name (lit "tile.PNG.bin") = lit "tile" /\
  clean_tile_name (lit "tile.data") = lit "tile.data".
Proof.
  pose proof (clean_tile_name_terminates s) as Hrun.
  split; [done|]. split; [|by vm_compute].
  assert (Hn : normalizes_to s (clean_tile_name s))
    by (eapply clean_loop_normalizes, Hrun).
  intros r. split; [|by intros ->].
  intros Hr. by apply (normalizes_to_fun s).
Qed.

(** C9: the normalizer is idempotent. *)
Theorem clean_tile_name_idempotent s :
  clean_tile_name_run s = Some (clean_tile_name s) /\
  clean_tile_name_run (clean_tile_name s) = Some (clean_tile_name s) /\
  clean_tile_name (clean_tile_name s) = clean_tile_name s.
Proof.
  pose proof (clean_tile_name_terminates s) as Hrun.
  pose proof (clean_loop_fixed _ _ _ Hrun) as Hfix.
  split; [done|]. split; [done|].
  unfold clean_tile_name at 1. by rewrite Hfix.
Qed.

(** ** Strings and paths *)

Lemma endswith_snoc s a c : endswith (s ++ [a]) [c] = bool_decide (a = c).
Proof.
  unfold endswith. rewrite length_app. cbn [length].
  assert (E : (1 <=? length s + 1)%nat = true) by (apply Nat.leb_le; lia).
  rewrite E. replace (length s + 1 - 1)%nat with (length s) by lia.
  rewrite skipn_app, Nat.sub_diag, skipn_all. cbn [app skipn andb].
  apply bool_decide_ext. split; [by intros [= ->]|by intros ->].
Qed.

Lemma endswith_nil c : endswith [] [c] = false.
Proof. done. Qed.

Lemma startswith_cons a s c : startswith (a :: s) [c] = bool_decide (a = c).
Proof.
  unfold startswith. simpl. rewrite take_0.
  apply bool_decide_ext. split; [by intros [= ->]|by intros ->].
Qed.

Lemma startswith_nil c : startswith [] [c] = false.
Proof. done. Qed.

Lemma startswith_no_sep s : sep ∉ s -> startswith s [sep] = false.
Proof.
  destruct s as [|a s]; [done|]. rewrite startswith_cons. intros H.
  apply bool_decide_eq_false_2. intros ->. apply H. by left.
Qed.

(** One step of [join] for a component that does not start with a
    separator. *)
Lemma join_step path b :
  startswith b [sep] = false ->
  join path [b] = with_sep path ++ b.
Proof.
  intros Hb. unfold join, with_sep. simpl. rewrite Hb.
  destruct (bool_decide (path = []) || endswith path [sep]); [done|].
  by rewrite <- app_assoc.
Qed.

Lemma join_cons a b p : join a (b :: p) = join (join a [b]) p.
Proof. done. Qed.

Lemma with_sep_name path n :
  n <> [] -> sep ∉ n -> with_sep (path ++ n) = path ++ n ++ [sep].
Proof.
  intros Hne Hsep. unfold with_sep.
  destruct n as [|a n _] using rev_ind; [done|].
  rewrite bool_decide_eq_false_2 by (by destruct path).
  rewrite app_assoc, endswith_snoc.
  rewrite bool_decide_eq_false_2; [simpl; by rewrite <- !app_assoc|].
  intros ->. apply Hsep. apply elem_of_app. right. by left.
Qed.

(** The path [join a [zoom; x; f]] spelled out. *)
Lemma join3 a zoom x f :
  zoom <> [] -> sep ∉ zoom -> x <> [] -> sep ∉ x -> startswith f [sep] = false ->
  join a [zoom; x; f] = with_sep a ++ zoom ++ [sep] ++ x ++ [sep] ++ f.
Proof.
  intros Hz1 Hz2 Hx1 Hx2 Hf.
  rewrite join_cons, (join_step a zoom) by by apply startswith_no_sep.
  rewrite join_cons, (join_step _ x) by by apply startswith_no_sep.
  rewrite (join_step _ f) by done.
  rewrite (with_sep_name _ zoom) by done.
  rewrite (app_assoc (with_sep a)), (with_sep_name _ x) by done.
  by rewrite <- !app_assoc.
Qed.

(** A name without separator is determined by what follows up to the first
    separator. *)
Lemma cut_at_sep (n1 n2 r1 r2 : str) :
  sep ∉ n1 -> sep ∉ n2 -> n1 ++ sep :: r1 = n2 ++ sep :: r2 -> n1 = n2 /\ r1 = r2.
Proof.
  revert n2. induction n1 as [|a n1 IH]; intros [|b n2] H1 H2 E; simpl in E.
  - by injection E.
  - injection E as <- _. destruct H2. by left.
  - injection E as -> _. destruct H1. by left.
  - injection E as <- E. apply IH in E as [-> ->]; [done| |].
    + intros H. apply H1. by right.
    + intros H. apply H2. by right.
Qed.

Lemma join3_inj a z1 x1 f1 z2 x2 f2 :
  z1 <> [] -> sep ∉ z1 -> x1 <> [] -> sep ∉ x1 -> startswith f1 [sep] = false ->
  z2 <> [] -> sep ∉ z2 -> x2 <> [] -> sep ∉ x2 -> startswith f2 [sep] = false ->
  join a [z1; x1; f1] = join a [z2; x2; f2] ->
  z1 = z2 /\ x1 = x2 /\ f1 = f2.
Proof.
  intros ? ? ? ? ? ? ? ? ? ? E. rewrite !join3 in E by done.
  apply app_inv_head in E. simpl in E.
  apply cut_at_sep in E as [-> E]; [|done..].
  apply cut_at_sep in E as [-> E]; [|done..]. done.
Qed.

Lemma isdigit_char_not_sep c : isdigit_char c = true -> c <> sep.
Proof. by intros H ->. Qed.

Lemma isdigit_name s : isdigit s = true -> s <> [] /\ sep ∉ s.
Proof.
  intros H. split; [by intros ->|].
  assert (Hall : forallb isdigit_char s = true) by (by destruct s).
  rewrite forallb_forall in Hall. intros Hin.
  apply list_elem_of_In, Hall in Hin. by apply isdigit_char_not_sep in Hin.
Qed.

Lemma proper_name_spec n :
  proper_name n = true -> n <> [] /\ n <> lit "." /\ n <> lit ".." /\ sep ∉ n.
Proof. unfold proper_name. intros H. by apply bool_decide_eq_true in H. Qed.

(** ** Tile discovery *)

Lemma result_bind_ok {A B} (a : A) (k : A -> result B) : (Ok a ≫= k) = k a.
Proof. done. Qed.

Lemma sorted_elem n names : n ∈ sorted names <-> n ∈ names.
Proof. unfold sorted. by rewrite merge_sort_Permutation. Qed.

Lemma sorted_elem_1 n names : n ∈ sorted names -> n ∈ names.
Proof. apply sorted_elem. Qed.

Lemma isdir_listdir m p : isdir m p = true -> exists names, listdir m p = Ok names.
Proof.
  unfold isdir, listdir. destruct (locate m p) as [l|]; [|done].
  destruct (node_at m l) as [[]|]; [done| |done]. eauto.
Qed.

Lemma iter_y_files_elem I O zoom x_tile y_files s d :
  (s, d) ∈ iter_y_files I O zoom x_tile y_files <->
  exists f, f ∈ y_files /\ endswith (lower f) (lit ".png") = true /\
    s = join I [zoom; x_tile; f] /\
    d = join O [zoom; x_tile; clean_tile_name f ++ lit ".bin"].
Proof.
  induction y_files as [|y rest IH]; cbn [iter_y_files].
  - split; [by intros ?%elem_of_nil|]. by intros (f & ?%elem_of_nil & _).
  - destruct (endswith (lower y) (lit ".png")) eqn:E; cbn [negb].
    + rewrite elem_of_cons, IH. split.
      * intros [[= -> ->]|(f & Hf & ?)]; [exists y|exists f]; rewrite elem_of_cons; tauto.
      * intros (f & [->|Hf]%elem_of_cons & He & -> & ->); [by left|right].
        by exists f.
    + rewrite IH. split.
      * intros (f & Hf & ?). exists f. rewrite elem_of_cons. tauto.
      * intros (f & [->|Hf]%elem_of_cons & He & -> & ->); [congruence|].
        by exists f.
Qed.

Section Discovery.

Variable refused : call -> option exn.

Lemma os_listdir_ok m p names :
  os_listdir refused m p = Ok names -> listdir m p = Ok names.
Proof. unfold os_listdir. by destruct (refused _). Qed.

Lemma os_listdir_willing m p :
  (forall q, refused (CallListdir q) = None) -> os_listdir refused m p = listdir m p.
Proof. intros H. unfold os_listdir. by rewrite H. Qed.

(** Every pair the loop over [x_tile] yields, also before a listing raises,
    is the pair of a file of a directory it went through. *)
Lemma iter_x_tiles_elem m I O zoom zoom_path x_tiles s d :
  (s, d) ∈ (iter_x_tiles refused m I O zoom zoom_path x_tiles).1 ->
  exists x f, x ∈ x_tiles /\ isdir m (join zoom_path [x]) = true /\
    isdigit x = true /\ listed m (join zoom_path [x]) f /\
    endswith (lower f) (lit ".png") = true /\
    s = join I [zoom; x; f] /\
    d = join O [zoom; x; clean_tile_name f ++ lit ".bin"].
Proof.
  induction x_tiles as [|x rest IH]; cbn [iter_x_tiles]; [by intros ?%elem_of_nil|].
  assert (Hrest : (s, d) ∈ (iter_x_tiles refused m I O zoom zoom_path rest).1 ->
    exists x' f, x' ∈ x :: rest /\ isdir m (join zoom_path [x']) = true /\
      isdigit x' = true /\ listed m (join zoom_path [x']) f /\
      endswith (lower f) (lit ".png") = true /\
      s = join I [zoom; x'; f] /\
      d = join O [zoom; x'; clean_tile_name f ++ lit ".bin"]).
  { intros (x' & f & Hx & ?)%IH. exists x', f. split; [by right|done]. }
  destruct (isdir m (join zoom_path [x])) eqn:Hdir; cbn [negb orb]; [|done].
  destruct (isdigit x) eqn:Hdig; cbn [negb]; [|done].
  destruct (os_listdir refused m _) as [ys|e] eqn:Hys; [|by intros ?%elem_of_nil].
  apply os_listdir_ok in Hys. cbn [fst]. intros [H|H]%elem_of_app; [|by apply Hrest].
  apply iter_y_files_elem in H as (f & Hf%sorted_elem_1 & He & -> & ->).
  exists x, f. split; [by left|]. repeat split; try done. by exists ys.
Qed.

(** When no listing is refused the loop over [x_tile] ends normally and
    yields the pair of every file it is to go through. *)
Lemma iter_x_tiles_all m I O zoom zoom_path x_tiles :
  (forall p, refused (CallListdir p) = None) ->
  (iter_x_tiles refused m I O zoom zoom_path x_tiles).2 = None /\
  forall x f, x ∈ x_tiles -> isdir m (join zoom_path [x]) = true ->
    isdigit x = true -> listed m (join zoom_path [x]) f ->
    endswith (lower f) (lit ".png") = true ->
    (join I [zoom; x; f], join O [zoom; x; clean_tile_name f ++ lit ".bin"])
      ∈ (iter_x_tiles refused m I O zoom zoom_path x_tiles).1.
Proof.
  intros Hwilling.
  induction x_tiles as [|x rest [IHend IH]]; cbn [iter_x_tiles].
  { split; [done|]. by intros x f ?%elem_of_nil. }
  destruct (isdir m (join zoom_path [x])) eqn:Hdir; cbn [negb orb].
  2:{ split; [done|]. intros x' f [->|Hx]%elem_of_cons Hd; [congruence|]. by apply IH. }
  destruct (isdigit x) eqn:Hdig; cbn [negb].
  2:{ split; [done|]. intros x' f [->|Hx]%elem_of_cons Hd Hg; [congruence|]. by apply IH. }
  destruct (isdir_listdir _ _ Hdir) as [ys Hys].
  rewrite os_listdir_willing, Hys by done. cbn [fst snd]. split; [done|].
  intros x' f [->|Hx]%elem_of_cons Hd Hg (ys' & Hys' & Hf) He; apply elem_of_app.
  - left. apply iter_y_files_elem. exists f. rewrite sorted_elem.
    rewrite Hys in Hys'. by simplify_eq.
  - right. apply IH; try done. by exists ys'.
Qed.

Lemma iter_zooms_elem m I O zooms s d :
  (s, d) ∈ (iter_zooms refused m I O zooms).1 ->
  exists zoom x f, zoom ∈ zooms /\ isdir m (join I [zoom]) = true /\
    isdigit zoom = true /\ listed m (join I [zoom]) x /\
    isdir m (join (join I [zoom]) [x]) = true /\
    isdigit x = true /\ listed m (join (join I [zoom]) [x]) f /\
    endswith (lower f) (lit ".png") = true /\
    s = join I [zoom; x; f] /\
    d = join O [zoom; x; clean_tile_name f ++ lit ".bin"].
Proof.
  induction zooms as [|z rest IH]; cbn [iter_zooms]; [by intros ?%elem_of_nil|].
  assert (Hrest : (s, d) ∈ (iter_zooms refused m I O rest).1 ->
    exists zoom x f, zoom ∈ z :: rest /\ isdir m (join I [zoom]) = true /\
      isdigit zoom = true /\ listed m (join I [zoom]) x /\
      isdir m (join (join I [zoom]) [x]) = true /\
      isdigit x = true /\ listed m (join (join I [zoom]) [x]) f /\
      endswith (lower f) (lit ".png") = true /\
      s = join I [zoom; x; f] /\
      d = join O [zoom; x; clean_tile_name f ++ lit ".bin"]).
  { intros (z' & x & f & Hz & ?)%IH. exists z', x, f. split; [by right|done]. }
  destruct (isdir m (join I [z])) eqn:Hdir; cbn [negb orb]; [|done].
  destruct (isdigit z) eqn:Hdig; cbn [negb]; [|done].
  destruct (os_listdir refused m _) as [xs|e] eqn:Hxs; [|by intros ?%elem_of_nil].
  apply os_listdir_ok in Hxs.
  assert (Hhere : (s, d) ∈ (iter_x_tiles refused m I O z (join I [z]) (sorted xs)).1 ->
    exists zoom x f, zoom ∈ z :: rest /\ isdir m (join I [zoom]) = true /\
      isdigit zoom = true /\ listed m (join I [zoom]) x /\
      isdir m (join (join I [zoom]) [x]) = true /\
      isdigit x = true /\ listed m (join (join I [zoom]) [x]) f /\
      endswith (lower f) (lit ".png") = true /\
      s = join I [zoom; x; f] /\
      d = join O [zoom; x; clean_tile_name f ++ lit ".bin"]).
  { intros (x & f & Hx%sorted_elem_1 & ? & ? & ? & ? & ? & ?)%iter_x_tiles_elem.
    exists z, x, f. split; [by left|]. repeat split; try done. by exists xs. }
  destruct (iter_x_tiles refused m I O z (join I [z]) (sorted xs)) as [here [e|]];
    cbn [fst snd] in *; [done|].
  intros [H|H]%elem_of_app; [by apply Hhere|by apply Hrest].
Qed.

Lemma iter_zooms_all m I O zooms :
  (forall p, refused (CallListdir p) = None) ->
  (iter_zooms refused m I O zooms).2 = None /\
  forall zoom x f, zoom ∈ zooms -> isdir m (join I [zoom]) = true ->
    isdigit zoom = true -> listed m (join I [zoom]) x ->
    isdir m (join (join I [zoom]) [x]) = true ->
    isdigit x = true -> listed m (join (join I [zoom]) [x]) f ->
    endswith (lower f) (lit ".png") = true ->
    (join I [zoom; x; f], join O [zoom; x; clean_tile_name f ++ lit ".bin"])
      ∈ (iter_zooms refused m I O zooms).1.
Proof.
  intros Hwilling.
  induction zooms as [|z rest [IHend IH]]; cbn [iter_zooms].
  { split; [done|]. by intros z x f ?%elem_of_nil. }
  destruct (isdir m (join I [z])) eqn:Hdir; cbn [negb orb].
  2:{ split; [done|]. intros z' x f [->|Hz]%elem_of_cons Hd; [congruence|]. by apply IH. }
  destruct (isdigit z) eqn:Hdig; cbn [negb].
  2:{ split; [done|]. intros z' x f [->|Hz]%elem_of_cons Hd Hg; [congruence|]. by apply IH. }
  destruct (isdir_listdir _ _ Hdir) as [xs Hxs].
  rewrite os_listdir_willing, Hxs by done.
  destruct (iter_x_tiles_all m I O z (join I [z]) (sorted xs) Hwilling) as [Hend Hhere].
  destruct (iter_x_tiles refused m I O z (join I [z]) (sorted xs)) as [here ending];
    cbn [fst snd] in *. subst ending. cbn [fst snd]. split; [done|].
  intros z' x f [->|Hz]%elem_of_cons Hd Hg (xs' & Hxs' & Hx) Hxd Hxg Hf He;
    apply elem_of_app.
  - left. apply Hhere; try done. rewrite sorted_elem. rewrite Hxs in Hxs'. by simplify_eq.
  - right. apply IH; try done. by exists xs'.
Qed.

(** Every pair discovery yields, also before a listing raises, is the pair
    of a tile of the tree. *)
Lemma iter_tile_paths_elem m I O s d :
  (s, d) ∈ (_iter_tile_paths refused I O m).1 ->
  exists zoom x f, tile_at m I zoom x f /\
    s = join I [zoom; x; f] /\
    d = join O [zoom; x; clean_tile_name f ++ lit ".bin"].
Proof.
  unfold _iter_tile_paths.
  destruct (os_listdir refused m I) as [zs|e] eqn:Hzs; [|by intros ?%elem_of_nil].
  apply os_listdir_ok in Hzs.
  intros (z & x & f & Hz%sorted_elem_1 & ? & ? & ? & ? & ? & ? & ? & ? & ?)%iter_zooms_elem.
  exists z, x, f. split; [|done]. split; try done. by exists zs.
Qed.

(** When no listing is refused, discovery under a root that is a directory
    ends normally and yields the pair of every tile. *)
Lemma iter_tile_paths_all m I O :
  isdir m I = true -> (forall p, refused (CallListdir p) = None) ->
  (_iter_tile_paths refused I O m).2 = None /\
  forall zoom x f, tile_at m I zoom x f ->
    (join I [zoom; x; f], join O [zoom; x; clean_tile_name f ++ lit ".bin"])
      ∈ (_iter_tile_paths refused I O m).1.
Proof.
  intros Hroot Hwilling. unfold _iter_tile_paths.
  destruct (isdir_listdir _ _ Hroot) as [zs Hzs].
  rewrite os_listdir_willing, Hzs by done.
  destruct (iter_zooms_all m I O (sorted zs) Hwilling) as [Hend Hall].
  split; [done|]. intros z x f [(zs' & Hzs' & Hz) ? ? ? ? ? ? ?].
  apply Hall; try done. rewrite sorted_elem. rewrite Hzs in Hzs'. by simplify_eq.
Qed.

End Discovery.

Lemma child_of_some l k n : child_of l k = Some n <-> k = l ++ [n].
Proof.
  split.
  - destruct k as [|a k]; [done|]. remember (a :: k) as kk eqn:Ek.
    unfold child_of. rewrite Ek at 1. case_bool_decide as Hl; [|done].
    intros [k0 Hk0]%last_Some. rewrite Hk0, removelast_last in Hl. by subst k0.
  - intros ->. unfold child_of. destruct (l ++ [n]) eqn:E; [by destruct l|].
    rewrite <- E, removelast_last, bool_decide_eq_true_2 by done. apply last_snoc.
Qed.

Lemma children_elem m l n : n ∈ children m l <-> is_Some (m !! (l ++ [n])).
Proof.
  unfold children. rewrite list_elem_of_omap. split.
  - intros (k & Hk & ->%child_of_some).
    apply list_elem_of_fmap in Hk as ([k' v] & E & Hkv). simpl in E. subst k'.
    apply elem_of_map_to_list in Hkv. eauto.
  - intros [v Hv]. exists (l ++ [n]). split; [|by apply child_of_some].
    apply list_elem_of_fmap. exists (l ++ [n], v). split; [done|].
    by apply elem_of_map_to_list.
Qed.

Lemma proper_names_lookup m k v n :
  proper_names m = true -> m !! k = Some v -> n ∈ k -> proper_name n = true.
Proof.
  unfold proper_names. rewrite forallb_forall. intros Hall Hk Hn.
  specialize (Hall k). rewrite forallb_forall in Hall.
  apply Hall; [|by apply list_elem_of_In].
  apply list_elem_of_In, list_elem_of_fmap. exists (k, v). split; [done|].
  by apply elem_of_map_to_list.
Qed.

Lemma listed_proper m dir n :
  proper_names m = true -> listed m dir n -> proper_name n = true.
Proof.
  intros Hwf (names & Hls & Hn). unfold listdir in Hls.
  destruct (locate m dir) as [l|]; [|done].
  destruct (node_at m l) as [[]|]; [done| |done]. injection Hls as <-.
  apply children_elem in Hn as [v Hv].
  eapply proper_names_lookup; [done..|]. apply elem_of_app. right. by left.
Qed.

Lemma clean_loop_prefix fuel name r :
  clean_loop fuel name name = Some r -> exists t, name = r ++ t.
Proof.
  revert name. induction fuel as [|fuel IH]; intros name; [done|].
  cbn [clean_loop].
  destruct (splitext_cases name) as [E|(stem & e & E & Hp & Hne)]; rewrite E.
  - rewrite no_extension_kept. intros [= <-]. exists []. by rewrite app_nil_r.
  - case_bool_decide.
    + intros [= <-]. exists []. by rewrite app_nil_r.
    + intros [t Ht]%IH. exists (t ++ extsep :: e). by rewrite app_assoc, <- Ht.
Qed.

Lemma clean_tile_name_prefix f : exists t, f = clean_tile_name f ++ t.
Proof. eapply clean_loop_prefix, clean_tile_name_terminates. Qed.

(** The output name of a tile does not start with a separator. *)
Lemma bin_name_start f :
  sep ∉ f -> startswith (clean_tile_name f ++ lit ".bin") [sep] = false.
Proof.
  intros Hsep. destruct (clean_tile_name_prefix f) as [t Ht].
  destruct (clean_tile_name f) as [|a base]; [done|].
  cbn [app]. rewrite startswith_cons. apply bool_decide_eq_false_2.
  intros ->. apply Hsep. rewrite Ht. by left.
Qed.

Lemma tile_at_names m I zoom x f :
  proper_names m = true -> tile_at m I zoom x f ->
  (zoom <> [] /\ sep ∉ zoom) /\ (x <> [] /\ sep ∉ x) /\ sep ∉ f.
Proof.
  intros Hwf [? ? Hz ? ? Hx Hf ?].
  split; [by apply isdigit_name|]. split; [by apply isdigit_name|].
  by apply (listed_proper _ _ _ Hwf), proper_name_spec in Hf as (_ & _ & _ & ?).
Qed.

(** A non-empty name of decimal digits is one [isdigit] accepts. *)
Lemma all_decimal_isdigit name :
  name <> [] -> all_decimal name = true -> isdigit name = true.
Proof.
  intros Hne Hdec.
  assert (Hall : forallb isdigit_char name = true).
  { unfold all_decimal in Hdec. rewrite forallb_forall in *.
    intros a Ha. apply Hdec in Ha.
    unfold decimal_char in Ha. unfold isdigit_char. cbv zeta. by rewrite Ha. }
  by destruct name.
Qed.

(** C7 fails on the code for a directory named with the superscript digit
    U+00B2: [isdigit] accepts the name, which is not made of decimal digits,
    and its tile is yielded. *)
Lemma superscript_zoom_is_discovered :
  proper_names superscript_tree = true /\
  isdigit superscript_two = true /\
  all_decimal superscript_two = false /\
  _iter_tile_paths willing (lit "in") (lit "out") superscript_tree =
    ([(join (lit "in") [superscript_two; lit "1"; lit "2.png"],
       join (lit "out") [superscript_two; lit "1"; lit "2.bin"])], None) /\
  ~ exists zoom x file,
      proper_name zoom = true /\ proper_name x = true /\ proper_name file = true /\
      all_decimal zoom = true /\
      join (lit "in") [superscript_two; lit "1"; lit "2.png"] =
        join (lit "in") [zoom; x; file].
Proof.
  split; [by vm_compute|]. split; [by vm_compute|]. split; [by vm_compute|].
  split; [by vm_compute|].
  intros (zoom & x & file & Hz & Hx & Hf & Hdec & E).
  apply proper_name_spec in Hz as (? & _ & _ & ?).
  apply proper_name_spec in Hx as (? & _ & _ & ?).
  apply proper_name_spec in Hf as (? & _ & _ & ?).
  apply join3_inj in E as (<- & _); try done; try (by apply startswith_no_sep);
    compute_done.
Qed.

(** C7, amended: every pair that discovery yields, also before a listing
    raises, is [(inputRoot/zoom/x/file, outputRoot/zoom/x/normalized(file).bin)]
    where [zoom] is an entry of the root and [x] an entry of [zoom], both
    directories with a non-empty name whose characters [str.isdigit]
    accepts, and [file] is an entry of [x] whose name ends in .png whatever
    the case; a non-empty name of decimal digits is one [isdigit] accepts;
    in a tree of proper names no tile under a zoom or x entry that
    [isdigit] rejects is yielded. *)
Theorem iter_tile_paths_tiles refused m I O :
  let found := _iter_tile_paths refused I O m in
  (forall s d, (s, d) ∈ found.1 ->
     exists zoom x f, tile_at m I zoom x f /\
       s = join I [zoom; x; f] /\
       d = join O [zoom; x; clean_tile_name f ++ lit ".bin"]) /\
  (forall name, name <> [] -> all_decimal name = true -> isdigit name = true) /\
  (proper_names m = true ->
   forall zoom x f d,
     proper_name zoom = true -> proper_name x = true -> proper_name f = true ->
     isdigit zoom = false \/ isdigit x = false ->
     (join I [zoom; x; f], d) ∉ found.1).
Proof.
  intros found. subst found.
  split; [apply iter_tile_paths_elem|]. split; [apply all_decimal_isdigit|].
  intros Hwf zoom x f d Hz Hx Hf Hrej (zoom' & x' & f' & Htile & E & _)%iter_tile_paths_elem.
  destruct (tile_at_names _ _ _ _ _ Hwf Htile) as ((? & ?) & (? & ?) & ?).
  apply proper_name_spec in Hz as (? & _ & _ & ?).
  apply proper_name_spec in Hx as (? & _ & _ & ?).
  apply proper_name_spec in Hf as (? & _ & _ & ?).
  apply join3_inj in E as (-> & -> & _); try done; try by apply startswith_no_sep.
  destruct Htile as [_ _ Hz' _ _ Hx' _ _]. destruct Hrej; congruence.
Qed.

Lemma iter_tile_paths_tiles_witness :
  let found := _iter_tile_paths willing (lit "in") (lit "out") sample_tree in
  (forall s d, (s, d) ∈ found.1 ->
     exists zoom x f, tile_at sample_tree (lit "in") zoom x f /\
       s = join (lit "in") [zoom; x; f] /\
       d = join (lit "out") [zoom; x; clean_tile_name f ++ lit ".bin"]) /\
  (forall name, name <> [] -> all_decimal name = true -> isdigit name = true) /\
  (proper_names sample_tree = true ->
   forall zoom x f d,
     proper_name zoom = true -> proper_name x = true -> proper_name f = true ->
     isdigit zoom = false \/ isdigit x = false ->
     (join (lit "in") [zoom; x; f], d) ∉ found.1).
Proof. apply (iter_tile_paths_tiles willing sample_tree (lit "in") (lit "out")). Defined.

(** C4 fails on the code for two tiles of one directory whose names
    normalize to the same name: 2.png and 2.bin.png both go to 2.bin, and
    the batch runs both tasks on that one file. *)
Lemma twin_tiles_share_destination :
  proper_names twin_tree = true /\
  _iter_tile_paths willing (lit "in") (lit "out") twin_tree =
    ([(lit "in/0/1/2.bin.png", lit "out/0/1/2.bin");
      (lit "in/0/1/2.png", lit "out/0/1/2.bin")], None) /\
  lit "in/0/1/2.bin.png" <> lit "in/0/1/2.png" /\
  ~ NoDup (map snd [(lit "in/0/1/2.bin.png", lit "out/0/1/2.bin");
                    (lit "in/0/1/2.png", lit "out/0/1/2.bin")]) /\
  stdout (snd (convert_all_tiles willing toy_decode (lit "in") (lit "out") 1 false
                 twin_world))
    = [MsgConverting 2 1;
       MsgOK (lit "in/0/1/2.bin.png") (lit "out/0/1/2.bin");
       MsgOK (lit "in/0/1/2.png") (lit "out/0/1/2.bin")].
Proof.
  split; [by vm_compute|]. split; [by vm_compute|]. split; [done|].
  split; [|by vm_compute].
  intros H. apply NoDup_cons in H as [H _]. apply H. simpl. by left.
Qed.

(** C4, amended: in a tree of proper names, two pairs that discovery yields
    have the same destPath exactly when their sources are files of one
    zoom/x directory whose names normalize to the same name; pairs from
    different directories, or with different normalized names, have
    different destPaths.  This holds of the pairs yielded before a listing
    raises as well; under a root that is a directory discovery ends
    normally when no listing is refused. *)
Theorem destinations_shared_by_normal_name refused m I O :
  isdir m I = true -> proper_names m = true ->
  let found := _iter_tile_paths refused I O m in
  ((forall p, refused (CallListdir p) = None) -> found.2 = None) /\
  forall s1 d1 s2 d2, (s1, d1) ∈ found.1 -> (s2, d2) ∈ found.1 ->
    (d1 = d2 <->
     exists zoom x f1 f2,
       tile_at m I zoom x f1 /\ tile_at m I zoom x f2 /\
       s1 = join I [zoom; x; f1] /\ s2 = join I [zoom; x; f2] /\
       clean_tile_name f1 = clean_tile_name f2).
Proof.
  intros Hroot Hwf found. subst found.
  split; [intros Hwilling; by apply iter_tile_paths_all|].
  intros s1 d1 s2 d2 (z1 & x1 & f1 & T1 & -> & ->)%iter_tile_paths_elem
    (z2 & x2 & f2 & T2 & -> & ->)%iter_tile_paths_elem.
  destruct (tile_at_names _ _ _ _ _ Hwf T1) as ((? & ?) & (? & ?) & ?).
  destruct (tile_at_names _ _ _ _ _ Hwf T2) as ((? & ?) & (? & ?) & ?).
  split.
  - intros E. apply join3_inj in E as (-> & -> & E); try done; try by apply bin_name_start.
    apply app_inv_tail in E. by exists z2, x2, f1, f2.
  - intros (z & x & g1 & g2 & G1 & G2 & E1 & E2 & Eg).
    destruct (tile_at_names _ _ _ _ _ Hwf G1) as ((? & ?) & (? & ?) & ?).
    destruct (tile_at_names _ _ _ _ _ Hwf G2) as ((? & ?) & (? & ?) & ?).
    apply join3_inj in E1 as (-> & -> & ->); try done; try by apply startswith_no_sep.
    apply join3_inj in E2 as (-> & -> & ->); try done; try by apply startswith_no_sep.
    by rewrite Eg.
Qed.

Lemma destinations_shared_by_normal_name_witness :
  (isdir twin_tree (lit "in") = true /\ proper_names twin_tree = true) /\
  let found := _iter_tile_paths willing (lit "in") (lit "out") twin_tree in
  ((forall p, willing (CallListdir p) = None) -> found.2 = None) /\
  forall s1 d1 s2 d2, (s1, d1) ∈ found.1 -> (s2, d2) ∈ found.1 ->
    (d1 = d2 <->
     exists zoom x f1 f2,
       tile_at twin_tree (lit "in") zoom x f1 /\ tile_at twin_tree (lit "in") zoom x f2 /\
       s1 = join (lit "in") [zoom; x; f1] /\ s2 = join (lit "in") [zoom; x; f2] /\
       clean_tile_name f1 = clean_tile_name f2).
Proof.
  split; [split; reflexivity|].
  apply (destinations_shared_by_normal_name willing twin_tree (lit "in") (lit "out"));
    reflexivity.
Defined.

(** ** The conversion of one tile *)

Section ConverterProperties.

Variable refused : call -> option exn.

Lemma io_bind_unfold {A B} (c : io A) (k : A -> io B) w :
  (c ≫= k) w =
    match c w with
    | (Ok a, w') => k a w'
    | (Raise e, w') => (Raise e, w')
    end.
Proof. done. Qed.

Lemma node_at_insert m l v x : x <> l -> node_at (<[l := v]> m) x = node_at m x.
Proof. intros H. destruct x; [done|]. simpl. by rewrite lookup_insert_ne. Qed.

Lemma node_at_delete m l x : x <> l -> node_at (delete l m) x = node_at m x.
Proof. intros H. destruct x; [done|]. simpl. by rewrite lookup_delete_ne. Qed.

Lemma node_at_insert_eq m l v : l <> [] -> node_at (<[l := v]> m) l = Some v.
Proof. intros H. destruct l; [done|]. simpl. by rewrite lookup_insert_eq. Qed.

(** Resolution looks at directories only: it is the same in two file
    systems with the same directories. *)
Lemma walk_same_dirs m m' cur names :
  (forall x, node_at m' x = Some Dir <-> node_at m x = Some Dir) ->
  walk m' cur names = walk m cur names.
Proof.
  intros Hdirs. revert cur. induction names as [|n names IH]; intros cur; [done|].
  cbn [walk]. rewrite !IH. pose proof (Hdirs cur) as H.
  destruct (node_at m' cur) as [[]|], (node_at m cur) as [[]|];
    try done; exfalso; intuition congruence.
Qed.

Lemma walk_insert_file m l data cur names :
  node_at m l <> Some Dir ->
  walk (<[l := File data]> m) cur names = walk m cur names.
Proof.
  intros Hl. apply walk_same_dirs. intros x.
  destruct (decide (x = l)) as [->|Hx]; [|by rewrite node_at_insert].
  destruct l; [done|]. simpl. rewrite lookup_insert_eq. split; [done|].
  intros H. by destruct Hl.
Qed.

Lemma locate_insert_file m l data p :
  node_at m l <> Some Dir -> locate (<[l := File data]> m) p = locate m p.
Proof. intros Hl. destruct p; [done|]. by apply walk_insert_file. Qed.

Lemma print_ok msg w :
  refused (CallPrint msg) = None -> print refused msg w = (Ok (), printed msg w).
Proof. intros H. unfold print. by rewrite H. Qed.


(** What [open] has done when it returns, and when it raises. *)
Lemma open_wb_spec p w r w1 :
  open_wb refused p w = (r, w1) ->
  match r with
  | Ok f => refused (CallOpen p) = None /\
            locate (fs w) p = Some f /\ node_at (fs w) f <> Some Dir /\
            fs w1 = <[f := File []]> (fs w) /\ stdout w1 = stdout w /\
            (free w <= free w1)%nat
  | Raise _ => w1 = w
  end.
Proof.
  unfold open_wb. destruct (refused (CallOpen p)); [by intros [= <- <-]|].
  destruct (locate (fs w) p) as [l|]; [|by intros [= <- <-]].
  destruct (node_at (fs w) l) as [[old|]|] eqn:El; intros [= <- <-]; try done;
    cbn [fs free stdout set_fs]; rewrite El; repeat split; (done || lia).
Qed.

(** What the write phase leaves when it returns: the whole file. *)
Lemma write_bin_content bin header body w w' :
  write_bin refused bin header body w = (Ok (), w') ->
  read_file (fs w') bin = Some (header ++ body) /\ stdout w' = stdout w.
Proof.
  unfold write_bin. rewrite io_bind_unfold.
  destruct (open_wb refused bin w) as [[f|e] w1] eqn:Hopen; [|done].
  destruct (open_wb_spec _ _ _ _ Hopen) as (_ & Hloc & Hnd & Hfs1 & Hout1 & _).
  assert (Hne : f <> []) by (by intros ->).
  rewrite io_bind_unfold. unfold f_write.
  destruct (refused (CallWrite bin)); [done|]. rewrite Hfs1, lookup_insert_eq.
  destruct (length header <=? free w1)%nat; [|done].
  cbn [fs free stdout]. rewrite lookup_insert_eq.
  destruct (length body <=? _)%nat; [|done]. intros [= <-]. cbn [fs stdout].
  split; [|done]. unfold read_file.
  rewrite !locate_insert_file, Hloc; [|done|..].
  - by rewrite node_at_insert_eq.
  - by rewrite node_at_insert_eq.
  - by rewrite node_at_insert_eq.
Qed.

Lemma read_file_not_dir m p data : read_file m p = Some data -> isdir m p = false.
Proof.
  unfold read_file, isdir. destruct (locate m p) as [l|]; [|done].
  by destruct (node_at m l) as [[]|].
Qed.

(** The write phase returns when the path leads to something that is not a
    directory, the disk has room, and neither the opening nor the writing is
    refused; it makes no directory and removes none. *)
Lemma write_bin_returns bin header body w l :
  refused (CallOpen bin) = None -> refused (CallWrite bin) = None ->
  locate (fs w) bin = Some l -> node_at (fs w) l <> Some Dir ->
  (length header + length body <= free w)%nat ->
  exists w', write_bin refused bin header body w = (Ok (), w') /\
    fs w' = <[l := File (header ++ body)]> (fs w).
Proof.
  intros Hopen Hwrite Hloc Hnode Hroom. unfold write_bin.
  rewrite io_bind_unfold. unfold open_wb. rewrite Hopen, Hloc.
  destruct (node_at (fs w) l) as [[old|]|] eqn:El; [|done|].
  - rewrite io_bind_unfold. unfold f_write. rewrite Hwrite. cbn [fs free stdout].
    rewrite lookup_insert_eq.
    replace (length header <=? free w + length old)%nat with true
      by (symmetry; apply Nat.leb_le; lia).
    cbn [fs free stdout]. rewrite lookup_insert_eq.
    replace (length body <=? free w + length old - length header)%nat with true
      by (symmetry; apply Nat.leb_le; lia).
    eexists. split; [done|]. cbn [fs]. by rewrite !insert_insert_eq.
  - rewrite io_bind_unfold. unfold f_write. rewrite Hwrite. cbn [fs free stdout set_fs].
    rewrite lookup_insert_eq.
    replace (length header <=? free w)%nat with true by (symmetry; apply Nat.leb_le; lia).
    cbn [fs free stdout]. rewrite lookup_insert_eq.
    replace (length body <=? free w - length header)%nat with true
      by (symmetry; apply Nat.leb_le; lia).
    eexists. split; [done|]. cbn [fs]. by rewrite !insert_insert_eq.
Qed.

(** [os.makedirs] of an existing directory changes nothing. *)
Lemma makedirs_walk_existing m cur names p l :
  walk m cur names = Some l -> node_at m l = Some Dir ->
  makedirs_walk refused m cur names p = (Ok (), m).
Proof.
  revert cur. induction names as [|n names IH]; intros cur Hwalk Hl; [done|].
  cbn [walk makedirs_walk] in *.
  destruct (node_at m cur) as [[|]|] eqn:Hcur; try done.
  case_bool_decide; [by apply IH|]. case_bool_decide; [by apply IH|].
  assert (Hn : node_at m (cur ++ [n]) = Some Dir).
  { destruct names as [|n' names]; [by injection Hwalk as <-|].
    cbn [walk] in Hwalk. by destruct (node_at m (cur ++ [n])) as [[|]|]. }
  rewrite Hn. by apply IH.
Qed.

Lemma makedirs_existing m p : isdir m p = true -> makedirs refused m p = (Ok (), m).
Proof.
  unfold isdir, makedirs, locate. destruct p as [|a p]; [done|].
  destruct (walk m [] _) as [l|] eqn:Hwalk; [|done].
  destruct (node_at m l) as [[|]|] eqn:Hl; try done. intros _.
  by eapply makedirs_walk_existing.
Qed.

(** Resolution of a plain path ends one name below the directories it went
    through, and does not depend on the entry it ends at. *)
Lemma walk_plain m cur names n l :
  forallb (fun n => negb (bool_decide (n = lit ".."))) names = true ->
  last names = Some n -> proper_name n = true ->
  walk m cur names = Some l ->
  (length cur < length l)%nat /\
  forall m', (forall x, x <> l -> node_at m' x = node_at m x) ->
             walk m' cur names = Some l.
Proof.
  intros Hdots Hlast Hn. apply proper_name_spec in Hn as (Hn1 & Hn2 & Hn3 & _).
  revert cur Hdots Hlast. induction names as [|n0 names IH]; intros cur Hdots Hlast; [done|].
  cbn [forallb] in Hdots. apply andb_true_iff in Hdots as [Hn0 Hdots].
  apply negb_true_iff, bool_decide_eq_false in Hn0.
  cbn [walk]. destruct (node_at m cur) as [[|]|] eqn:Hcur; try done.
  destruct names as [|n1 names].
  - injection Hlast as ->.
    rewrite bool_decide_eq_false_2 by (intros [?|?]; done).
    rewrite bool_decide_eq_false_2 by done.
    cbn [walk]. intros [= <-]. split; [rewrite length_app; simpl; lia|].
    intros m' Hm'. rewrite Hm', Hcur; [done|].
    intros E. apply (f_equal length) in E. rewrite length_app in E. simpl in E. lia.
  - assert (Hlast' : last (n1 :: names) = Some n) by done.
    rewrite (bool_decide_eq_false_2 (n0 = lit "..")) by done.
    case_bool_decide.
    + intros Hwalk. destruct (IH cur Hdots Hlast' Hwalk) as [Hlen Hm].
      split; [done|]. intros m' Hm'. rewrite Hm', Hcur; [by apply Hm|].
      intros ->. lia.
    + intros Hwalk. destruct (IH (cur ++ [n0]) Hdots Hlast' Hwalk) as [Hlen Hm].
      rewrite length_app in Hlen. simpl in Hlen.
      split; [lia|]. intros m' Hm'. rewrite Hm', Hcur; [by apply Hm|].
      intros ->. lia.
Qed.

Lemma last_filter_nonempty (names : list str) n :
  last names = Some n -> n <> [] -> last (filter (fun n => n <> []) names) = Some n.
Proof.
  intros [k ->]%last_Some Hn.
  rewrite filter_app, filter_cons_True, filter_nil by done.
  by rewrite last_snoc.
Qed.

Lemma walk_app m cur A B :
  walk m cur (A ++ B) =
    match walk m cur A with Some P => walk m P B | None => None end.
Proof.
  revert cur. induction A as [|a A IH]; intros cur; [done|].
  cbn [app walk]. destruct (node_at m cur) as [[|]|]; try done.
  repeat case_bool_decide; apply IH.
Qed.

(** A path that ends in a proper name leads to the entry of that name in a
    directory. *)
Lemma walk_last_name m cur names n l :
  last names = Some n -> proper_name n = true -> walk m cur names = Some l ->
  exists P, walk m cur (removelast names) = Some P /\ node_at m P = Some Dir /\
            l = P ++ [n].
Proof.
  intros [A ->]%last_Some (Hn1 & Hn2 & Hn3 & _)%proper_name_spec.
  rewrite removelast_last, walk_app.
  destruct (walk m cur A) as [P|]; [|done]. cbn [walk].
  destruct (node_at m P) as [[|]|] eqn:HP; try done.
  rewrite bool_decide_eq_false_2 by (intros [?|?]; done).
  rewrite bool_decide_eq_false_2 by done. intros [= <-]. by exists P.
Qed.

Variable decode : list Z -> option DecodedImage.

Lemma Image_open_world png w r w' : Image_open refused decode png w = (r, w') -> w' = w.
Proof.
  unfold Image_open. intros H.
  destruct (refused (CallRead png)); [by injection H|].
  destruct (locate (fs w) png) as [l|]; [|by injection H].
  destruct (node_at (fs w) l) as [[data|]|]; try by injection H.
  destruct (decode data); by injection H.
Qed.

Lemma Image_open_fst png w r :
  fst (Image_open refused decode png w) = r -> Image_open refused decode png w = (r, w).
Proof.
  destruct (Image_open refused decode png w) as [r' w'] eqn:E. simpl. intros <-.
  by rewrite (Image_open_world _ _ _ _ E).
Qed.

(** The steps of [make_lvgl_bin] after the image is decoded and encoded. *)
Lemma make_lvgl_bin_unfold png bin w im header body :
  Image_open refused decode png w = (Ok im, w) ->
  lvgl_encode im = Ok (header, body) ->
  make_lvgl_bin refused decode png bin w =
    (_ ← os_makedirs refused (dirname bin);
     folder ← os_path_isdir bin;
     _ ← (if folder : bool
          then _ ← print refused (MsgFix bin); os_rmdir refused bin
          else mret ());
     _ ← write_bin refused bin header body;
     print refused (MsgOK png bin)) w.
Proof.
  intros Hopen Henc. unfold make_lvgl_bin.
  rewrite io_bind_unfold, Hopen, io_bind_unfold. unfold lift. by rewrite Henc.
Qed.

(** C3, amended: the header and the body are built completely in memory
    before destPath is touched, and are then written to it in full, the
    header and then the body: a failure while decoding or encoding leaves
    the file system, the disk and the console as they were, and a
    conversion that returns leaves exactly the header followed by the body
    at destPath. *)
Theorem make_lvgl_bin_builds_then_writes png bin w :
  let run := make_lvgl_bin refused decode png bin w in
  (forall e, fst (Image_open refused decode png w) = Raise e -> run = (Raise e, w)) /\
  (forall im e, fst (Image_open refused decode png w) = Ok im -> lvgl_encode im = Raise e ->
     run = (Raise e, w)) /\
  (forall im header body,
     fst (Image_open refused decode png w) = Ok im -> lvgl_encode im = Ok (header, body) ->
     fst run = Ok () -> read_file (fs (snd run)) bin = Some (header ++ body)).
Proof.
  intros run. subst run. split; [|split].
  - intros e Hopen%Image_open_fst. unfold make_lvgl_bin.
    by rewrite io_bind_unfold, Hopen.
  - intros im e Hopen%Image_open_fst Henc. unfold make_lvgl_bin.
    rewrite io_bind_unfold, Hopen, io_bind_unfold. unfold lift. by rewrite Henc.
  - intros im header body Hopen%Image_open_fst Henc.
    destruct (make_lvgl_bin refused decode png bin w) as [r w'] eqn:Hrun.
    cbn [fst snd]. intros ->. revert Hrun.
    rewrite (make_lvgl_bin_unfold _ _ _ _ _ _ Hopen Henc).
    rewrite io_bind_unfold. destruct (os_makedirs refused _ w) as [[[]|e] w1]; [|done].
    rewrite io_bind_unfold. unfold os_path_isdir at 1. cbv beta iota.
    rewrite io_bind_unfold.
    assert (Hlast : forall w2,
      (write_bin refused bin header body ≫= λ _ : (), print refused (MsgOK png bin)) w2
      = (Ok (), w') ->
      read_file (fs w') bin = Some (header ++ body)).
    { intros w2. rewrite io_bind_unfold.
      destruct (write_bin refused bin header body w2) as [[[]|e] w3] eqn:Hwrite; [|done].
      unfold print. destruct (refused (CallPrint (MsgOK png bin))); [done|].
      intros [= <-]. cbn [fs]. by apply write_bin_content in Hwrite as [? _]. }
    destruct (isdir (fs w1) bin).
    + rewrite io_bind_unfold. unfold print at 1.
      destruct (refused (CallPrint (MsgFix bin))); [done|].
      destruct (os_rmdir refused bin _) as [[[]|e] w2]; [|done]. apply Hlast.
    + apply Hlast.
Qed.

(** C5, amended: for every task whose source decodes and encodes, whose
    destPath ends in a proper name, exists as an empty directory in the
    existing directory [dirname(destPath)] and leads to the same place once
    that directory is gone, for which the disk has room, and when the
    environment refuses none of the requests it takes (the two lines
    printed, the removal, the opening and the writing), the conversion
    announces the fix, removes the directory, writes the output file and
    returns: the situation is recovered, not reported as a failure. *)
Theorem make_lvgl_bin_replaces_empty_folder png bin w im header body n l :
  fst (Image_open refused decode png w) = Ok im ->
  lvgl_encode im = Ok (header, body) ->
  last (split_on sep bin) = Some n -> proper_name n = true ->
  isdir (fs w) (dirname bin) = true ->
  isdir (fs w) bin = true ->
  listdir (fs w) bin = Ok [] ->
  locate (fs w) bin = Some l -> locate (delete l (fs w)) bin = Some l ->
  (length header + length body <= free w)%nat ->
  refused (CallPrint (MsgFix bin)) = None -> refused (CallRmdir bin) = None ->
  refused (CallOpen bin) = None -> refused (CallWrite bin) = None ->
  refused (CallPrint (MsgOK png bin)) = None ->
  exists w',
    make_lvgl_bin refused decode png bin w = (Ok (), w') /\
    stdout w' = stdout w ++ [MsgFix bin; MsgOK png bin] /\
    isdir (fs w') bin = false /\
    read_file (fs w') bin = Some (header ++ body).
Proof.
  intros Hopen%Image_open_fst Henc Hn Hlast Hparent Hdir Hempty Hloc Hafter Hroom
    Hfix Hrm Hopn Hwr Hok.
  rewrite (make_lvgl_bin_unfold _ _ _ _ _ _ Hopen Henc).
  destruct w as [m fr out]. cbn [fs free stdout] in *.
  (* the directory the path leads to *)
  assert (Hnode : node_at m l = Some Dir).
  { unfold isdir in Hdir. rewrite Hloc in Hdir. by destruct (node_at m l) as [[]|]. }
  assert (Hloc' : walk m [] (split_on sep bin) = Some l)
    by (unfold locate in Hloc; by destruct bin).
  destruct (walk_last_name _ _ _ _ _ Hn Hlast Hloc') as (P & _ & _ & HlP).
  assert (Hl : l <> []) by (rewrite HlP; by destruct P).
  assert (Hml : m !! l = Some Dir) by (by destruct l).
  assert (Hkids : children m l = []).
  { unfold listdir in Hempty. rewrite Hloc, Hnode in Hempty. by injection Hempty. }
  (* makedirs, isdir, print, rmdir *)
  rewrite io_bind_unfold. unfold os_makedirs. cbn [fs].
  rewrite (makedirs_existing _ _ Hparent). unfold set_fs. cbn [fs free stdout].
  rewrite io_bind_unfold. unfold os_path_isdir at 1. cbn [fs]. rewrite Hdir.
  rewrite io_bind_unfold, io_bind_unfold, (print_ok _ _ Hfix).
  unfold printed, os_rmdir, rmdir. cbn [fs free stdout]. rewrite Hrm.
  apply proper_name_spec in Hlast as (Hn1 & Hn2 & Hn3 & _).
  rewrite (last_filter_nonempty _ _ Hn Hn1).
  rewrite !bool_decide_eq_false_2 by done.
  rewrite Hloc, Hml, Hkids. unfold set_fs. cbn [fs free stdout].
  (* the write phase *)
  set (w2 := {| fs := delete l m; free := fr; stdout := out ++ [MsgFix bin] |}).
  assert (Hfree : node_at (fs w2) l <> Some Dir).
  { destruct l; [done|]. simpl. by rewrite lookup_delete_eq. }
  destruct (write_bin_returns bin header body w2 l Hopn Hwr Hafter Hfree Hroom)
    as (w3 & Hwrite & _).
  rewrite io_bind_unfold, Hwrite, (print_ok _ _ Hok).
  apply write_bin_content in Hwrite as [Hread Hout].
  eexists. split; [done|]. cbn [printed fs stdout]. rewrite Hout. unfold w2. cbn [stdout].
  split; [by rewrite <- app_assoc|]. split; [|done].
  by eapply read_file_not_dir.
Qed.

(** *** The console output of one conversion *)

Lemma os_makedirs_stdout p w r w' : os_makedirs refused p w = (r, w') -> stdout w' = stdout w.
Proof. unfold os_makedirs. destruct (makedirs refused (fs w) p). by intros [= _ <-]. Qed.

Lemma os_rmdir_stdout p w r w' : os_rmdir refused p w = (r, w') -> stdout w' = stdout w.
Proof.
  unfold os_rmdir. destruct (refused (CallRmdir p)); [by intros [= _ <-]|].
  destruct (rmdir (fs w) p); by intros [= _ <-].
Qed.

Lemma open_wb_stdout p w r w' : open_wb refused p w = (r, w') -> stdout w' = stdout w.
Proof.
  unfold open_wb. destruct (refused (CallOpen p)); [by intros [= _ <-]|].
  destruct (locate (fs w) p) as [l|]; [|by intros [= _ <-]].
  destruct (node_at (fs w) l) as [[]|]; by intros [= _ <-].
Qed.

Lemma f_write_stdout p f data w r w' :
  f_write refused p f data w = (r, w') -> stdout w' = stdout w.
Proof.
  unfold f_write. destruct (refused (CallWrite p)); [by intros [= _ <-]|].
  destruct (fs w !! f) as [[]|]; try by intros [= _ <-].
  destruct (_ <=? _)%nat; by intros [= _ <-].
Qed.

Lemma write_bin_stdout bin header body w r w' :
  write_bin refused bin header body w = (r, w') -> stdout w' = stdout w.
Proof.
  unfold write_bin. rewrite io_bind_unfold.
  destruct (open_wb refused bin w) as [[f|e] w1] eqn:H1;
    [|by intros [= _ <-]; eapply open_wb_stdout].
  apply open_wb_stdout in H1. rewrite io_bind_unfold.
  destruct (f_write refused bin f header w1) as [[[]|e] w2] eqn:H2;
    apply f_write_stdout in H2; [|intros [= _ <-]; congruence].
  intros H3%f_write_stdout. congruence.
Qed.

(** A conversion prints at most the line of the fix and, when it returns,
    the line that closes the task; it prints no other closing line. *)
Lemma make_lvgl_bin_stdout png bin w r w' :
  make_lvgl_bin refused decode png bin w = (r, w') ->
  exists lines,
    omap verdict lines = [] /\
    stdout w' = stdout w ++ lines
                ++ match r with Ok _ => [MsgOK png bin] | Raise _ => [] end.
Proof.
  unfold make_lvgl_bin. rewrite io_bind_unfold.
  destruct (Image_open refused decode png w) as [[im|e] w0] eqn:Hopen;
    pose proof (Image_open_world _ _ _ _ Hopen) as ->.
  2:{ intros [= <- <-]. exists []. by rewrite !app_nil_r. }
  rewrite io_bind_unfold. unfold lift.
  destruct (lvgl_encode im) as [[header body]|e].
  2:{ intros [= <- <-]. exists []. by rewrite !app_nil_r. }
  rewrite io_bind_unfold.
  destruct (os_makedirs refused (dirname bin) w) as [[[]|e] w1] eqn:H1;
    apply os_makedirs_stdout in H1.
  2:{ intros [= <- <-]. exists []. by rewrite !app_nil_r. }
  rewrite io_bind_unfold. unfold os_path_isdir at 1. cbv beta iota.
  rewrite io_bind_unfold.
  assert (Hlast : forall w2 lines,
    omap verdict lines = [] -> stdout w2 = stdout w ++ lines ->
    (write_bin refused bin header body ≫= λ _ : (), print refused (MsgOK png bin)) w2
    = (r, w') ->
    exists lines,
      omap verdict lines = [] /\
      stdout w' = stdout w ++ lines
                  ++ match r with Ok _ => [MsgOK png bin] | Raise _ => [] end).
  { intros w2 lines Hlines Hout. rewrite io_bind_unfold.
    destruct (write_bin refused bin header body w2) as [[[]|e] w3] eqn:H3;
      apply write_bin_stdout in H3.
    - unfold print. destruct (refused (CallPrint (MsgOK png bin)));
        intros [= <- <-]; exists lines; (split; [done|]); cbn [stdout];
        rewrite ?app_nil_r, ?app_assoc; congruence.
    - intros [= <- <-]. exists lines. split; [done|]. rewrite app_nil_r. congruence. }
  destruct (isdir (fs w1) bin).
  - rewrite io_bind_unfold. unfold print at 1.
    destruct (refused (CallPrint (MsgFix bin))).
    { intros [= <- <-]. exists []. by rewrite !app_nil_r. }
    destruct (os_rmdir refused bin _) as [[[]|e] w2] eqn:H2;
      apply os_rmdir_stdout in H2; cbn [stdout] in H2.
    + apply (Hlast w2 [MsgFix bin]); [done|congruence].
    + intros [= <- <-]. exists [MsgFix bin]. split; [done|].
      rewrite app_nil_r. congruence.
  - apply (Hlast w1 []); [done|]. by rewrite app_nil_r.
Qed.

(** *** The serial path *)

Lemma serial_path_runs tasks w :
  (forall inp outp e, (inp, outp) ∈ tasks ->
     refused (CallPrint (MsgFailed inp e)) = None) ->
  exists w',
    serial_path refused decode tasks w = (Ok (), w') /\
    serial_run refused decode tasks w w' /\
    exists lines,
      stdout w' = stdout w ++ lines /\
      map fst (omap verdict lines) = map fst tasks.
Proof.
  revert w. induction tasks as [|[inp outp] rest IH]; intros w Hreports.
  - exists w. split; [done|]. split; [constructor|]. exists []. by rewrite app_nil_r.
  - assert (Hrest : forall inp' outp' e, (inp', outp') ∈ rest ->
              refused (CallPrint (MsgFailed inp' e)) = None)
      by (intros inp' outp' e H; apply (Hreports inp' outp'); by right).
    cbn [serial_path]. rewrite io_bind_unfold. unfold try_except.
    destruct (make_lvgl_bin refused decode inp outp w) as [[[]|e] w1] eqn:Hrun;
      destruct (make_lvgl_bin_stdout _ _ _ _ _ Hrun) as (pre & Hpre & Hout).
    + destruct (IH w1 Hrest) as (w' & Hdone & Hrel & lines & Hlines & Hverdicts).
      exists w'. split; [done|]. split; [by eapply serial_converted|].
      exists (pre ++ [MsgOK inp outp] ++ lines). split.
      * rewrite Hlines, Hout, <- !app_assoc. done.
      * rewrite omap_app, Hpre. cbn. by rewrite Hverdicts.
    + assert (Hreport : refused (CallPrint (MsgFailed inp e)) = None)
        by (apply (Hreports inp outp); by left).
      rewrite (print_ok _ _ Hreport).
      destruct (IH (printed (MsgFailed inp e) w1) Hrest)
        as (w' & Hdone & Hrel & lines & Hlines & Hverdicts).
      exists w'. split; [done|]. split; [by eapply serial_failed|].
      exists (pre ++ [MsgFailed inp e] ++ lines). split.
      * rewrite Hlines. cbn [printed stdout]. rewrite Hout, app_nil_r, <- !app_assoc. done.
      * rewrite omap_app, Hpre. cbn. by rewrite Hverdicts.
Qed.

(** C6, amended: with at most one job and a task list that is not empty,
    on a console that takes the line announcing the batch and the failure
    report of every task, the scheduler runs the tasks one at a time in list
    order and finishes; a task that raises is reported with its source path
    and the reason, and the tasks after it still run: the console shows one
    closing line per task, in list order, each for the source path of its
    task. *)
Theorem run_tasks_serial jobs tasks w :
  jobs <= 1 -> tasks <> [] ->
  refused (CallPrint (MsgConverting (length tasks) jobs)) = None ->
  (forall inp outp e, (inp, outp) ∈ tasks ->
     refused (CallPrint (MsgFailed inp e)) = None) ->
  exists w',
    run_tasks refused decode jobs tasks w = (Ok Finished, w') /\
    serial_run refused decode tasks (printed (MsgConverting (length tasks) jobs) w) w' /\
    exists lines,
      stdout w' = stdout w ++ MsgConverting (length tasks) jobs :: lines /\
      map fst (omap verdict lines) = map fst tasks.
Proof.
  intros Hjobs Htasks Hstart Hreports. unfold run_tasks.
  destruct tasks as [|t rest] eqn:E; [done|]. rewrite <- E in *. clear E Htasks.
  rewrite io_bind_unfold, (print_ok _ _ Hstart).
  apply Z.leb_le in Hjobs. rewrite Hjobs.
  destruct (serial_path_runs tasks (printed (MsgConverting (length tasks) jobs) w) Hreports)
    as (w' & Hrun & Hrel & lines & Hlines & Hverdicts).
  exists w'. rewrite io_bind_unfold, Hrun.
  split; [done|]. split; [done|]. exists lines. split; [|done].
  rewrite Hlines. cbn [printed stdout]. by rewrite <- app_assoc.
Qed.

End ConverterProperties.

(** C3 fails on the code when the disk fills up during the write phase: the
    file has been created and the header written when the write of the body
    raises, and the 12 bytes of the header stay at destPath, where there was
    no file before. *)
Lemma full_disk_leaves_partial_file :
  read_file (fs full_disk_world) (lit "out/0/1/2.bin") = None /\
  lvgl_bytes red_blue = Ok [25; 18; 0; 0; 2; 0; 1; 0; 4; 0; 0; 0; 0; 248; 31; 0] /\
  fst (make_lvgl_bin willing toy_decode (lit "in/0/1/2.png") (lit "out/0/1/2.bin") full_disk_world)
    = Raise (OSError ENOSPC (lit "out/0/1/2.bin")) /\
  read_file
    (fs (snd (make_lvgl_bin willing toy_decode (lit "in/0/1/2.png") (lit "out/0/1/2.bin")
                full_disk_world)))
    (lit "out/0/1/2.bin")
    = Some [25; 18; 0; 0; 2; 0; 1; 0; 4; 0; 0; 0].
Proof. repeat split; by vm_compute. Qed.

(** C5 fails on the code when the directory at destPath is not empty:
    [os.rmdir] raises, the directory stays, and the serial path reports the
    task as failed. *)
Lemma stray_folder_with_content_fails :
  isdir (fs stray_folder_world) (lit "out/0/1/2.bin") = true /\
  make_lvgl_bin willing toy_decode (lit "in/0/1/2.png") (lit "out/0/1/2.bin") stray_folder_world
    = (Raise (OSError ENOTEMPTY (lit "out/0/1/2.bin")),
       {| fs := fs stray_folder_world; free := free stray_folder_world;
          stdout := [MsgFix (lit "out/0/1/2.bin")] |}) /\
  stdout (snd (serial_path willing toy_decode [(lit "in/0/1/2.png", lit "out/0/1/2.bin")]
                 stray_folder_world))
    = [MsgFix (lit "out/0/1/2.bin");
       MsgFailed (lit "in/0/1/2.png") (OSError ENOTEMPTY (lit "out/0/1/2.bin"))].
Proof. repeat split; by vm_compute. Qed.

Lemma make_lvgl_bin_replaces_empty_folder_witness :
  (fst (Image_open willing toy_decode (lit "in/10/5/9.png") sample_world) = Ok red_blue /\
   lvgl_encode red_blue =
     Ok ([25; 18; 0; 0; 2; 0; 1; 0; 4; 0; 0; 0], [0; 248; 31; 0]) /\
   last (split_on sep (lit "out/10/../10/5/9.bin")) = Some (lit "9.bin") /\
   proper_name (lit "9.bin") = true /\
   isdir (fs sample_world) (dirname (lit "out/10/../10/5/9.bin")) = true /\
   isdir (fs sample_world) (lit "out/10/../10/5/9.bin") = true /\
   listdir (fs sample_world) (lit "out/10/../10/5/9.bin") = Ok [] /\
   locate (fs sample_world) (lit "out/10/../10/5/9.bin")
     = Some [lit "out"; lit "10"; lit "5"; lit "9.bin"] /\
   locate (delete [lit "out"; lit "10"; lit "5"; lit "9.bin"] (fs sample_world))
     (lit "out/10/../10/5/9.bin")
     = Some [lit "out"; lit "10"; lit "5"; lit "9.bin"] /\
   (12 + 4 <= free sample_world)%nat) /\
  exists w',
    make_lvgl_bin willing toy_decode (lit "in/10/5/9.png") (lit "out/10/../10/5/9.bin")
      sample_world = (Ok (), w') /\
    stdout w' = stdout sample_world
                ++ [MsgFix (lit "out/10/../10/5/9.bin");
                    MsgOK (lit "in/10/5/9.png") (lit "out/10/../10/5/9.bin")] /\
    isdir (fs w') (lit "out/10/../10/5/9.bin") = false /\
    read_file (fs w') (lit "out/10/../10/5/9.bin")
      = Some ([25; 18; 0; 0; 2; 0; 1; 0; 4; 0; 0; 0] ++ [0; 248; 31; 0]).
Proof.
  split; [repeat split; vm_compute; (reflexivity || lia)|].
  apply (make_lvgl_bin_replaces_empty_folder willing toy_decode
           (lit "in/10/5/9.png") (lit "out/10/../10/5/9.bin") sample_world red_blue
           [25; 18; 0; 0; 2; 0; 1; 0; 4; 0; 0; 0] [0; 248; 31; 0]
           (lit "9.bin") [lit "out"; lit "10"; lit "5"; lit "9.bin"]);
    vm_compute; (reflexivity || lia).
Defined.

Lemma run_tasks_serial_witness :
  (1 <= 1 /\ sample_tasks <> [] /\
   willing (CallPrint (MsgConverting (length sample_tasks) 1)) = None /\
   forall inp outp e, (inp, outp) ∈ sample_tasks ->
     willing (CallPrint (MsgFailed inp e)) = None) /\
  exists w',
    run_tasks willing toy_decode 1 sample_tasks sample_world = (Ok Finished, w') /\
    serial_run willing toy_decode sample_tasks
      (printed (MsgConverting (length sample_tasks) 1) sample_world) w' /\
    exists lines,
      stdout w' = stdout sample_world
                  ++ MsgConverting (length sample_tasks) 1 :: lines /\
      map fst (omap verdict lines) = map fst sample_tasks.
Proof.
  split; [split; [lia|split; [done|split; [reflexivity|reflexivity]]]|].
  apply (run_tasks_serial willing toy_decode 1 sample_tasks sample_world);
    [lia|done|reflexivity|reflexivity].
Defined.

(** C6 fails on the code on a console whose encoding has no arrow: the
    first task raises, its report cannot be printed, the exception of
    [print] leaves the loop and ends the batch, and the second task, which
    converts on a console that takes every line, is never run. *)
Lemma unprintable_report_ends_batch :
  fst (make_lvgl_bin no_arrow toy_decode (lit "in/0/1/3.PNG") (lit "out/0/1/3.bin")
         sample_world)
    = Raise (UnidentifiedImageError (lit "in/0/1/3.PNG")) /\
  fst (run_tasks no_arrow toy_decode 1 failing_first sample_world)
    = Raise UnicodeEncodeError /\
  stdout (snd (run_tasks no_arrow toy_decode 1 failing_first sample_world))
    = [MsgConverting 2 1] /\
  isfile (fs (snd (run_tasks no_arrow toy_decode 1 failing_first sample_world)))
    (lit "out/0/1/2.bin") = false /\
  isfile (fs (snd (run_tasks willing toy_decode 1 failing_first sample_world)))
    (lit "out/0/1/2.bin") = true.
Proof. repeat split; by vm_compute. Qed.

(** The sample batch: the second task fails and is reported, the third one
    still runs and replaces the stray directory. *)
Example sample_batch_output :
  stdout (snd (convert_all_tiles willing toy_decode (lit "in") (lit "out") 1 false sample_world))
    = [MsgConverting 3 1;
       MsgOK (lit "in/0/1/2.png") (lit "out/0/1/2.bin");
       MsgFailed (lit "in/0/1/3.PNG") (UnidentifiedImageError (lit "in/0/1/3.PNG"));
       MsgFix (lit "out/10/5/9.bin");
       MsgOK (lit "in/10/5/9.png") (lit "out/10/5/9.bin")].
Proof. by vm_compute. Qed.

Lemma make_lvgl_bin_builds_then_writes_witness :
  (fst (Image_open willing toy_decode (lit "in/0/1/2.png") sample_world) = Ok red_blue /\
   lvgl_encode red_blue = Ok ([25; 18; 0; 0; 2; 0; 1; 0; 4; 0; 0; 0], [0; 248; 31; 0]) /\
   fst (make_lvgl_bin willing toy_decode (lit "in/0/1/2.png") (lit "out/0/1/2.bin") sample_world)
     = Ok ()) /\
  read_file
    (fs (snd (make_lvgl_bin willing toy_decode (lit "in/0/1/2.png") (lit "out/0/1/2.bin")
                sample_world)))
    (lit "out/0/1/2.bin")
    = Some ([25; 18; 0; 0; 2; 0; 1; 0; 4; 0; 0; 0] ++ [0; 248; 31; 0]).
Proof.
  split; [repeat split; vm_compute; reflexivity|].
  apply (proj2 (proj2 (make_lvgl_bin_builds_then_writes willing toy_decode
           (lit "in/0/1/2.png") (lit "out/0/1/2.bin") sample_world)) red_blue);
    vm_compute; reflexivity.
Defined.

(** The pairs of the sample tree: the directory [zz] and the file 4.jpg are
    skipped, and the zoom levels come in the order of [sorted], 0 before
    10. *)
Example sample_discovery :
  _iter_tile_paths willing (lit "in") (lit "out") sample_tree
    = ([(lit "in/0/1/2.png", lit "out/0/1/2.bin");
        (lit "in/0/1/3.PNG", lit "out/0/1/3.bin");
        (lit "in/10/5/9.png", lit "out/10/5/9.bin")], None).
Proof. by vm_compute. Qed.

(** ** The library functions on small inputs *)

Example splitext_examples :
  splitext (lit "tile.png") = (lit "tile", lit ".png") /\
  splitext (lit "tile.PNG.bin") = (lit "tile.PNG", lit ".bin") /\
  splitext (lit "tile") = (lit "tile", lit "") /\
  splitext (lit ".png") = (lit ".png", lit "") /\
  splitext (lit "..png") = (lit "..png", lit "") /\
  splitext (lit "a.b/c") = (lit "a.b/c", lit "") /\
  splitext (lit "a/.b.png") = (lit "a/.b", lit ".png").
Proof. repeat split; by vm_compute. Qed.

Example join_examples :
  join (lit "in") [lit "0"; lit "1"; lit "2.png"] = lit "in/0/1/2.png" /\
  join (lit "in/") [lit "0"] = lit "in/0" /\
  join (lit "") [lit "0"; lit "1"] = lit "0/1" /\
  join (lit "in") [lit "/abs"; lit "x"] = lit "/abs/x" /\
  join (lit "in") [lit ""; lit "x"] = lit "in/x".
Proof. repeat split; by vm_compute. Qed.

Example dirname_examples :
  dirname (lit "out/0/1/2.bin") = lit "out/0/1" /\
  dirname (lit "2.bin") = lit "" /\
  dirname (lit "/2.bin") = lit "/" /\
  dirname (lit "out//2.bin") = lit "out".
Proof. repeat split; by vm_compute. Qed.

Example str_examples :
  isdigit (lit "10") = true /\ isdigit (lit "") = false /\
  isdigit (lit "1a") = false /\ isdigit (lit "-1") = false /\
  lower (lit "Tile.PNG") = lit "tile.png" /\
  endswith (lit "x.png") (lit ".png") = true /\
  endswith (lit "png") (lit ".png") = false /\
  sorted [lit "10"; lit "9"; lit "0"; lit "1"] = [lit "0"; lit "1"; lit "10"; lit "9"].
Proof. repeat split; by vm_compute. Qed.

(** Paths that lead nowhere, in the sample tree, where in/0/1/2.png is a
    regular file and out a directory: a name looked up in a regular file is
    not a directory, a path with a trailing separator cannot be created as
    a file, and [os.makedirs] names the component after the file in its
    way. *)
Example open_wb_errors :
  map (fun p => fst (open_wb willing p sample_world))
    [lit "out/new/"; lit "in/0/1/2.png/"; lit "in/0/1/"; lit "in/0/1/2.png/x";
     lit "nope/x"; lit "nope/x/"; lit "in/new/.."]
  = [Raise (OSError EISDIR (lit "out/new/")); Raise (OSError EISDIR (lit "in/0/1/2.png/"));
     Raise (OSError EISDIR (lit "in/0/1/")); Raise (OSError ENOTDIR (lit "in/0/1/2.png/x"));
     Raise (OSError ENOENT (lit "nope/x")); Raise (OSError ENOENT (lit "nope/x/"));
     Raise (OSError ENOENT (lit "in/new/.."))].
Proof. by vm_compute. Qed.

Example Image_open_errors :
  map (fun p => fst (Image_open willing toy_decode p sample_world))
    [lit "in/0/1/2.png/x"; lit "in/0/1/2.png/"; lit "nope"; lit "nope/"; lit "in"]
  = [Raise (OSError ENOTDIR (lit "in/0/1/2.png/x")); Raise (OSError ENOTDIR (lit "in/0/1/2.png/"));
     Raise (OSError ENOENT (lit "nope")); Raise (OSError ENOENT (lit "nope/"));
     Raise (OSError EISDIR (lit "in"))].
Proof. by vm_compute. Qed.

Example makedirs_errors :
  map (fun p => fst (makedirs willing (fs sample_world) p))
    [lit "in/0/1/2.png/0/1"; lit "in/0/1/2.png//0/1"; lit "in/0/1/2.png/./0";
     lit "in/0/1/2.png"; lit "in/0/1/2.png/"; lit "new/../other"; lit ""]
  = [Raise (OSError ENOTDIR (lit "in/0/1/2.png/0"));
     Raise (OSError ENOTDIR (lit "in/0/1/2.png//0"));
     Raise (OSError ENOTDIR (lit "in/0/1/2.png/."));
     Raise (OSError EEXIST (lit "in/0/1/2.png")); Raise (OSError EEXIST (lit "in/0/1/2.png/"));
     Ok (); Raise (OSError ENOENT (lit ""))].
Proof. by vm_compute. Qed.

Example rmdir_errors :
  map (fun p => match rmdir (fs sample_world) p with Ok _ => None | Raise e => Some e end)
    [lit "in/0/1/2.png"; lit "in/0/1/2.png/."; lit "nope/.."; lit "in/."; lit "in/0/..";
     lit "in"; lit "/"; lit ""; lit "out/10/5/9.bin/"]
  = [Some (OSError ENOTDIR (lit "in/0/1/2.png")); Some (OSError ENOTDIR (lit "in/0/1/2.png/."));
     Some (OSError ENOENT (lit "nope/..")); Some (OSError EINVAL (lit "in/."));
     Some (OSError ENOTEMPTY (lit "in/0/..")); Some (OSError ENOTEMPTY (lit "in"));
     Some (OSError EBUSY (lit "/")); Some (OSError ENOENT (lit "")); None].
Proof. by vm_compute. Qed.

(** The conversion of a tile whose output name is a bare file name fails:
    [os.makedirs] rejects the empty directory name. *)
Example bare_output_name_fails :
  fst (make_lvgl_bin willing toy_decode (lit "in/0/1/2.png") (lit "2.bin") sample_world)
    = Raise (OSError ENOENT (lit "")).
Proof. by vm_compute. Qed.

(* ================================================================== *)
(** * Further properties *)

(** ** The planner *)

Section Batch.

Variable refused : call -> option exn.

(** The planner changes neither the file system nor the disk, however it
    ends. *)
Lemma plan_tasks_frame force pairs tasks w r w' :
  plan_tasks refused force pairs tasks w = (r, w') ->
  fs w' = fs w /\ free w' = free w.
Proof.
  revert tasks w. induction pairs as [|[inp outp] rest IH]; intros tasks w.
  { by intros [= _ <-]. }
  cbn [plan_tasks]. rewrite io_bind_unfold. unfold os_path_isfile. cbv beta iota.
  destruct (negb force && isfile (fs w) outp); [|apply IH].
  rewrite io_bind_unfold. unfold print at 1.
  destruct (refused (CallPrint (MsgSkip outp))); [by intros [= _ <-]|].
  by intros [? ?]%IH.
Qed.

(** What the planner has done when it returns. *)
Lemma plan_tasks_ok force pairs tasks w ts w' :
  plan_tasks refused force pairs tasks w = (Ok ts, w') ->
  ts = tasks ++ filter (fun p => force || negb (isfile (fs w) p.2) = true) pairs /\
  w' = {| fs := fs w; free := free w;
          stdout := stdout w
                    ++ map (fun p => MsgSkip p.2)
                         (filter (fun p => negb force && isfile (fs w) p.2 = true) pairs) |}.
Proof.
  revert tasks w. induction pairs as [|[inp outp] rest IH]; intros tasks w.
  - intros [= <- <-]. cbn. rewrite !app_nil_r. by destruct w.
  - cbn [plan_tasks]. rewrite io_bind_unfold. unfold os_path_isfile. cbv beta iota.
    destruct (negb force && isfile (fs w) outp) eqn:Hskip.
    + rewrite io_bind_unfold. unfold print at 1.
      destruct (refused (CallPrint (MsgSkip outp))); [done|].
      intros [-> ->]%IH. cbn [fs free stdout].
      assert (Hkeep : force || negb (isfile (fs w) outp) = false)
        by (by destruct force, (isfile (fs w) outp)).
      rewrite (filter_cons_False _ (inp, outp)) by (simpl; by rewrite Hkeep).
      rewrite (filter_cons_True _ (inp, outp)) by done.
      cbn [map]. by rewrite <- app_assoc.
    + intros [-> ->]%IH.
      assert (Hkeep : force || negb (isfile (fs w) outp) = true)
        by (by destruct force, (isfile (fs w) outp)).
      rewrite (filter_cons_True _ (inp, outp)) by done.
      rewrite (filter_cons_False _ (inp, outp)) by (simpl; by rewrite Hskip).
      by rewrite <- app_assoc.
Qed.




(** ** The batch as a whole *)



Section BatchRuns.

Variable decode : list Z -> option DecodedImage.

(** The steps of [convert_all_tiles] under a root that is a directory. *)
Lemma convert_all_tiles_unfold I O jobs force w :
  isdir (fs w) I = true ->
  convert_all_tiles refused decode I O jobs force w =
    match plan_tasks refused force (_iter_tile_paths refused I O (fs w)).1 [] w with
    | (Ok tasks, w1) =>
        match (_iter_tile_paths refused I O (fs w)).2 with
        | Some e => (Raise e, w1)
        | None => run_tasks refused decode jobs tasks w1
        end
    | (Raise e, w1) => (Raise e, w1)
    end.
Proof.
  intros Hroot. unfold convert_all_tiles.
  rewrite io_bind_unfold. unfold os_path_isdir. cbv beta iota. rewrite Hroot. cbn [negb].
  rewrite io_bind_unfold, io_bind_unfold.
  destruct (plan_tasks refused force _ [] w) as [[tasks|e] w1]; [|done].
  rewrite io_bind_unfold. unfold lift.
  by destruct (_iter_tile_paths refused I O (fs w)).2.
Qed.









End BatchRuns.

End Batch.


(** ** The codec and the encoder *)

(** X5: two colours with channels in 0..255 get the same RGB565 value
    exactly when they agree on the top five bits of red, the top six bits of
    green and the top five bits of blue: the codec loses the low bits and
    nothing else. *)
Theorem to_rgb565_same_value r g b r' g' b' :
  0 <= r <= 255 -> 0 <= g <= 255 -> 0 <= b <= 255 ->
  0 <= r' <= 255 -> 0 <= g' <= 255 -> 0 <= b' <= 255 ->
  to_rgb565 r g b = to_rgb565 r' g' b' <->
  Z.shiftr r 3 = Z.shiftr r' 3 /\ Z.shiftr g 2 = Z.shiftr g' 2 /\
  Z.shiftr b 3 = Z.shiftr b' 3.
Proof.
  intros Hr Hg Hb Hr' Hg' Hb'.
  rewrite !to_rgb565_fields, !Z.shiftr_div_pow2 by lia.
  change (2 ^ 3) with 8. change (2 ^ 2) with 4.
  assert (0 <= r / 8 < 32) by (split; [apply Z.div_pos|apply Z.div_lt_upper_bound]; lia).
  assert (0 <= g / 4 < 64) by (split; [apply Z.div_pos|apply Z.div_lt_upper_bound]; lia).
  assert (0 <= b / 8 < 32) by (split; [apply Z.div_pos|apply Z.div_lt_upper_bound]; lia).
  assert (0 <= r' / 8 < 32) by (split; [apply Z.div_pos|apply Z.div_lt_upper_bound]; lia).
  assert (0 <= g' / 4 < 64) by (split; [apply Z.div_pos|apply Z.div_lt_upper_bound]; lia).
  assert (0 <= b' / 8 < 32) by (split; [apply Z.div_pos|apply Z.div_lt_upper_bound]; lia).
  split; [lia|]. intros (-> & -> & ->). done.
Qed.

Lemma to_rgb565_same_value_witness :
  to_rgb565 255 129 7 = to_rgb565 248 128 0 <->
  Z.shiftr 255 3 = Z.shiftr 248 3 /\ Z.shiftr 129 2 = Z.shiftr 128 2 /\
  Z.shiftr 7 3 = Z.shiftr 0 3.
Proof. apply to_rgb565_same_value; lia. Defined.

Lemma lvgl_header_cases w h :
  lvgl_header w h =
    if (0 <=? w) && (w <=? 32767) && ((0 <=? h) && (h <=? 65535))
    then Ok (format_header w h) else Raise StructError.
Proof.
  unfold lvgl_header, pack_B, pack_H. rewrite stride_eq.
  destruct (Z.leb_spec 0 w), (Z.leb_spec w 65535), (Z.leb_spec 0 h),
    (Z.leb_spec h 65535), (Z.leb_spec 0 (w * 2)), (Z.leb_spec (w * 2) 65535),
    (Z.leb_spec w 32767); try lia; reflexivity.
Qed.

(** X6: encoding fails exactly when the width is not in 0..32767 or the
    height not in 0..65535, and then with [struct.error], raised while the
    header is packed: no other exception comes out of the encoder, and
    within these bounds it returns the header and the body. *)
Theorem lvgl_encode_fails_on_size im :
  rgb_image im ->
  let fits := 0 <= im_width im <= 32767 /\ 0 <= im_height im <= 65535 in
  (fits -> lvgl_encode im =
             Ok (format_header (im_width im) (im_height im), format_body im)) /\
  (~ fits -> lvgl_encode im = Raise StructError /\
             lvgl_header (im_width im) (im_height im) = Raise StructError) /\
  (forall e, lvgl_encode im = Raise e -> e = StructError /\ ~ fits).
Proof.
  intros Him fits. unfold lvgl_encode. rewrite lvgl_header_cases.
  destruct (_ && _) eqn:Hrange.
  - apply andb_true_iff in Hrange as [[?%Z.leb_le ?%Z.leb_le]%andb_true_iff
                                        [?%Z.leb_le ?%Z.leb_le]%andb_true_iff].
    rewrite result_bind_ok, lvgl_body_ok, result_bind_ok by done.
    split; [done|]. split; [intros []; unfold fits; lia|]. by intros e.
  - assert (Hnot : ~ fits).
    { unfold fits. intros [[? ?] [? ?]].
      rewrite !(proj2 (Z.leb_le _ _)) in Hrange by lia. done. }
    split; [done|]. split; [done|]. by intros e [= <-].
Qed.

Lemma lvgl_encode_fails_on_size_witness :
  rgb_image red_blue /\
  ((0 <= 2 <= 32767 /\ 0 <= 1 <= 65535 ->
    lvgl_encode red_blue = Ok (format_header 2 1, format_body red_blue)) /\
   (~ (0 <= 2 <= 32767 /\ 0 <= 1 <= 65535) ->
    lvgl_encode red_blue = Raise StructError /\
    lvgl_header 2 1 = Raise StructError) /\
   (forall e, lvgl_encode red_blue = Raise e ->
    e = StructError /\ ~ (0 <= 2 <= 32767 /\ 0 <= 1 <= 65535))).
Proof.
  assert (H : rgb_image red_blue)
    by (intros x y; simpl; destruct (x =? 0); simpl; lia).
  split; [exact H|]. exact (lvgl_encode_fails_on_size red_blue H).
Defined.

Lemma Forall_flat_map_intro {A B} (P : B -> Prop) (f : A -> list B) l :
  (forall a, Forall P (f a)) -> Forall P (flat_map f l).
Proof.
  intros Hf. induction l as [|a l IH]; simpl; [constructor|].
  apply Forall_app. by split.
Qed.

Lemma le16_bytes v :
  0 <= v <= 65535 ->
  Forall is_byte (le16 v) /\ u16 (v mod 256) (v / 256) = v.
Proof.
  intros Hv. unfold le16, u16, is_byte.
  pose proof (Z.mod_pos_bound v 256 ltac:(lia)).
  pose proof (Z.div_mod v 256 ltac:(lia)).
  assert (0 <= v / 256 <= 255)
    by (split; [apply Z.div_pos|apply Z.lt_succ_r, Z.div_lt_upper_bound]; lia).
  split; [|lia]. repeat constructor; lia.
Qed.

Lemma pixel565_range im x y : rgb_image im -> 0 <= pixel565 im x y <= 65535.
Proof.
  intros Him. unfold pixel565. specialize (Him x y).
  destruct (im_load im x y) as [[r g] b]. simpl in Him.
  apply to_rgb565_range; tauto.
Qed.

(** X7: within the size bounds the file is made of bytes, each in 0..255,
    and it can be read back: the two bytes at offsets 4, 6 and 8 give the
    width, the height and the stride [w * 2], and the two bytes of the pixel
    [(x, y)] give its RGB565 value. *)
Theorem lvgl_bytes_read_back im :
  0 <= im_width im <= 32767 -> 0 <= im_height im <= 65535 -> rgb_image im ->
  let w := im_width im in
  let h := im_height im in
  exists bytes,
    lvgl_bytes im = Ok bytes /\
    Forall is_byte bytes /\
    (exists b4 b5 b6 b7 b8 b9,
       firstn 6 (skipn 4 bytes) = [b4; b5; b6; b7; b8; b9] /\
       u16 b4 b5 = w /\ u16 b6 b7 = h /\ u16 b8 b9 = w * 2) /\
    forall x y, 0 <= x < w -> 0 <= y < h ->
      exists lo hi,
        bytes !! Z.to_nat (12 + 2 * (y * w + x)) = Some lo /\
        bytes !! Z.to_nat (12 + 2 * (y * w + x) + 1) = Some hi /\
        u16 lo hi = pixel565 im x y.
Proof.
  intros Hw Hh Him w h. subst w h.
  exists (format_header (im_width im) (im_height im) ++ format_body im).
  split; [|split; [|split]].
  - unfold lvgl_bytes, lvgl_encode.
    rewrite lvgl_header_ok, lvgl_body_ok by done. done.
  - apply Forall_app. split.
    + unfold format_header.
      apply Forall_app; split; [repeat constructor; unfold is_byte; lia|].
      do 4 (apply Forall_app; split; [apply le16_bytes; lia|]).
      apply le16_bytes; lia.
    + unfold format_body. apply Forall_flat_map_intro. intros y.
      apply Forall_flat_map_intro. intros x. apply le16_bytes.
      by apply pixel565_range.
  - eexists _, _, _, _, _, _. split; [reflexivity|].
    split; [|split]; apply le16_bytes; lia.
  - intros x y Hx Hy. exists (pixel565 im x y mod 256), (pixel565 im x y / 256).
    split; [|split].
    + rewrite lookup_app_r by (simpl; lia).
      replace (Z.to_nat (12 + 2 * (y * im_width im + x))
               - length (format_header (im_width im) (im_height im)))%nat
        with (Z.to_nat (2 * (y * im_width im + x)) + 0)%nat by (simpl; nia).
      rewrite format_body_lookup by lia. done.
    + rewrite lookup_app_r by (simpl; lia).
      replace (Z.to_nat (12 + 2 * (y * im_width im + x) + 1)
               - length (format_header (im_width im) (im_height im)))%nat
        with (Z.to_nat (2 * (y * im_width im + x)) + 1)%nat by (simpl; nia).
      rewrite format_body_lookup by lia. done.
    + apply le16_bytes. by apply pixel565_range.
Qed.

Lemma lvgl_bytes_read_back_witness :
  exists bytes,
    lvgl_bytes red_blue = Ok bytes /\
    Forall is_byte bytes /\
    (exists b4 b5 b6 b7 b8 b9,
       firstn 6 (skipn 4 bytes) = [b4; b5; b6; b7; b8; b9] /\
       u16 b4 b5 = 2 /\ u16 b6 b7 = 1 /\ u16 b8 b9 = 2 * 2) /\
    forall x y, 0 <= x < 2 -> 0 <= y < 1 ->
      exists lo hi,
        bytes !! Z.to_nat (12 + 2 * (y * 2 + x)) = Some lo /\
        bytes !! Z.to_nat (12 + 2 * (y * 2 + x) + 1) = Some hi /\
        u16 lo hi = pixel565 red_blue x y.
Proof.
  apply (lvgl_bytes_read_back red_blue); simpl; try lia.
  intros x y. simpl. destruct (x =? 0); simpl; lia.
Defined.

(** ** The normalizer and the names of discovery *)

Lemma clean_loop_nonempty fuel name r :
  name <> [] -> clean_loop fuel name name = Some r -> r <> [].
Proof.
  revert name. induction fuel as [|fuel IH]; intros name Hne; [done|].
  cbn [clean_loop].
  destruct (splitext_cases name) as [E|(stem & e & E & Hp & Hstem)]; rewrite E.
  - rewrite no_extension_kept. by intros [= <-].
  - case_bool_decide; [by intros [= <-]|]. by apply IH.
Qed.

(** X8: the normalizer only cuts a suffix off the name and never returns an
    empty name for a name that is not empty; it returns the name unchanged
    exactly when the last extension of the name, in lower case, is not one
    of [.png], [.bin], [.jpg] and [.jpeg]. *)
Theorem clean_tile_name_cuts_suffix s :
  (exists suffix, s = clean_tile_name s ++ suffix) /\
  (s <> [] -> clean_tile_name s <> []) /\
  (clean_tile_name s = s <-> lower (splitext s).2 ∉ stripped_extensions).
Proof.
  pose proof (clean_tile_name_terminates s) as Hrun.
  split; [apply clean_tile_name_prefix|]. split.
  - intros Hne. by eapply clean_loop_nonempty.
  - unfold clean_tile_name_run in Hrun. cbn [clean_loop] in Hrun.
    destruct (splitext_cases s) as [E|(stem & e & E & Hp & Hstem)];
      rewrite E in Hrun |- *; cbn [snd].
    + rewrite no_extension_kept in Hrun. injection Hrun as <-.
      split; [intros _|done]. apply (bool_decide_unpack _). by rewrite no_extension_kept.
    + case_bool_decide as Hk.
      * injection Hrun as <-. done.
      * split; [|done]. intros Hsame.
        apply clean_loop_prefix in Hrun as [t Ht]. rewrite Hsame in Ht.
        apply (f_equal length) in Hp, Ht. rewrite !length_app in *.
        simpl in Hp. lia.
Qed.

Lemma endswith_spec s suffix :
  endswith s suffix = true <-> exists k, s = k ++ suffix.
Proof.
  unfold endswith. rewrite andb_true_iff, Nat.leb_le, bool_decide_eq_true. split.
  - intros [Hlen Hdrop]. exists (firstn (length s - length suffix) s).
    rewrite <- (firstn_skipn (length s - length suffix) s) at 1. by rewrite Hdrop.
  - intros [k ->]. rewrite length_app. split; [lia|].
    replace (length k + length suffix - length suffix)%nat with (length k) by lia.
    by rewrite skipn_app, Nat.sub_diag, skipn_all.
Qed.

(** A joined path ends with its last component. *)
Lemma join_last a p b : exists k, join a (p ++ [b]) = k ++ b.
Proof.
  unfold join. rewrite fold_left_app. cbn [fold_left].
  set (path := fold_left _ p a).
  destruct (startswith b [sep]); [by exists []|].
  destruct (_ || _); [by exists path|]. exists (path ++ [sep]). by rewrite <- app_assoc.
Qed.

(** X9: whatever the tree holds and however discovery ends, every source
    path that it yields ends in [.png] once in lower case, and every
    destination path ends in [.bin]. *)
Theorem iter_tile_paths_extensions refused m I O :
  Forall (fun p => endswith (lower p.1) (lit ".png") = true /\
                   endswith p.2 (lit ".bin") = true)
    (_iter_tile_paths refused I O m).1.
Proof.
  apply Forall_forall. intros [s d] (zoom & x & f & Htile & -> & ->)%iter_tile_paths_elem.
  split; cbn [fst snd].
  - destruct (join_last I [zoom; x] f) as [k Hk]. cbn [app] in Hk. rewrite Hk.
    destruct Htile as [_ _ _ _ _ _ _ [k' Hpng]%endswith_spec].
    apply endswith_spec. exists (lower k ++ k').
    unfold lower in *. by rewrite map_app, Hpng, app_assoc.
  - destruct (join_last O [zoom; x] (clean_tile_name f ++ lit ".bin")) as [k Hk].
    cbn [app] in Hk. rewrite Hk. apply endswith_spec.
    exists (k ++ clean_tile_name f). by rewrite <- app_assoc.
Qed.

(** ** What a conversion leaves alone *)

Lemma files_same_refl f m : files_same_but f m m.
Proof. by intros l data H _. Qed.

Lemma files_same_trans f m1 m2 m3 :
  files_same_but f m1 m2 -> files_same_but f m2 m3 -> files_same_but f m1 m3.
Proof. intros H12 H23 l data H Hf. apply H23; [|done]. by apply H12. Qed.

Lemma files_same_weaken f m m' : files_same_but None m m' -> files_same_but f m m'.
Proof. intros H l data Hl _. by apply H. Qed.

Lemma files_kept_trans m1 m2 m3 :
  regular_files_kept m1 m2 -> regular_files_kept m2 m3 -> regular_files_kept m1 m3.
Proof. intros H12 H23 l data H. apply H12 in H as [data' H]. by apply H23 in H. Qed.

Lemma files_same_kept m m' : files_same_but None m m' -> regular_files_kept m m'.
Proof. intros H l data Hl. exists data. by apply H. Qed.

Section ConversionFrame.

Variable refused : call -> option exn.

Lemma makedirs_walk_files m cur names p r m' :
  makedirs_walk refused m cur names p = (r, m') -> files_same_but None m m'.
Proof.
  revert m cur. induction names as [|n names IH]; intros m cur; cbn [makedirs_walk].
  - intros [= _ <-]. apply files_same_refl.
  - case_bool_decide; [apply IH|]. case_bool_decide; [apply IH|].
    destruct (node_at m (cur ++ [n])) as [[data|]|] eqn:Hn.
    + intros [= _ <-]. apply files_same_refl.
    + apply IH.
    + destruct (refused (CallMkdir (cur ++ [n]))).
      { intros [= _ <-]. apply files_same_refl. }
      intros Hrec%IH. eapply files_same_trans; [|done].
      intros l data Hl _. rewrite lookup_insert_ne; [done|].
      intros <-. destruct (cur ++ [n]) eqn:E; [by destruct cur|].
      simpl in Hn. congruence.
Qed.

Lemma os_makedirs_files p w r w' :
  os_makedirs refused p w = (r, w') -> files_same_but None (fs w) (fs w').
Proof.
  unfold os_makedirs, makedirs. destruct p as [|a p].
  - intros [= _ <-]. apply files_same_refl.
  - destruct (makedirs_walk _ _ _ _ _) as [r' m'] eqn:H.
    intros [= _ <-]. by eapply makedirs_walk_files.
Qed.

Lemma os_rmdir_files p w r w' :
  os_rmdir refused p w = (r, w') -> files_same_but None (fs w) (fs w').
Proof.
  unfold os_rmdir. destruct (refused (CallRmdir p)).
  { intros [= _ <-]. apply files_same_refl. }
  destruct (rmdir (fs w) p) as [m'|e] eqn:H.
  2:{ intros [= _ <-]. apply files_same_refl. }
  intros [= _ <-]. cbn [fs set_fs]. unfold rmdir in H.
  destruct (locate (fs w) p) as [l|]; [|done].
  destruct (last _) as [n|]; [|done].
  repeat case_bool_decide; try done.
  destruct (fs w !! l) as [[|]|] eqn:Hl; try done.
  destruct (children (fs w) l); [|done]. injection H as <-.
  intros l' data Hl' _. rewrite lookup_delete_ne; [done|]. congruence.
Qed.

(** A write leaves the file system as it is or replaces the content of the
    open file. *)
Lemma f_write_fs p f data w r w2 :
  f_write refused p f data w = (r, w2) ->
  fs w2 = fs w \/ exists d, fs w2 = <[f := File d]> (fs w).
Proof.
  unfold f_write. destruct (refused (CallWrite p)); [intros [= _ <-]; by left|].
  destruct (fs w !! f) as [[old|]|]; try (intros [= _ <-]; by left).
  destruct (_ <=? _)%nat; intros [= _ <-]; right; eauto.
Qed.

(** The write phase either fails before it has opened the file, or
    replaces the content of the file where the path leads, which is not a
    directory. *)
Lemma write_bin_fs bin header body w r w' :
  write_bin refused bin header body w = (r, w') ->
  (fs w' = fs w /\ exists e, r = Raise e) \/
  exists f x, locate (fs w) bin = Some f /\ node_at (fs w) f <> Some Dir /\
              fs w' = <[f := File x]> (fs w).
Proof.
  unfold write_bin. rewrite io_bind_unfold.
  destruct (open_wb refused bin w) as [[f|e] w1] eqn:Hopen;
    pose proof (open_wb_spec _ _ _ _ _ Hopen) as Hspec; cbn beta iota in Hspec.
  2:{ intros [= <- <-]. left. subst w1. eauto. }
  destruct Hspec as (_ & Hloc & Hnd & Hfs1 & _).
  intros Hrun. right. exists f.
  assert (Hx : exists x, fs w' = <[f := File x]> (fs w)); [|destruct Hx as [x Hx]; eauto].
  revert Hrun. rewrite io_bind_unfold.
  destruct (f_write refused bin f header w1) as [[[]|e] w2] eqn:H2;
    apply f_write_fs in H2 as [H2|[d H2]].
  - intros [H3|[d H3]]%f_write_fs; rewrite H3, ?H2, Hfs1, ?insert_insert_eq; eauto.
  - intros [H3|[d' H3]]%f_write_fs; rewrite H3, ?H2, Hfs1, ?insert_insert_eq; eauto.
  - intros [= _ <-]. rewrite H2, Hfs1. eauto.
  - intros [= _ <-]. rewrite H2, Hfs1, insert_insert_eq. eauto.
Qed.

Variable decode : list Z -> option DecodedImage.

(** A conversion changes no regular file before the write phase; the write
    phase, when it is reached and opens the file, replaces the content of
    the file where destPath leads then. *)
Lemma make_lvgl_bin_fs png bin w r w' :
  make_lvgl_bin refused decode png bin w = (r, w') ->
  (files_same_but None (fs w) (fs w') /\ exists e, r = Raise e) \/
  exists m1 f x, files_same_but None (fs w) m1 /\ locate m1 bin = Some f /\
                 node_at m1 f <> Some Dir /\ fs w' = <[f := File x]> m1.
Proof.
  destruct (Image_open refused decode png w) as [[im|e] w0] eqn:Hopen;
    pose proof (Image_open_world _ _ _ _ _ _ Hopen) as ->.
  2:{ unfold make_lvgl_bin. rewrite io_bind_unfold, Hopen. intros [= <- <-].
      left. split; [apply files_same_refl|eauto]. }
  destruct (lvgl_encode im) as [[header body]|e] eqn:Henc.
  2:{ unfold make_lvgl_bin. rewrite io_bind_unfold, Hopen, io_bind_unfold. unfold lift.
      rewrite Henc. intros [= <- <-]. left. split; [apply files_same_refl|eauto]. }
  rewrite (make_lvgl_bin_unfold _ _ _ _ _ _ _ _ Hopen Henc).
  rewrite io_bind_unfold.
  destruct (os_makedirs refused (dirname bin) w) as [[[]|e] w1] eqn:H1;
    apply os_makedirs_files in H1.
  2:{ intros [= <- <-]. left. eauto. }
  rewrite io_bind_unfold. unfold os_path_isdir at 1. cbv beta iota.
  rewrite io_bind_unfold.
  assert (Hlast : forall w2,
    files_same_but None (fs w) (fs w2) ->
    (write_bin refused bin header body ≫= λ _ : (), print refused (MsgOK png bin)) w2
    = (r, w') ->
    (files_same_but None (fs w) (fs w') /\ exists e, r = Raise e) \/
    exists m1 f x, files_same_but None (fs w) m1 /\ locate m1 bin = Some f /\
                   node_at m1 f <> Some Dir /\ fs w' = <[f := File x]> m1).
  { intros w2 H2. rewrite io_bind_unfold.
    destruct (write_bin refused bin header body w2) as [r3 w3] eqn:Hwrite.
    apply write_bin_fs in Hwrite as [[Hfs [e ->]]|(f & x & Hloc & Hnd & Hfs)].
    - intros [= <- <-]. left. rewrite Hfs. eauto.
    - intros Hrun. right. exists (fs w2), f, x.
      assert (fs w' = fs w3) as ->; [|done].
      destruct r3 as [[]|e]; [|by injection Hrun as _ <-].
      revert Hrun. unfold print. by destruct (refused _); intros [= _ <-]. }
  destruct (isdir (fs w1) bin); [|by apply Hlast].
  rewrite io_bind_unfold. unfold print at 1.
  destruct (refused (CallPrint (MsgFix bin))).
  { intros [= <- <-]. left. eauto. }
  destruct (os_rmdir refused bin _) as [[[]|e] w2] eqn:H2;
    apply os_rmdir_files in H2; cbn [fs] in H2.
  - apply Hlast. by eapply files_same_trans.
  - intros [= <- <-]. left. split; [by eapply files_same_trans|eauto].
Qed.

(** X10: a conversion never deletes a regular file and changes the content
    of at most one: every regular file is still one afterwards, and all of
    them but the one at a single place [f] have the content they had; when
    the conversion returns, [f] is where destPath leads. *)
Theorem make_lvgl_bin_touches_one_file png bin w :
  let run := make_lvgl_bin refused decode png bin w in
  regular_files_kept (fs w) (fs run.2) /\
  exists f,
    (forall l data, fs w !! l = Some (File data) -> l <> f ->
                    fs run.2 !! l = Some (File data)) /\
    (run.1 = Ok () -> locate (fs run.2) bin = Some f).
Proof.
  intros run. subst run.
  destruct (make_lvgl_bin refused decode png bin w) as [r w'] eqn:Hrun. cbn [fst snd].
  destruct (make_lvgl_bin_fs _ _ _ _ _ Hrun)
    as [[Hsame [e ->]]|(m1 & f & x & Hsame & Hloc & Hnd & ->)].
  - split; [by apply files_same_kept|]. exists []. split; [|done].
    intros l data Hl _. by apply Hsame.
  - split.
    + intros l data Hl. destruct (decide (l = f)) as [->|Hne].
      * rewrite lookup_insert_eq. eauto.
      * exists data. rewrite lookup_insert_ne by done. by apply Hsame.
    + exists f. split.
      * intros l data Hl Hne. rewrite lookup_insert_ne by done. by apply Hsame.
      * intros _. by rewrite locate_insert_file.
Qed.

Lemma make_lvgl_bin_keeps_files png bin w r w' :
  make_lvgl_bin refused decode png bin w = (r, w') -> regular_files_kept (fs w) (fs w').
Proof.
  intros [[Hsame _]|(m1 & f & x & Hsame & Hloc & Hnd & ->)]%make_lvgl_bin_fs.
  - by apply files_same_kept.
  - intros l data Hl. destruct (decide (l = f)) as [->|Hne].
    + rewrite lookup_insert_eq. eauto.
    + exists data. rewrite lookup_insert_ne by done. by apply Hsame.
Qed.

Lemma serial_path_keeps_files tasks w r w' :
  serial_path refused decode tasks w = (r, w') -> regular_files_kept (fs w) (fs w').
Proof.
  revert w. induction tasks as [|[inp outp] rest IH]; intros w.
  - intros [= _ <-] l data Hl. by exists data.
  - cbn [serial_path]. rewrite io_bind_unfold. unfold try_except.
    destruct (make_lvgl_bin refused decode inp outp w) as [[[]|e] w1] eqn:Hone;
      apply make_lvgl_bin_keeps_files in Hone.
    + intros Hrest%IH. by eapply files_kept_trans.
    + unfold print at 1. destruct (refused (CallPrint (MsgFailed inp e))).
      * by intros [= _ <-].
      * intros Hrest%IH. by eapply files_kept_trans.
Qed.

Lemma run_tasks_keeps_files jobs tasks w r w' :
  run_tasks refused decode jobs tasks w = (r, w') -> regular_files_kept (fs w) (fs w').
Proof.
  unfold run_tasks. destruct tasks as [|t rest] eqn:E.
  { rewrite io_bind_unfold. unfold print.
    destruct (refused _); intros [= _ <-] l data Hl; by exists data. }
  rewrite <- E. rewrite io_bind_unfold. unfold print at 1.
  destruct (refused _); [intros [= _ <-] l data Hl; by exists data|].
  destruct (jobs <=? 1).
  - rewrite io_bind_unfold.
    destruct (serial_path refused decode tasks _) as [[[]|e] w3] eqn:Hrun;
      apply serial_path_keeps_files in Hrun; by intros [= _ <-].
  - intros [= _ <-] l data Hl. by exists data.
Qed.

(** What the batch does after the check of the root, whatever comes out of
    discovery and of the planner. *)
Lemma convert_all_tiles_steps I O jobs force w r w' :
  convert_all_tiles refused decode I O jobs force w = (r, w') ->
  (fs w' = fs w) \/
  exists tasks w1,
    plan_tasks refused force (_iter_tile_paths refused I O (fs w)).1 [] w = (Ok tasks, w1) /\
    run_tasks refused decode jobs tasks w1 = (r, w').
Proof.
  destruct (isdir (fs w) I) eqn:Hroot.
  2:{ unfold convert_all_tiles. rewrite io_bind_unfold. unfold os_path_isdir.
      cbv beta iota. rewrite Hroot. cbn [negb]. rewrite io_bind_unfold. unfold print.
      destruct (refused _); intros [= _ <-]; by left. }
  rewrite (convert_all_tiles_unfold _ _ _ _ _ _ _ Hroot).
  destruct (plan_tasks refused force _ [] w) as [[tasks|e] w1] eqn:Hplan;
    destruct (plan_tasks_frame _ _ _ _ _ _ _ Hplan) as [Hfs _].
  2:{ intros [= _ <-]. by left. }
  destruct (_iter_tile_paths refused I O (fs w)).2; [intros [= _ <-]; by left|].
  intros Hrun. right. by exists tasks, w1.
Qed.

(** X11: a serial batch never deletes a regular file: with at most one job,
    whatever the tree and [force] and however the batch ends, every regular
    file present when [convert_all_tiles] starts is a regular file when it
    stops. *)
Theorem convert_all_tiles_keeps_files I O jobs force w :
  jobs <= 1 ->
  regular_files_kept (fs w) (fs (convert_all_tiles refused decode I O jobs force w).2).
Proof.
  intros _.
  destruct (convert_all_tiles refused decode I O jobs force w) as [r w'] eqn:Hrun.
  cbn [snd].
  apply convert_all_tiles_steps in Hrun as [->|(tasks & w1 & Hplan & Hrun)].
  { intros l data Hl. by exists data. }
  destruct (plan_tasks_frame _ _ _ _ _ _ _ Hplan) as [<- _].
  by eapply run_tasks_keeps_files.
Qed.

End ConversionFrame.

Lemma convert_all_tiles_keeps_files_witness :
  1 <= 1 /\
  regular_files_kept (fs sample_world)
    (fs (convert_all_tiles willing toy_decode (lit "in") (lit "out") 1 true sample_world).2).
Proof.
  split; [lia|].
  apply (convert_all_tiles_keeps_files willing toy_decode (lit "in") (lit "out") 1 true
           sample_world).
  lia.
Defined.

(** ** Paths and their directory part *)

Lemma split_on_nonempty c s : split_on c s <> [].
Proof.
  destruct s as [|a s]; [done|]. simpl. destruct (decide (a = c)); [done|].
  by destruct (split_on c s).
Qed.

Lemma split_on_app c a b :
  split_on c (a ++ c :: b) = split_on c a ++ split_on c b.
Proof.
  induction a as [|x a IH]; simpl.
  - by rewrite decide_True.
  - destruct (decide (x = c)); [by rewrite IH|]. rewrite IH.
    pose proof (split_on_nonempty c a). by destruct (split_on c a).
Qed.

Lemma split_on_name c n : c ∉ n -> split_on c n = [n].
Proof.
  induction n as [|x n IH]; [done|]. intros Hc. simpl.
  rewrite decide_False by (intros ->; apply Hc; by left).
  rewrite IH; [done|]. intros H. apply Hc. by right.
Qed.

Lemma split_on_repeat_empty c j :
  filter (fun n : str => n <> []) (split_on c (repeat c j)) = [].
Proof.
  induction j as [|j IH]; simpl.
  - by rewrite filter_cons_False, filter_nil by (intros H; by apply H).
  - rewrite decide_True by done. by rewrite filter_cons_False by (intros H; by apply H).
Qed.

Lemma split_on_trailing c s j :
  filter (fun n : str => n <> []) (split_on c (s ++ repeat c j))
  = filter (fun n : str => n <> []) (split_on c s).
Proof.
  destruct j as [|j]; [by rewrite app_nil_r|]. cbn [repeat].
  by rewrite split_on_app, filter_app, split_on_repeat_empty, app_nil_r.
Qed.

Lemma lstrip_spec t c : exists j, t = repeat c j ++ lstrip t c.
Proof.
  induction t as [|a t [j IH]]; [by exists 0%nat|]. simpl.
  destruct (decide (a = c)) as [->|]; [|by exists 0%nat].
  exists (S j). simpl. by rewrite <- IH.
Qed.

Lemma rstrip_spec s c : exists j, s = rstrip s c ++ repeat c j.
Proof.
  destruct (lstrip_spec (rev s) c) as [j Hj]. exists j. unfold rstrip.
  rewrite <- (rev_involutive s) at 1. rewrite Hj at 1.
  by rewrite rev_app_distr, rev_repeat.
Qed.

Lemma rfind_from_absent n c i last : c ∉ n -> rfind_from n c i last = last.
Proof.
  revert i. induction n as [|x n IH]; intros i Hn; [done|].
  simpl. rewrite decide_False by (intros ->; apply Hn; by left).
  apply IH. intros H. apply Hn. by right.
Qed.

Lemma rfind_from_last pre n c i last :
  c ∉ n -> rfind_from (pre ++ c :: n) c i last = i + Z.of_nat (length pre).
Proof.
  intros Hn. revert i last. induction pre as [|a pre IH]; intros i last.
  - simpl. rewrite decide_True by done. rewrite rfind_from_absent by done. lia.
  - cbn [app rfind_from length]. rewrite IH. lia.
Qed.

(** The directory part of a path that ends in a name: it is not empty, and
    its names are those before the last one. *)
Lemma dirname_names pre n :
  sep ∉ n ->
  dirname (pre ++ sep :: n) <> [] /\
  filter (fun n : str => n <> []) (split_on sep (dirname (pre ++ sep :: n)))
  = filter (fun n : str => n <> []) (split_on sep pre).
Proof.
  intros Hn. unfold dirname, rfind. rewrite rfind_from_last by done.
  assert (Hhead : slice (pre ++ sep :: n) 0 (0 + Z.of_nat (length pre) + 1) = pre ++ [sep]).
  { unfold slice. replace (Z.to_nat (0 + Z.of_nat (length pre) + 1 - 0)) with (S (length pre)) by lia.
    change (Z.to_nat 0) with 0%nat. rewrite skipn_O.
    replace (pre ++ sep :: n) with ((pre ++ [sep]) ++ n) by (by rewrite <- app_assoc).
    rewrite take_app_length'; [done|]. rewrite length_app. simpl. lia. }
  rewrite Hhead.
  assert (Hsplit : filter (fun n : str => n <> []) (split_on sep (pre ++ [sep]))
                   = filter (fun n : str => n <> []) (split_on sep pre)).
  { apply (split_on_trailing sep pre 1). }
  rewrite bool_decide_eq_true_2 by (by destruct pre). cbn [andb].
  case_bool_decide as Hall; [|split; [by destruct pre|done]].
  destruct (rstrip_spec (pre ++ [sep]) sep) as [j Hj]. split.
  - intros Hempty. rewrite Hempty in Hj. cbn [app] in Hj. apply Hall.
    rewrite Hj. by rewrite repeat_length.
  - rewrite <- Hsplit. rewrite Hj at 2. by rewrite split_on_trailing.
Qed.

Lemma split_on_last pre n :
  sep ∉ n -> split_on sep (pre ++ sep :: n) = split_on sep pre ++ [n].
Proof. intros Hn. by rewrite split_on_app, (split_on_name sep n Hn). Qed.

Lemma path_split (p : str) :
  sep ∈ p -> exists pre n, p = pre ++ sep :: n /\ sep ∉ n.
Proof. intros H. by apply list_elem_of_split_r in H. Qed.

Lemma walk_filter m cur A P :
  walk m cur A = Some P -> walk m cur (filter (fun n : str => n <> []) A) = Some P.
Proof.
  revert cur. induction A as [|a A IH]; intros cur; [done|].
  cbn [walk]. destruct (node_at m cur) as [[|]|] eqn:Hcur; try done.
  destruct (decide (a = [])) as [->|Ha].
  - rewrite bool_decide_eq_true_2 by (by left).
    rewrite filter_cons_False by (intros H; by apply H). apply IH.
  - rewrite filter_cons_True by done. cbn [walk]. rewrite Hcur.
    repeat case_bool_decide; apply IH.
Qed.

Lemma walk_unfilter m cur A P :
  walk m cur (filter (fun n : str => n <> []) A) = Some P ->
  node_at m P = Some Dir -> walk m cur A = Some P.
Proof.
  intros Hwalk HP. revert cur Hwalk. induction A as [|a A IH]; intros cur; [done|].
  destruct (decide (a = [])) as [->|Ha].
  - rewrite filter_cons_False by (intros H; by apply H). intros Hwalk.
    cbn [walk]. rewrite bool_decide_eq_true_2 by (by left).
    assert (Hcur : node_at m cur = Some Dir).
    { destruct (filter _ A) as [|x xs]; [by injection Hwalk as ->|].
      cbn [walk] in Hwalk. by destruct (node_at m cur) as [[|]|]. }
    rewrite Hcur. by apply IH.
  - rewrite filter_cons_True by done. cbn [walk].
    destruct (node_at m cur) as [[|]|]; try done.
    repeat case_bool_decide; apply IH.
Qed.

Lemma walk_last_dir m cur A n l :
  walk m cur (A ++ [n]) = Some l ->
  exists P, walk m cur A = Some P /\ node_at m P = Some Dir.
Proof.
  rewrite walk_app. destruct (walk m cur A) as [P|]; [|done].
  cbn [walk]. destruct (node_at m P) as [[|]|] eqn:HP; try done. eauto.
Qed.

(** Where a path leads, the directory part of the path is a directory. *)
Lemma locate_dirname m p l :
  sep ∈ p -> locate m p = Some l -> isdir m (dirname p) = true.
Proof.
  intros (pre & n & -> & Hn)%path_split Hloc.
  destruct (dirname_names pre n Hn) as [Hne Hnames].
  assert (Hwalk : walk m [] (split_on sep pre ++ [n]) = Some l).
  { rewrite <- split_on_last by done. unfold locate in Hloc. by destruct (pre ++ sep :: n). }
  apply walk_last_dir in Hwalk as (P & HP & Hdir).
  apply walk_filter in HP. rewrite <- Hnames in HP.
  apply walk_unfilter in HP; [|done].
  unfold isdir, locate. destruct (dirname (pre ++ sep :: n)); [done|].
  by rewrite HP, Hdir.
Qed.

Section ConversionSuccess.

Variable refused : call -> option exn.

Lemma makedirs_walk_leads m cur names p m' :
  forallb (fun n => negb (bool_decide (n = lit ".."))) names = true ->
  node_at m cur = Some Dir ->
  makedirs_walk refused m cur names p = (Ok (), m') ->
  exists P,
    walk m' cur names = Some P /\ node_at m' P = Some Dir /\
    (forall x, node_at m x = Some Dir -> node_at m' x = Some Dir).
Proof.
  revert m cur. induction names as [|n names IH]; intros m cur Hdots Hcur.
  { intros [= <-]. by exists cur. }
  cbn [forallb] in Hdots. apply andb_true_iff in Hdots as [Hn Hdots].
  apply negb_true_iff, bool_decide_eq_false in Hn.
  cbn [makedirs_walk walk].
  assert (Hstep : forall m0 next,
    node_at m0 next = Some Dir ->
    (forall x, node_at m x = Some Dir -> node_at m0 x = Some Dir) ->
    makedirs_walk refused m0 next names p = (Ok (), m') ->
    exists P,
      walk m' next names = Some P /\ node_at m' P = Some Dir /\
      node_at m' cur = Some Dir /\
      (forall x, node_at m x = Some Dir -> node_at m' x = Some Dir)).
  { intros m0 next Hnext Hmono Hrun.
    destruct (IH m0 next Hdots Hnext Hrun) as (P & HP & HPdir & Hmono').
    exists P. repeat split; try done; auto. }
  case_bool_decide as Hstay.
  - intros Hrun. destruct (Hstep m cur Hcur (fun x H => H) Hrun) as (P & HP & HPd & Hc & Hm).
    exists P. by rewrite Hc.
  - rewrite (bool_decide_eq_false_2 (n = lit "..")) by done.
    assert (Hne : cur ++ [n] <> []) by (by destruct cur).
    destruct (node_at m (cur ++ [n])) as [[data|]|] eqn:Hnode; [done| |].
    + intros Hrun.
      destruct (Hstep m (cur ++ [n]) Hnode (fun x H => H) Hrun) as (P & HP & HPd & Hc & Hm).
      exists P. by rewrite Hc.
    + destruct (refused (CallMkdir (cur ++ [n]))); [done|]. intros Hrun.
      assert (Hmono : forall x, node_at m x = Some Dir ->
                node_at (<[cur ++ [n] := Dir]> m) x = Some Dir).
      { intros x Hx. rewrite node_at_insert; [done|]. intros ->. congruence. }
      destruct (Hstep _ (cur ++ [n]) (node_at_insert_eq m _ Dir Hne) Hmono Hrun)
        as (P & HP & HPd & Hc & Hm).
      exists P. by rewrite Hc.
Qed.

Lemma no_dots_unfilter (names : list str) :
  forallb (fun n => negb (bool_decide (n = lit ".."))) (filter (fun n : str => n <> []) names) = true ->
  forallb (fun n => negb (bool_decide (n = lit ".."))) names = true.
Proof.
  induction names as [|a names IH]; [done|].
  destruct (decide (a = [])) as [->|Ha].
  - rewrite filter_cons_False by (intros H; by apply H). intros H. cbn [forallb].
    rewrite IH by done. by rewrite bool_decide_eq_false_2.
  - rewrite filter_cons_True by done. cbn [forallb].
    intros [-> H]%andb_true_iff. by rewrite IH.
Qed.

Lemma no_dots_filter (names : list str) :
  forallb (fun n => negb (bool_decide (n = lit ".."))) names = true ->
  forallb (fun n => negb (bool_decide (n = lit ".."))) (filter (fun n : str => n <> []) names) = true.
Proof.
  induction names as [|a names IH]; [done|]. cbn [forallb].
  intros [Ha H]%andb_true_iff.
  destruct (decide (a = [])) as [->|Hne].
  - rewrite filter_cons_False by (intros H'; by apply H'). by apply IH.
  - rewrite filter_cons_True by done. cbn [forallb]. by rewrite Ha, IH.
Qed.

Lemma isdir_same_dirs m m' p :
  (forall x, node_at m' x = Some Dir <-> node_at m x = Some Dir) ->
  isdir m' p = isdir m p.
Proof.
  intros Hdirs. unfold isdir, locate. destruct p as [|a p]; [done|].
  rewrite (walk_same_dirs m m' _ _ Hdirs).
  destruct (walk m [] _) as [l|]; [|done]. pose proof (Hdirs l) as H.
  destruct (node_at m' l) as [[]|], (node_at m l) as [[]|];
    try done; exfalso; intuition congruence.
Qed.

(** Writing a file where no directory is makes no directory and removes
    none. *)
Lemma insert_file_same_dirs m l data :
  node_at m l <> Some Dir ->
  forall x, node_at (<[l := File data]> m) x = Some Dir <-> node_at m x = Some Dir.
Proof.
  intros Hnode x. assert (Hl : l <> []) by (by intros ->).
  destruct (decide (x = l)) as [->|Hx].
  - rewrite node_at_insert_eq by done. split; [done|]. intros H. by destruct Hnode.
  - by rewrite node_at_insert.
Qed.

Variable decode : list Z -> option DecodedImage.

(** X12: converting onto an existing output file, as under [force]: when
    the source is read, decodes and encodes, destPath contains a separator
    and leads to a regular file, the disk has room for the new bytes, and
    the environment refuses neither the opening of destPath for writing, nor
    the writing, nor the line of success, the conversion returns; the file
    system differs only at that file, which holds the header followed by the
    body, no directory is made, and the console gets the one line of
    success. *)
Theorem make_lvgl_bin_overwrites png bin w im header body old :
  fst (Image_open refused decode png w) = Ok im ->
  lvgl_encode im = Ok (header, body) ->
  sep ∈ bin ->
  read_file (fs w) bin = Some old ->
  (length header + length body <= free w)%nat ->
  refused (CallOpen bin) = None -> refused (CallWrite bin) = None ->
  refused (CallPrint (MsgOK png bin)) = None ->
  exists l w',
    locate (fs w) bin = Some l /\
    make_lvgl_bin refused decode png bin w = (Ok (), w') /\
    fs w' = <[l := File (header ++ body)]> (fs w) /\
    stdout w' = stdout w ++ [MsgOK png bin].
Proof.
  intros Hopen%Image_open_fst Henc Hsep Hread Hroom Hopn Hwr Hok.
  rewrite (make_lvgl_bin_unfold _ _ _ _ _ _ _ _ Hopen Henc).
  pose proof (read_file_not_dir _ _ _ Hread) as Hdir.
  unfold read_file in Hread. destruct (locate (fs w) bin) as [l|] eqn:Hloc; [|done].
  destruct (node_at (fs w) l) as [[data|]|] eqn:Hnode; try done. injection Hread as ->.
  pose proof (locate_dirname _ _ _ Hsep Hloc) as Hparent.
  assert (Hnd : node_at (fs w) l <> Some Dir) by (by rewrite Hnode).
  rewrite io_bind_unfold. unfold os_makedirs.
  rewrite (makedirs_existing _ _ _ Hparent). unfold set_fs.
  rewrite io_bind_unfold. unfold os_path_isdir at 1. cbn [fs]. rewrite Hdir.
  rewrite io_bind_unfold. unfold mret, io_ret.
  set (w1 := {| fs := fs w; free := free w; stdout := stdout w |}).
  destruct (write_bin_returns refused bin header body w1 l Hopn Hwr Hloc Hnd Hroom)
    as (w2 & Hwrite & Hfs).
  rewrite io_bind_unfold, Hwrite, (print_ok _ _ _ Hok).
  apply write_bin_content in Hwrite as [_ Hout].
  exists l. eexists. split; [done|]. split; [done|]. cbn [printed fs stdout].
  split; [done|]. by rewrite Hout.
Qed.

(** X13: the directories of the output are made on demand: when the
    source is read, decodes and encodes, destPath is a plain path with a
    separator, [os.makedirs] of its directory part returns, destPath is not
    a directory then, the disk has room, and the environment refuses neither
    the opening of destPath for writing, nor the writing, nor the line of
    success, the conversion returns: opening destPath does not fail for a
    missing directory.  The console gets the one line of success, the
    directory part of destPath is a directory afterwards, and destPath holds
    the header followed by the body. *)
Theorem make_lvgl_bin_creates_folders png bin w im header body :
  fst (Image_open refused decode png w) = Ok im ->
  lvgl_encode im = Ok (header, body) ->
  plain_path bin = true ->
  sep ∈ bin ->
  fst (os_makedirs refused (dirname bin) w) = Ok () ->
  isdir (fs (snd (os_makedirs refused (dirname bin) w))) bin = false ->
  (length header + length body <= free w)%nat ->
  refused (CallOpen bin) = None -> refused (CallWrite bin) = None ->
  refused (CallPrint (MsgOK png bin)) = None ->
  exists w',
    make_lvgl_bin refused decode png bin w = (Ok (), w') /\
    stdout w' = stdout w ++ [MsgOK png bin] /\
    isdir (fs w') (dirname bin) = true /\
    read_file (fs w') bin = Some (header ++ body).
Proof.
  intros Hopen%Image_open_fst Henc Hplain Hsep Hmk Hnodir Hroom Hopn Hwr Hok.
  rewrite (make_lvgl_bin_unfold _ _ _ _ _ _ _ _ Hopen Henc).
  destruct (path_split bin Hsep) as (pre & n & Hbin & Hn).
  destruct (dirname_names pre n Hn) as [Hne Hnames]. rewrite <- Hbin in Hne, Hnames.
  (* the names of the path *)
  unfold plain_path in Hplain. apply andb_true_iff in Hplain as [Hdots Hlast].
  assert (Hsplit : split_on sep bin = split_on sep pre ++ [n])
    by (rewrite Hbin; by apply split_on_last).
  rewrite Hsplit, last_snoc in Hlast. rewrite Hsplit, forallb_app in Hdots.
  apply andb_true_iff in Hdots as [Hdots _].
  apply proper_name_spec in Hlast as (Hn1 & Hn2 & Hn3 & _).
  assert (Hdots' : forallb (fun n => negb (bool_decide (n = lit "..")))
                     (split_on sep (dirname bin)) = true).
  { apply no_dots_unfilter. rewrite Hnames. by apply no_dots_filter. }
  (* the directories *)
  destruct (os_makedirs refused (dirname bin) w) as [r w1] eqn:Hrun. cbn [fst snd] in Hmk, Hnodir.
  subst r. rewrite io_bind_unfold, Hrun.
  assert (Hw1 : free w1 = free w /\ stdout w1 = stdout w /\
                makedirs_walk refused (fs w) [] (split_on sep (dirname bin)) (dirname bin)
                = (Ok (), fs w1)).
  { unfold os_makedirs, makedirs in Hrun. destruct (dirname bin) as [|a d]; [done|].
    destruct (makedirs_walk refused _ _ _ _) as [r m1]. by injection Hrun as -> <-. }
  destruct Hw1 as (Hfree & Hout & Hwalk).
  destruct (makedirs_walk_leads (fs w) [] _ _ _ Hdots' eq_refl Hwalk) as (P & HP & HPdir & _).
  assert (Hparent : isdir (fs w1) (dirname bin) = true).
  { unfold isdir, locate. destruct (dirname bin); [done|]. by rewrite HP, HPdir. }
  apply walk_filter in HP. rewrite Hnames in HP. apply walk_unfilter in HP; [|done].
  assert (Hloc : locate (fs w1) bin = Some (P ++ [n])).
  { unfold locate. destruct bin; [by destruct pre|].
    rewrite Hsplit, walk_app, HP. cbn [walk]. rewrite HPdir.
    rewrite bool_decide_eq_false_2 by (intros [?|?]; done).
    by rewrite bool_decide_eq_false_2 by done. }
  assert (Hnode : node_at (fs w1) (P ++ [n]) <> Some Dir).
  { intros H. unfold isdir in Hnodir. by rewrite Hloc, H in Hnodir. }
  (* the write phase *)
  rewrite io_bind_unfold. unfold os_path_isdir at 1. cbv beta iota. rewrite Hnodir.
  rewrite io_bind_unfold. unfold mret, io_ret.
  destruct (write_bin_returns refused bin header body w1 _ Hopn Hwr Hloc Hnode)
    as (w2 & Hwrite & Hfs); [lia|].
  rewrite io_bind_unfold, Hwrite, (print_ok _ _ _ Hok).
  apply write_bin_content in Hwrite as [Hread Hout2].
  eexists. split; [done|]. cbn [printed fs stdout]. rewrite Hout2, Hout.
  split; [done|]. split; [|done].
  rewrite <- Hparent. apply isdir_same_dirs. rewrite Hfs. by apply insert_file_same_dirs.
Qed.

(** ** A folder with content where the output goes *)


End ConversionSuccess.

Lemma make_lvgl_bin_overwrites_witness :
  (fst (Image_open willing toy_decode (lit "in/0/1/2.png") converted_world) = Ok red_blue /\
   lvgl_encode red_blue = Ok ([25; 18; 0; 0; 2; 0; 1; 0; 4; 0; 0; 0], [0; 248; 31; 0]) /\
   sep ∈ lit "out/0/1/2.bin" /\
   read_file (fs converted_world) (lit "out/0/1/2.bin")
     = Some [25; 18; 0; 0; 2; 0; 1; 0; 4; 0; 0; 0; 0; 248; 31; 0]) /\
  exists l w',
    locate (fs converted_world) (lit "out/0/1/2.bin") = Some l /\
    make_lvgl_bin willing toy_decode (lit "in/0/1/2.png") (lit "out/0/1/2.bin") converted_world
      = (Ok (), w') /\
    fs w' = <[l := File ([25; 18; 0; 0; 2; 0; 1; 0; 4; 0; 0; 0] ++ [0; 248; 31; 0])]>
              (fs converted_world) /\
    stdout w' = stdout converted_world ++ [MsgOK (lit "in/0/1/2.png") (lit "out/0/1/2.bin")].
Proof.
  split; [repeat split; try (vm_compute; reflexivity); compute_done|].
  apply (make_lvgl_bin_overwrites willing toy_decode (lit "in/0/1/2.png") (lit "out/0/1/2.bin")
           converted_world red_blue [25; 18; 0; 0; 2; 0; 1; 0; 4; 0; 0; 0] [0; 248; 31; 0]
           [25; 18; 0; 0; 2; 0; 1; 0; 4; 0; 0; 0; 0; 248; 31; 0]);
    [vm_compute; reflexivity | vm_compute; reflexivity | compute_done
    | vm_compute; reflexivity | vm_compute; lia | done | done | done].
Defined.

Lemma make_lvgl_bin_creates_folders_witness :
  (fst (Image_open willing toy_decode (lit "in/0/1/2.png") twin_world) = Ok red_blue /\
   lvgl_encode red_blue = Ok ([25; 18; 0; 0; 2; 0; 1; 0; 4; 0; 0; 0], [0; 248; 31; 0]) /\
   plain_path (lit "out/0/1/2.bin") = true /\
   sep ∈ lit "out/0/1/2.bin" /\
   isdir (fs twin_world) (lit "out") = false /\
   fst (os_makedirs willing (dirname (lit "out/0/1/2.bin")) twin_world) = Ok () /\
   isdir (fs (snd (os_makedirs willing (dirname (lit "out/0/1/2.bin")) twin_world)))
     (lit "out/0/1/2.bin") = false) /\
  exists w',
    make_lvgl_bin willing toy_decode (lit "in/0/1/2.png") (lit "out/0/1/2.bin") twin_world
      = (Ok (), w') /\
    stdout w' = stdout twin_world ++ [MsgOK (lit "in/0/1/2.png") (lit "out/0/1/2.bin")] /\
    isdir (fs w') (dirname (lit "out/0/1/2.bin")) = true /\
    read_file (fs w') (lit "out/0/1/2.bin")
      = Some ([25; 18; 0; 0; 2; 0; 1; 0; 4; 0; 0; 0] ++ [0; 248; 31; 0]).
Proof.
  split; [repeat split; try (vm_compute; reflexivity); compute_done|].
  apply (make_lvgl_bin_creates_folders willing toy_decode (lit "in/0/1/2.png")
           (lit "out/0/1/2.bin") twin_world red_blue
           [25; 18; 0; 0; 2; 0; 1; 0; 4; 0; 0; 0] [0; 248; 31; 0]);
    [vm_compute; reflexivity | vm_compute; reflexivity | vm_compute; reflexivity
    | compute_done | vm_compute; reflexivity | vm_compute; reflexivity | vm_compute; lia
    | done | done | done].
Defined.


(** ** What a batch without [force] leaves alone *)

Lemma well_formed_parent m l v :
  well_formed m = true -> m !! l = Some v ->
  l <> [] /\ node_at m (removelast l) = Some Dir.
Proof.
  unfold well_formed. rewrite forallb_forall. intros Hall Hl.
  specialize (Hall l). destruct l as [|a l].
  - exfalso. assert (false = true); [|done]. apply Hall.
    apply list_elem_of_In, list_elem_of_fmap. exists ([], v). split; [done|].
    by apply elem_of_map_to_list.
  - split; [done|]. remember (a :: l) as k eqn:Ek.
    assert (H : match node_at m (removelast k) with Some Dir => true | _ => false end = true).
    { rewrite Ek at 1. rewrite Ek in Hall. apply Hall.
      apply list_elem_of_In, list_elem_of_fmap. exists (a :: l, v). split; [done|].
      apply elem_of_map_to_list. by rewrite <- Ek. }
    by destruct (node_at m (removelast k)) as [[]|].
Qed.

(** In a well-formed tree the entries above an entry are directories. *)
Lemma well_formed_prefixes m l v k :
  well_formed m = true -> m !! l = Some v -> (k < length l)%nat ->
  node_at m (take k l) = Some Dir.
Proof.
  intros Hwf Hl Hk.
  assert (Hgen : forall j, (j <= length l - S k)%nat ->
            node_at m (take (length l - S j) l) = Some Dir).
  { induction j as [|j IH]; intros Hj.
    - destruct (well_formed_parent _ _ _ Hwf Hl) as [Hne Hp].
      rewrite Nat.sub_1_r. by rewrite <- (removelast_firstn_len l) .
    - specialize (IH ltac:(lia)).
      assert (Hlen : (S (length l - S (S j)) = length l - S j)%nat) by lia.
      destruct (take (length l - S j) l) as [|a t] eqn:Et.
      { apply (f_equal length) in Et. rewrite length_take in Et. simpl in Et. lia. }
      simpl in IH. destruct (well_formed_parent _ _ _ Hwf IH) as [_ Hp].
      rewrite <- Et, <- Hlen in Hp.
      rewrite removelast_firstn in Hp by lia. done. }
  specialize (Hgen (length l - S k)%nat ltac:(lia)).
  by replace (length l - S (length l - S k))%nat with k in Hgen by lia.
Qed.

Lemma walk_extends m cur names l :
  forallb (fun n => negb (bool_decide (n = lit ".."))) names = true ->
  walk m cur names = Some l -> exists t, l = cur ++ t.
Proof.
  revert cur. induction names as [|n names IH]; intros cur Hdots.
  { intros [= <-]. exists []. by rewrite app_nil_r. }
  cbn [forallb] in Hdots. apply andb_true_iff in Hdots as [Hn Hdots].
  apply negb_true_iff, bool_decide_eq_false in Hn.
  cbn [walk]. destruct (node_at m cur) as [[|]|]; try done.
  case_bool_decide; [by apply IH|].
  rewrite bool_decide_eq_false_2 by done.
  intros [t ->]%IH; [|done]. exists ([n] ++ t). by rewrite app_assoc.
Qed.

(** A plain path that leads to [l] in some tree leads there in every tree
    where the entries above [l] are directories. *)
Lemma walk_transfer m m' cur names n l :
  forallb (fun n => negb (bool_decide (n = lit ".."))) names = true ->
  last names = Some n -> proper_name n = true ->
  walk m' cur names = Some l ->
  (forall k, (k < length l)%nat -> node_at m (take k l) = Some Dir) ->
  walk m cur names = Some l.
Proof.
  intros Hdots Hlast Hn Hwalk Habove.
  pose proof Hn as (Hn1 & Hn2 & Hn3 & _)%proper_name_spec.
  revert cur Hdots Hlast Hwalk.
  induction names as [|n0 names IH]; intros cur Hdots Hlast Hwalk; [done|].
  destruct (walk_plain _ _ _ _ _ Hdots Hlast Hn Hwalk) as [Hlen _].
  destruct (walk_extends _ _ _ _ Hdots Hwalk) as [t Ht].
  assert (Hcur : node_at m cur = Some Dir).
  { specialize (Habove (length cur) Hlen). by rewrite Ht, take_app_length in Habove. }
  cbn [forallb] in Hdots. apply andb_true_iff in Hdots as [Hn0 Hdots].
  apply negb_true_iff, bool_decide_eq_false in Hn0.
  cbn [walk] in *. rewrite Hcur. destruct (node_at m' cur) as [[|]|]; try done.
  destruct names as [|n1 names].
  - injection Hlast as ->.
    rewrite bool_decide_eq_false_2 in * by (intros [?|?]; done).
    by rewrite bool_decide_eq_false_2 in * by done.
  - assert (Hlast' : last (n1 :: names) = Some n) by done.
    rewrite (bool_decide_eq_false_2 (n0 = lit "..")) in * by done.
    case_bool_decide; by apply IH.
Qed.

(** A plain path that leads to a regular file of a well-formed tree in some
    other tree is the path of that file. *)
Lemma isfile_transfer m m' p l data :
  well_formed m = true -> plain_path p = true ->
  locate m' p = Some l -> m !! l = Some (File data) -> isfile m p = true.
Proof.
  intros Hwf Hplain Hloc Hl.
  unfold plain_path in Hplain. apply andb_true_iff in Hplain as [Hdots Hlast].
  destruct (last (split_on sep p)) as [n|] eqn:Hn; [|done].
  unfold isfile, locate in *. destruct p as [|a p]; [done|].
  rewrite (walk_transfer m m' [] _ n l Hdots Hn Hlast Hloc).
  - destruct l; [by apply well_formed_parent in Hl as [? _]|]. simpl. by rewrite Hl.
  - intros k Hk. by eapply well_formed_prefixes.
Qed.

Section BatchFrame.

Variable refused : call -> option exn.
Variable decode : list Z -> option DecodedImage.

(** A regular file that a conversion does not leave as it was is where the
    destination leads at the moment it is opened. *)
Lemma make_lvgl_bin_changes png bin w r w' :
  make_lvgl_bin refused decode png bin w = (r, w') ->
  forall l data, fs w !! l = Some (File data) ->
    fs w' !! l = Some (File data) \/ exists m, locate m bin = Some l.
Proof.
  intros [[Hsame _]|(m1 & f & x & Hsame & Hloc & Hnd & ->)]%make_lvgl_bin_fs l data Hl.
  - left. by apply Hsame.
  - destruct (decide (l = f)) as [->|Hne]; [right; by exists m1|].
    left. rewrite lookup_insert_ne by done. by apply Hsame.
Qed.

Lemma serial_path_keeps_content m0 tasks w r w' :
  well_formed m0 = true ->
  (forall s d, (s, d) ∈ tasks -> plain_path d = true /\ isfile m0 d = false) ->
  serial_path refused decode tasks w = (r, w') ->
  forall l data, m0 !! l = Some (File data) ->
    fs w !! l = Some (File data) -> fs w' !! l = Some (File data).
Proof.
  intros Hwf Htasks Hrun l data Hl0. revert w Hrun.
  induction tasks as [|[inp outp] rest IH]; intros w; [by intros [= _ <-]|].
  cbn [serial_path]. rewrite io_bind_unfold. unfold try_except.
  destruct (Htasks inp outp ltac:(by left)) as [Hplain Hnew].
  assert (Hrest : forall s d, (s, d) ∈ rest -> plain_path d = true /\ isfile m0 d = false)
    by (intros s d H; apply (Htasks s d); by right).
  destruct (make_lvgl_bin refused decode inp outp w) as [r1 w1] eqn:Hone.
  intros Hrun Hl.
  destruct (make_lvgl_bin_changes _ _ _ _ _ Hone l data Hl) as [H1|[m Hm]].
  2:{ rewrite (isfile_transfer m0 m outp l data Hwf Hplain Hm Hl0) in Hnew. done. }
  destruct r1 as [[]|e].
  - by eapply IH.
  - revert Hrun. unfold print at 1. destruct (refused (CallPrint (MsgFailed inp e))).
    + by intros [= _ <-].
    + intros Hrun. by eapply IH.
Qed.

Lemma run_tasks_keeps_content m0 jobs tasks w r w' :
  well_formed m0 = true ->
  (forall s d, (s, d) ∈ tasks -> plain_path d = true /\ isfile m0 d = false) ->
  run_tasks refused decode jobs tasks w = (r, w') ->
  forall l data, m0 !! l = Some (File data) ->
    fs w !! l = Some (File data) -> fs w' !! l = Some (File data).
Proof.
  intros Hwf Htasks Hrun l data Hl0 Hl. revert Hrun.
  unfold run_tasks. destruct tasks as [|t rest] eqn:E.
  { rewrite io_bind_unfold. unfold print. by destruct (refused _); intros [= _ <-]. }
  rewrite <- E in *. rewrite io_bind_unfold. unfold print at 1.
  destruct (refused _); [by intros [= _ <-]|].
  destruct (jobs <=? 1); [|by intros [= _ <-]].
  rewrite io_bind_unfold.
  destruct (serial_path refused decode tasks _) as [r3 w3] eqn:Hrun.
  pose proof (serial_path_keeps_content m0 tasks _ _ _ Hwf Htasks Hrun l data Hl0 Hl) as H3.
  by destruct r3 as [[]|e]; intros [= _ <-].
Qed.

End BatchFrame.

Lemma endswith_sep_split (p : str) : endswith p [sep] = true -> exists p', p = p' ++ [sep].
Proof.
  destruct p as [|a p' _] using rev_ind; [by rewrite endswith_nil|].
  rewrite endswith_snoc. intros ->%bool_decide_eq_true. by exists p'.
Qed.

Lemma with_sep_names O zoom :
  no_dotdot O = true -> zoom <> lit ".." -> sep ∉ zoom ->
  forallb (fun n => negb (bool_decide (n = lit ".."))) (split_on sep (with_sep O ++ zoom)) = true.
Proof.
  unfold no_dotdot, with_sep. intros HO Hz Hsep.
  assert (Hzoom : negb (bool_decide (zoom = lit "..")) = true)
    by (by rewrite bool_decide_eq_false_2).
  destruct (decide (O = [])) as [->|Hne].
  { rewrite bool_decide_eq_true_2 by done. cbn [orb app].
    rewrite split_on_name by done. cbn [forallb]. by rewrite Hzoom. }
  rewrite (bool_decide_eq_false_2 (O = [])) by done. cbn [orb].
  destruct (endswith O [sep]) eqn:Hend.
  - apply endswith_sep_split in Hend as [O' ->].
    rewrite (split_on_last O' []) in HO by (by intros ?%elem_of_nil).
    rewrite forallb_app in HO. apply andb_true_iff in HO as [HO _].
    rewrite <- app_assoc. cbn [app]. rewrite split_on_last, forallb_app by done.
    cbn [forallb]. by rewrite HO, Hzoom.
  - rewrite <- app_assoc. cbn [app]. rewrite split_on_last, forallb_app by done.
    cbn [forallb]. by rewrite HO, Hzoom.
Qed.

Lemma isdigit_not_dotdot s : isdigit s = true -> s <> lit "..".
Proof. by intros H ->. Qed.

Lemma bin_name_proper f : sep ∉ f -> proper_name (clean_tile_name f ++ lit ".bin") = true.
Proof.
  intros Hsep. destruct (clean_tile_name_prefix f) as [t Ht].
  apply bool_decide_eq_true. repeat split.
  - intros H%(f_equal length). rewrite length_app in H. simpl in H. lia.
  - intros H%(f_equal length). rewrite length_app in H. simpl in H. lia.
  - intros H%(f_equal length). rewrite length_app in H. simpl in H. lia.
  - intros [H|H]%elem_of_app.
    + apply Hsep. rewrite Ht. apply elem_of_app. by left.
    + revert H. compute_done.
Qed.

(** The destination of a tile is a plain path when the output root has no
    [..]. *)
Lemma destination_plain m I O zoom x f :
  proper_names m = true -> no_dotdot O = true -> tile_at m I zoom x f ->
  plain_path (join O [zoom; x; clean_tile_name f ++ lit ".bin"]) = true.
Proof.
  intros Hwf HO Htile.
  destruct (tile_at_names _ _ _ _ _ Hwf Htile) as ([Hz1 Hz2] & [Hx1 Hx2] & Hf).
  pose proof (bin_name_proper f Hf) as Hname.
  pose proof Hname as (_ & _ & Hn3 & Hn4)%proper_name_spec.
  rewrite join3 by (done || by apply bin_name_start).
  set (name := clean_tile_name f ++ lit ".bin") in *.
  assert (Hsplit : split_on sep (with_sep O ++ zoom ++ [sep] ++ x ++ [sep] ++ name)
                   = split_on sep (with_sep O ++ zoom) ++ [x; name]).
  { replace (with_sep O ++ zoom ++ [sep] ++ x ++ [sep] ++ name)
      with (((with_sep O ++ zoom) ++ sep :: x) ++ sep :: name)
      by (by rewrite <- !app_assoc).
    rewrite (split_on_last _ name Hn4), (split_on_last _ x Hx2).
    by rewrite <- app_assoc. }
  unfold plain_path. rewrite Hsplit.
  replace [x; name] with ([x] ++ [name]) by done.
  rewrite app_assoc, last_snoc, Hname, andb_true_r, <- app_assoc, forallb_app.
  rewrite with_sep_names; [|done| |done].
  - cbn [app forallb andb].
    rewrite !bool_decide_eq_false_2; [done|done|].
    destruct Htile. by apply isdigit_not_dotdot.
  - destruct Htile. by apply isdigit_not_dotdot.
Qed.

Section NothingOverwritten.

Variable refused : call -> option exn.
Variable decode : list Z -> option DecodedImage.

(** X15: without [force] a serial batch overwrites nothing: on a well-formed
    tree whose names are proper, for an output root without [..] and at
    most one job, every regular file present when [convert_all_tiles] starts
    is there with the same content when it stops, whether it returns or
    raises. *)
Theorem convert_all_tiles_overwrites_nothing I O jobs w :
  jobs <= 1 ->
  well_formed (fs w) = true -> proper_names (fs w) = true -> no_dotdot O = true ->
  forall l data, fs w !! l = Some (File data) ->
    fs (convert_all_tiles refused decode I O jobs false w).2 !! l = Some (File data).
Proof.
  intros Hjobs Hwf Hnames HO l data Hl.
  destruct (convert_all_tiles refused decode I O jobs false w) as [r w'] eqn:Hrun.
  cbn [snd].
  apply convert_all_tiles_steps in Hrun as [->|(tasks & w1 & Hplan & Hrun)]; [done|].
  destruct (plan_tasks_frame _ _ _ _ _ _ _ Hplan) as [Hfs _].
  apply plan_tasks_ok in Hplan as [-> _]. cbn [app] in Hrun.
  eapply (run_tasks_keeps_content refused decode (fs w)); [done| |done|done|by rewrite Hfs].
  intros s d [Hnew Hsd]%list_elem_of_filter. simpl in Hnew.
  apply iter_tile_paths_elem in Hsd as (zoom & x & f & Htile & _ & ->).
  split; [by eapply destination_plain|]. by destruct (isfile _ _).
Qed.

End NothingOverwritten.

Lemma convert_all_tiles_overwrites_nothing_witness :
  (1 <= 1 /\ well_formed (fs sample_world) = true /\
   proper_names (fs sample_world) = true /\ no_dotdot (lit "out") = true) /\
  forall l data, fs sample_world !! l = Some (File data) ->
    fs (convert_all_tiles willing toy_decode (lit "in") (lit "out") 1 false sample_world).2 !! l
    = Some (File data).
Proof.
  split; [split; [lia|repeat split; vm_compute; reflexivity]|].
  apply (convert_all_tiles_overwrites_nothing willing toy_decode (lit "in") (lit "out") 1
           sample_world);
    [lia | vm_compute; reflexivity | vm_compute; reflexivity | vm_compute; reflexivity].
Defined.

(** ** The order of discovery *)

Lemma str_le_total a b : str_le a b \/ str_le b a.
Proof.
  unfold str_le. revert b. induction a as [|x a IH]; intros [|y b]; simpl; auto.
  destruct (Nat.ltb_spec (code x) (code y)), (Nat.ltb_spec (code y) (code x));
    auto; lia.
Qed.

Lemma str_le_trans a b c : str_le a b -> str_le b c -> str_le a c.
Proof.
  unfold str_le. revert b c. induction a as [|x a IH]; intros [|y b] [|z c]; simpl; try done.
  destruct (Nat.ltb_spec (code x) (code y)), (Nat.ltb_spec (code y) (code x)),
    (Nat.ltb_spec (code y) (code z)), (Nat.ltb_spec (code z) (code y)),
    (Nat.ltb_spec (code x) (code z)), (Nat.ltb_spec (code z) (code x));
    try done; try lia. apply IH.
Qed.

Lemma StronglySorted_strict {A} (R : relation A) l :
  StronglySorted R l -> NoDup l -> StronglySorted (fun a b => R a b /\ a <> b) l.
Proof.
  induction 1 as [|a l Hl IH Ha]; intros Hnd; [constructor|].
  apply NoDup_cons in Hnd as [Hnotin Hnd]. constructor; [by apply IH|].
  rewrite Forall_forall in *. intros b Hb. split; [by apply Ha|].
  intros ->. by apply Hnotin.
Qed.

Lemma StronglySorted_filter {A} (R : relation A) (P : A -> Prop)
    `{forall x, Decision (P x)} l :
  StronglySorted R l -> StronglySorted R (filter P l).
Proof.
  induction 1 as [|a l Hl IH Ha]; [constructor|].
  destruct (decide (P a)).
  - rewrite filter_cons_True by done. constructor; [done|].
    rewrite Forall_forall in *. intros b [_ Hb]%list_elem_of_filter. by apply Ha.
  - by rewrite filter_cons_False.
Qed.

(** [sorted] puts names without repetition in strictly increasing order. *)
Lemma sorted_strict names : NoDup names -> StronglySorted str_lt (sorted names).
Proof.
  intros Hnd. apply (StronglySorted_strict str_le).
  - apply (@StronglySorted_merge_sort _ str_le _ str_le_trans str_le_total).
  - unfold sorted. by rewrite merge_sort_Permutation.
Qed.

Lemma NoDup_omap_inj {A B} (f : A -> option B) l :
  (forall a1 a2 b, f a1 = Some b -> f a2 = Some b -> a1 = a2) ->
  NoDup l -> NoDup (omap f l).
Proof.
  intros Hinj. induction 1 as [|a l Ha Hl IH]; [constructor|].
  cbn [omap list_omap]. destruct (f a) as [b|] eqn:Hb; [|done].
  constructor; [|done]. intros (a' & Ha' & Hb')%list_elem_of_omap.
  by rewrite (Hinj a a' b Hb Hb') in Ha.
Qed.

(** A directory lists no name twice. *)
Lemma listdir_NoDup m p names : listdir m p = Ok names -> NoDup names.
Proof.
  unfold listdir. destruct (locate m p) as [l|]; [|done].
  destruct (node_at m l) as [[]|]; [done| |done]. intros [= <-].
  unfold children. apply NoDup_omap_inj; [|apply NoDup_fst_map_to_list].
  intros k1 k2 n H1%child_of_some H2%child_of_some. congruence.
Qed.

Lemma iter_y_files_tiles I O z x ys :
  iter_y_files I O z x ys
  = map (tile_pair I O)
      (map (fun y => (z, x, y))
         (filter (fun y => endswith (lower y) (lit ".png") = true) ys)).
Proof.
  induction ys as [|y ys IH]; [done|]. cbn [iter_y_files].
  destruct (endswith (lower y) (lit ".png")) eqn:E; cbn [negb].
  - rewrite filter_cons_True by done. cbn [map tile_pair]. by rewrite IH.
  - rewrite filter_cons_False by (by rewrite E). done.
Qed.

Lemma y_tiles_sorted z x ys :
  StronglySorted str_lt ys -> StronglySorted tile_lt (map (fun y => (z, x, y)) ys).
Proof.
  induction 1 as [|y ys Hys IH Hy]; [constructor|]. cbn [map].
  constructor; [done|]. rewrite Forall_forall in Hy. apply Forall_forall.
  intros t (y' & -> & Hy')%list_elem_of_fmap. cbn. right. split; [done|]. right.
  split; [done|]. by apply Hy.
Qed.

Section Order.

Variable refused : call -> option exn.

Lemma iter_x_tiles_sorted m I O z zp xs :
  StronglySorted str_lt xs ->
  exists tiles,
    (iter_x_tiles refused m I O z zp xs).1 = map (tile_pair I O) tiles /\
    StronglySorted tile_lt tiles /\
    Forall (fun t => t.1.1 = z /\ t.1.2 ∈ xs) tiles.
Proof.
  induction 1 as [|x rest Hrest (later & Hlater & Hsorted & Hall) Hx]; cbn [iter_x_tiles].
  { exists []. repeat split; constructor. }
  assert (Hskip : exists tiles,
    (iter_x_tiles refused m I O z zp rest).1 = map (tile_pair I O) tiles /\
    StronglySorted tile_lt tiles /\
    Forall (fun t => t.1.1 = z /\ t.1.2 ∈ x :: rest) tiles).
  { exists later. split; [done|]. split; [done|].
    eapply Forall_impl; [done|]. intros t [? ?]. split; [done|]. by right. }
  destruct (isdir m (join zp [x])) eqn:Hdir; cbn [negb orb]; [|done].
  destruct (isdigit x) eqn:Hdig; cbn [negb]; [|done]. clear Hskip.
  destruct (os_listdir refused m _) as [ys|e] eqn:Hys.
  2:{ exists []. repeat split; constructor. }
  apply os_listdir_ok in Hys. cbn [fst]. rewrite Hlater, iter_y_files_tiles.
  set (here := map (fun y => (z, x, y)) _).
  exists (here ++ later). split; [by rewrite map_app|]. split.
  - apply StronglySorted_app_2; [|apply y_tiles_sorted, StronglySorted_filter,
      sorted_strict; by eapply listdir_NoDup|done].
    intros t1 [[z2 x2] y2] (y1 & -> & _)%list_elem_of_fmap Ht2.
    rewrite Forall_forall in Hall. rewrite Forall_forall in Hx. apply Hall in Ht2 as [Hz2 Hx2].
    cbn in *. right. split; [done|]. left. by apply Hx.
  - apply Forall_app. split.
    + apply Forall_forall. intros t (y & -> & _)%list_elem_of_fmap.
      split; [done|]. by left.
    + eapply Forall_impl; [done|]. intros t [? ?]. split; [done|]. by right.
Qed.

Lemma iter_zooms_sorted m I O zooms :
  StronglySorted str_lt zooms ->
  exists tiles,
    (iter_zooms refused m I O zooms).1 = map (tile_pair I O) tiles /\
    StronglySorted tile_lt tiles /\
    Forall (fun t => t.1.1 ∈ zooms) tiles.
Proof.
  induction 1 as [|z rest Hrest (later & Hlater & Hsorted & Hall) Hz]; cbn [iter_zooms].
  { exists []. repeat split; constructor. }
  assert (Hskip : exists tiles,
    (iter_zooms refused m I O rest).1 = map (tile_pair I O) tiles /\
    StronglySorted tile_lt tiles /\
    Forall (fun t => t.1.1 ∈ z :: rest) tiles).
  { exists later. split; [done|]. split; [done|].
    eapply Forall_impl; [done|]. intros t ?. by right. }
  destruct (isdir m (join I [z])) eqn:Hdir; cbn [negb orb]; [|done].
  destruct (isdigit z) eqn:Hdig; cbn [negb]; [|done]. clear Hskip.
  destruct (os_listdir refused m _) as [xs|e] eqn:Hxs.
  2:{ exists []. repeat split; constructor. }
  apply os_listdir_ok in Hxs.
  destruct (iter_x_tiles_sorted m I O z (join I [z]) (sorted xs)) as (here & Hhere & Hs & Hh).
  { apply sorted_strict. by eapply listdir_NoDup. }
  destruct (iter_x_tiles refused m I O z (join I [z]) (sorted xs)).2.
  { exists here. split; [done|]. split; [done|].
    eapply Forall_impl; [done|]. intros t [-> _]. by left. }
  cbn [fst]. rewrite Hhere, Hlater.
  exists (here ++ later). split; [by rewrite map_app|]. split.
  - apply StronglySorted_app_2; [|done..].
    intros [[z1 x1] y1] [[z2 x2] y2] Ht1 Ht2.
    rewrite Forall_forall in Hall. rewrite Forall_forall in Hz. rewrite Forall_forall in Hh.
    apply Hh in Ht1 as [Hz1 _]. apply Hall in Ht2. cbn in *. subst z1.
    left. by apply Hz.
  - apply Forall_app. split.
    + eapply Forall_impl; [done|]. intros t [-> _]. by left.
    + eapply Forall_impl; [done|]. intros t ?. by right.
Qed.

(** X16: discovery yields the tiles in order and none twice: when the input
    root is a directory, the pairs yielded are the sources and destinations
    of a list of tiles that is strictly increasing by zoom name, then x
    name, then file name, names being compared as [sorted] compares strings,
    code point by code point and not by value; and discovery ends normally
    when no listing of a directory is refused. *)
Theorem iter_tile_paths_sorted m I O :
  isdir m I = true ->
  let found := _iter_tile_paths refused I O m in
  ((forall p, refused (CallListdir p) = None) -> found.2 = None) /\
  exists tiles,
    found.1 = map (tile_pair I O) tiles /\
    StronglySorted tile_lt tiles.
Proof.
  intros Hroot found. subst found. split.
  { intros Hwilling. by apply iter_tile_paths_all. }
  unfold _iter_tile_paths.
  destruct (os_listdir refused m I) as [zs|e] eqn:Hzs.
  2:{ exists []. split; [done|constructor]. }
  apply os_listdir_ok in Hzs.
  destruct (iter_zooms_sorted m I O (sorted zs)) as (tiles & Hrun & Hsorted & _).
  { apply sorted_strict. by eapply listdir_NoDup. }
  by exists tiles.
Qed.


End Order.

Lemma iter_tile_paths_sorted_witness :
  isdir sample_tree (lit "in") = true /\
  let found := _iter_tile_paths willing (lit "in") (lit "out") sample_tree in
  ((forall p, willing (CallListdir p) = None) -> found.2 = None) /\
  exists tiles,
    found.1 = map (tile_pair (lit "in") (lit "out")) tiles /\
    StronglySorted tile_lt tiles.
Proof.
  split; [reflexivity|].
  apply (iter_tile_paths_sorted willing sample_tree (lit "in") (lit "out")). reflexivity.
Defined.


(** The order is that of strings: zoom level 10 comes before zoom level 2. *)
Example ten_before_two : str_lt (lit "10") (lit "2").
Proof. split; [reflexivity|discriminate]. Qed.
